(** * SketchUp Ruby debugger front-ends: console and RDIP (wire)

    A shallow embedding of [DebugServer/UI/RDIP/RDIP.cpp] and
    [DebugServer/UI/Console/Win/ConsoleUI.cpp]:

    - the regular expressions of the two command dispatchers, run by a
      backtracking matcher with capture groups ([Regex]);
    - the text conversions the dispatchers rely on ([Conv]);
    - the debug engine as an abstract interface ([IDebugServer]);
    - the wire front-end ([RDIP]) and the console front-end ([ConsoleUI]),
      each with its dispatcher and its [WaitForContinue] rendezvous loop.

    The two threads of a session are modelled by interleaving actions
    that each run without the other thread in between: one dispatched
    buffer, one entry into [WaitForContinue] (up to its first wait), one
    wake of the waiting interpreter thread, one handler run by the i/o
    service.  Every run of a session is a run of the program.  The
    program has more runs than these: the branches of the wire dispatcher
    that post a task do not hold [server_wait_mutex_], so the interpreter
    thread can also run between their assignments ([RDIP.request_steps]).
    What is proved for all runs is therefore stated either for one call of
    a function or for every interleaving of the functions that share a
    lock ([buffer_op]); sessions serve for the properties of one action,
    for fields that one thread alone writes, and for runs that show a
    behaviour.

    A write to the socket is recorded as done: the connection is taken to
    be open, and the exception [boost::asio::write] throws on a closed
    one is not part of the model. *)

From Stdlib Require Import String Ascii List Bool Arith NArith ZArith Lia.
From Stdlib Require Import DecimalString HexadecimalString.
From Stdlib Require DecimalN DecimalPos HexadecimalN HexadecimalPos.
Import ListNotations.
Local Open Scope string_scope.

(* ===================================================================== *)
(** ** Strings *)
(* ===================================================================== *)

Module Str.

(** The double-quote character. *)
Definition dquote : ascii := "034"%char.
Definition backslash : ascii := "092"%char.
Definition newline : ascii := "010"%char.

(** [std::isspace] in the "C" locale: space, \t, \n, \v, \f, \r. *)
Definition is_space (c : ascii) : bool :=
  let n := nat_of_ascii c in ((n =? 32) || ((9 <=? n) && (n <=? 13)))%nat.

Definition is_digit (c : ascii) : bool :=
  let n := nat_of_ascii c in ((48 <=? n) && (n <=? 57))%nat.

(** [boost::replace_all(s, from, to)] where [from] is a one-character
    string: every occurrence of the character is replaced, left to right. *)
Fixpoint replace_all (from : ascii) (to : string) (s : string) : string :=
  match s with
  | EmptyString => EmptyString
  | String c s' =>
      if Ascii.eqb c from then to ++ replace_all from to s'
      else String c (replace_all from to s')
  end.

Fixpoint all_chars (p : ascii -> bool) (s : string) : bool :=
  match s with
  | EmptyString => true
  | String c s' => p c && all_chars p s'
  end.

Fixpoint drop_while (p : ascii -> bool) (s : string) : string :=
  match s with
  | EmptyString => EmptyString
  | String c s' => if p c then drop_while p s' else s
  end.

Fixpoint rev (s : string) : string :=
  match s with
  | EmptyString => EmptyString
  | String c s' => rev s' ++ String c EmptyString
  end.

(** [boost::trim_copy]: white space removed at both ends. *)
Definition trim_copy (s : string) : string :=
  rev (drop_while is_space (rev (drop_while is_space s))).

(** [boost::split(out, s, boost::is_any_of(sep))], no token compression:
    [n] separators give [n + 1] pieces, empty ones included. *)
Fixpoint split (sep : ascii) (s : string) : list string :=
  match s with
  | EmptyString => [EmptyString]
  | String c s' =>
      if Ascii.eqb c sep then EmptyString :: split sep s'
      else match split sep s' with
           | [] => [String c EmptyString]
           | p :: ps => String c p :: ps
           end
  end.

Definition is_empty (s : string) : bool :=
  match s with EmptyString => true | _ => false end.

End Str.

(* ===================================================================== *)
(** ** Regular expressions (std::regex, ECMAScript grammar) *)
(* ===================================================================== *)

Module Regex.

(** The constructs the two dispatchers use.  [Grp n r] is the [n]-th
    capturing group; a non-capturing group [(?:r)] is [r] itself.  [Bol]
    and [Eol] are [^] and [$]: no multiline flag is set, so they hold at
    the two ends of the subject only. *)
Inductive regex : Type :=
| Eps
| Chr (c : ascii)
| Cls (p : ascii -> bool)
| Seq (r1 r2 : regex)
| Opt (r : regex)
| Star (r : regex)
| Grp (n : nat) (r : regex)
| Bol
| Eol.

Definition Plus (r : regex) : regex := Seq r (Star r).

Fixpoint lit (s : string) : regex :=
  match s with
  | EmptyString => Eps
  | String c s' => Seq (Chr c) (lit s')
  end.

(** Character classes. *)
Definition ws : regex := Cls Str.is_space.                     (* \s *)
Definition digit : regex := Cls Str.is_digit.                  (* \d, [0-9] *)
Definition any : regex :=                                      (* . *)
  Cls (fun c => negb (Ascii.eqb c "010") && negb (Ascii.eqb c "013")).
Definition not_dot_colon : regex :=                            (* [^.:] *)
  Cls (fun c => negb (Ascii.eqb c ".") && negb (Ascii.eqb c ":")).

(** Captures: the most recent binding of a group comes first. *)
Definition caps : Type := list (nat * string).

Fixpoint lookup (n : nat) (cs : caps) : option string :=
  match cs with
  | [] => None
  | (m, s) :: cs' => if Nat.eqb m n then Some s else lookup n cs'
  end.

(** [what[n]] converted to [std::string]: empty when the group did not
    take part in the match. *)
Definition sub (n : nat) (cs : caps) : string :=
  match lookup n cs with Some s => s | None => EmptyString end.

(** A continuation: offset in the subject, rest of the subject,
    captures so far. *)
Definition cont (A : Type) : Type := nat -> string -> caps -> option A.

(** The greedy loop of [r*]: one more iteration of the body [m] is tried
    first, and it has to consume something; then the rest of the pattern
    [k].  [fuel] bounds the number of iterations. *)
Fixpoint star_loop {A : Type} (m : nat -> string -> caps -> cont A -> option A)
    (k : cont A) (fuel : nat) (pos : nat) (s : string) (cs : caps)
    : option A :=
  match fuel with
  | O => k pos s cs
  | S fuel' =>
      match m pos s cs
              (fun pos' s' cs' =>
                 if (String.length s' <? String.length s)%nat
                 then star_loop m k fuel' pos' s' cs' else None) with
      | Some a => Some a
      | None => k pos s cs
      end
  end.

(** Backtracking matcher in continuation-passing style.  [pos] is the
    offset of [s] in the subject; quantifiers are greedy. *)
Fixpoint rmatch {A : Type} (r : regex) (pos : nat) (s : string) (cs : caps)
    (k : cont A) {struct r} : option A :=
  match r with
  | Eps => k pos s cs
  | Chr c =>
      match s with
      | String c' s' => if Ascii.eqb c' c then k (S pos) s' cs else None
      | EmptyString => None
      end
  | Cls p =>
      match s with
      | String c' s' => if p c' then k (S pos) s' cs else None
      | EmptyString => None
      end
  | Seq r1 r2 =>
      rmatch r1 pos s cs (fun pos' s' cs' => rmatch r2 pos' s' cs' k)
  | Opt r1 =>
      match rmatch r1 pos s cs k with
      | Some a => Some a
      | None => k pos s cs
      end
  | Star r1 => star_loop (rmatch r1) k (String.length s) pos s cs
  | Grp n r1 =>
      rmatch r1 pos s cs
        (fun pos' s' cs' => k pos' s' ((n, substring 0 (pos' - pos) s) :: cs'))
  | Bol => if Nat.eqb pos 0 then k pos s cs else None
  | Eol => match s with EmptyString => k pos s cs | _ => None end
  end.

(** [std::regex_match(s, what, r)]: the whole of [s] has to match. *)
Definition regex_match (s : string) (r : regex) : option caps :=
  rmatch r 0 s []
    (fun _ s' cs => if Str.is_empty s' then Some cs else None).

(** [std::regex_search(s, what, r)]: the leftmost match; the result holds
    the captures and [what.suffix()]. *)
Fixpoint search_from (r : regex) (pos : nat) (s : string)
    : option (caps * string) :=
  match rmatch r pos s [] (fun _ s' cs => Some (cs, s')) with
  | Some res => Some res
  | None =>
      match s with
      | EmptyString => None
      | String _ s' => search_from r (S pos) s'
      end
  end.

Definition regex_search (s : string) (r : regex) : option (caps * string) :=
  search_from r 0 s.

Definition matches (s : string) (r : regex) : bool :=
  match regex_match s r with Some _ => true | None => false end.

Definition found (s : string) (r : regex) : bool :=
  match regex_search s r with Some _ => true | None => false end.

(** Number of capturing groups; [what.size()] is one more. *)
Fixpoint mark_count (r : regex) : nat :=
  match r with
  | Seq r1 r2 => mark_count r1 + mark_count r2
  | Opt r1 | Star r1 => mark_count r1
  | Grp _ r1 => S (mark_count r1)
  | _ => 0
  end.

Definition what_size (r : regex) : nat := S (mark_count r).

End Regex.

Declare Scope regex_scope.
Delimit Scope regex_scope with re.
Infix "++" := Regex.Seq (right associativity, at level 60) : regex_scope.

(* ===================================================================== *)
(** ** Text to number and number to text *)
(* ===================================================================== *)

Module Conv.

(** [size_t] is 64 bits wide, [int] 32. *)
Definition size_max : N := (2 ^ 64 - 1)%N.
Definition int_max : Z := (2 ^ 31 - 1)%Z.
Definition int_min : Z := (- 2 ^ 31)%Z.

Definition digit_val (c : ascii) : N := N.of_nat (nat_of_ascii c - 48).

(** Value of a run of decimal digits, most significant first. *)
Fixpoint digits_val (acc : N) (s : string) : N :=
  match s with
  | EmptyString => acc
  | String c s' => digits_val (10 * acc + digit_val c)%N s'
  end.

Definition all_digits (s : string) : bool :=
  negb (Str.is_empty s) && Str.all_chars Str.is_digit s.

(** Optional sign in front of the digits, as [boost::lexical_cast] and
    [atoi] read it. *)
Definition split_sign (s : string) : bool * string :=
  match s with
  | String "-" s' => (true, s')
  | String "+" s' => (false, s')
  | _ => (false, s)
  end.

(** [boost::lexical_cast<size_t>(s)]: the whole text has to be a number
    in range; [None] stands for [bad_lexical_cast].  A leading minus sign
    is accepted and negates modulo [2 ^ 64]. *)
Definition lexical_cast_size_t (s : string) : option N :=
  let '(neg, ds) := split_sign s in
  if all_digits ds then
    let v := digits_val 0 ds in
    if (v <=? size_max)%N
    then Some (if neg then ((2 ^ 64 - v) mod 2 ^ 64)%N else v)
    else None
  else None.

(** [boost::lexical_cast<int>(s)]. *)
Definition lexical_cast_int (s : string) : option Z :=
  let '(neg, ds) := split_sign s in
  if all_digits ds then
    let v := Z.of_N (digits_val 0 ds) in
    let z := if neg then (- v)%Z else v in
    if ((int_min <=? z) && (z <=? int_max))%Z then Some z else None
  else None.

Fixpoint take_while (p : ascii -> bool) (s : string) : string :=
  match s with
  | EmptyString => EmptyString
  | String c s' => if p c then String c (take_while p s') else EmptyString
  end.

(** Reduction of an integer to the 32-bit two's complement range. *)
Definition wrap_int (z : Z) : Z :=
  ((z + 2 ^ 31) mod 2 ^ 32 - 2 ^ 31)%Z.

(** [long] and [unsigned long] are 64 bits wide. *)
Definition long_max : Z := (2 ^ 63 - 1)%Z.
Definition long_min : Z := (- 2 ^ 63)%Z.
Definition ulong_max : N := (2 ^ 64 - 1)%N.

(** [strtol(s, 0, 10)]: leading white space, an optional sign, then the
    longest run of digits; 0 when there is none; a value outside [long]
    is replaced by the nearer end of [long]. *)
Definition strtol (s : string) : Z :=
  let '(neg, ds) := split_sign (Str.drop_while Str.is_space s) in
  let v := Z.of_N (digits_val 0 (take_while Str.is_digit ds)) in
  Z.max long_min (Z.min long_max (if neg then (- v)%Z else v)).

(** [atoi(s)], which is [(int) strtol(s, 0, 10)]: inside [int] it is the
    number read; outside, where the C standard leaves the result open,
    it is what the C library gives: the saturated [long] converted to
    [int], which keeps its low 32 bits. *)
Definition atoi (s : string) : Z := wrap_int (strtol s).

(** Conversion of an [int] to [size_t] in an assignment. *)
Definition size_t_of_int (z : Z) : N := Z.to_N (z mod 2 ^ 64)%Z.

Definition hex_val (c : ascii) : option N :=
  let n := nat_of_ascii c in
  if ((48 <=? n) && (n <=? 57))%nat then Some (N.of_nat (n - 48))
  else if ((97 <=? n) && (n <=? 102))%nat then Some (N.of_nat (n - 87))
  else if ((65 <=? n) && (n <=? 70))%nat then Some (N.of_nat (n - 55))
  else None.

Fixpoint hex_prefix_val (acc : N) (s : string) : N :=
  match s with
  | EmptyString => acc
  | String c s' =>
      match hex_val c with
      | Some d => hex_prefix_val (16 * acc + d)%N s'
      | None => acc
      end
  end.

Definition skip_0x (s : string) : string :=
  match s with
  | String "0" (String "x" s') => s'
  | String "0" (String "X" s') => s'
  | _ => s
  end.

(** [sscanf(s, "%x", &id)] with [id] preset to 0: leading white space,
    an optional sign, an optional [0x], then hexadecimal digits; 0 when
    nothing converts.  The digits are read as by [strtoul]: a value above
    [unsigned long] is replaced by its maximum, and a minus sign negates
    modulo [2 ^ 64].  The conversion fills an [unsigned int], the low 32
    bits of [id]. *)
Definition sscanf_x (s : string) : N :=
  let '(neg, ds) := split_sign (Str.drop_while Str.is_space s) in
  let v := hex_prefix_val 0 (skip_0x ds) in
  let u := if (ulong_max <? v)%N then ulong_max
           else if neg then ((2 ^ 64 - v) mod 2 ^ 64)%N else v in
  (u mod 2 ^ 32)%N.

(** [ostream << n] for an unsigned integer, and [%x] of [boost::format]. *)
Definition dec (n : N) : string :=
  DecimalString.NilEmpty.string_of_uint (N.to_uint n).
Definition hex (n : N) : string :=
  HexadecimalString.NilEmpty.string_of_uint (N.to_hex_uint n).

End Conv.

(* ===================================================================== *)
(** ** Data of the engine interface *)
(* ===================================================================== *)

(** Modelled from the spec: the records [BreakPoint], [StackFrame] and
    [Variable] of section 3, whose headers are not among the sources; the
    fields are those the two front-ends read and write. *)
Module BreakPoint.
Record t : Type := Build
  { index : N; file : string; line : N; enabled : bool }.
End BreakPoint.

Module StackFrame.
Record t : Type := Build { name : string; file : string; line : N }.
End StackFrame.

Module Var.
Record t : Type := Build
  { name : string; value : string; type : string;
    object_id : N; has_children : bool }.
End Var.

(** Modelled from the spec: the engine interface [IDebugServer], whose
    header is not among the sources (section 6.4).  The engine has a
    state of type [E]; an operation takes the state and gives its result
    and, where it changes something, the new state.  [AddBreakPoint]
    returns its verdict and the index it assigned to the breakpoint; its
    second parameter is the flag the wire front-end passes as [true] and
    the console leaves out (taken as [false]). *)
Module IDebugServer.

Record t (E : Type) : Type := {
  AddBreakPoint : BreakPoint.t -> bool -> E -> bool * N * E;
  RemoveBreakPoint : N -> E -> bool * E;
  GetBreakPoints : E -> list BreakPoint.t;
  IsStopped : E -> bool;
  Step : E -> E;
  StepOut : E -> E;
  StepOver : E -> E;
  Stop : E -> E;
  GetStackFrames : E -> list StackFrame.t;
  GetActiveFrameIndex : E -> N;
  SetActiveFrameIndex : N -> E -> E;
  ShiftActiveFrame : bool -> E -> E;
  GetLocalVariables : E -> list Var.t;
  GetGlobalVariables : E -> list Var.t;
  GetInstanceVariables : N -> E -> list Var.t;
  EvaluateExpression : string -> E -> Var.t * E;
  GetBreakLineNumber : E -> N;
  GetCodeLines : N -> N -> E -> list (N * string)
}.

Arguments AddBreakPoint {E} _ _ _ _.
Arguments RemoveBreakPoint {E} _ _ _.
Arguments GetBreakPoints {E} _ _.
Arguments IsStopped {E} _ _.
Arguments Step {E} _ _.
Arguments StepOut {E} _ _.
Arguments StepOver {E} _ _.
Arguments Stop {E} _ _.
Arguments GetStackFrames {E} _ _.
Arguments GetActiveFrameIndex {E} _ _.
Arguments SetActiveFrameIndex {E} _ _ _.
Arguments ShiftActiveFrame {E} _ _ _.
Arguments GetLocalVariables {E} _ _.
Arguments GetGlobalVariables {E} _ _.
Arguments GetInstanceVariables {E} _ _ _.
Arguments EvaluateExpression {E} _ _ _.
Arguments GetBreakLineNumber {E} _ _.
Arguments GetCodeLines {E} _ _ _ _.

End IDebugServer.

(* ===================================================================== *)
(** ** Effects: what a front-end does besides changing its own fields *)
(* ===================================================================== *)

Module Eff.

(** Calls into the engine, as they show in a trace. *)
Inductive EngineCall : Type :=
| CAddBreakPoint (bp : BreakPoint.t) (flag : bool)
| CRemoveBreakPoint (i : N)
| CGetBreakPoints
| CIsStopped
| CStep
| CStepOut
| CStepOver
| CStop
| CGetStackFrames
| CGetActiveFrameIndex
| CSetActiveFrameIndex (i : N)
| CShiftActiveFrame (up : bool)
| CGetLocalVariables
| CGetGlobalVariables
| CGetInstanceVariables (id : N)
| CEvaluateExpression (e : string)
| CGetBreakLineNumber
| CGetCodeLines (from to : N).

(** Handlers given to the i/o service of the wire front-end. *)
Inductive Handler : Type :=
| HSendVariables (kind : string)
| HStopAtBreakpoint (bp : BreakPoint.t)
| HSuspendAt (file : string) (line : N).

Inductive Event : Type :=
| Write (s : string)            (* bytes to the open socket, text to std::cout *)
| Log (s : string)
| SetCanContinue                (* server_can_continue_ = true *)
| Notify                        (* notify_all / notify_one on the condvar *)
| Call (c : EngineCall)
| Post (h : Handler).           (* io_service_.post(h) *)

Inductive res (A : Type) : Type :=
| Ret (a : A)
| Throw.                        (* boost::bad_lexical_cast, nothing else *)
Arguments Ret {A} a.
Arguments Throw {A}.

(** A computation over the fields [S]: result or exception, the fields
    afterwards, the events in order. *)
Definition M (S A : Type) : Type := S -> res A * S * list Event.

Definition ret {S A} (a : A) : M S A := fun s => (Ret a, s, []).

Definition bind {S A B} (m : M S A) (f : A -> M S B) : M S B :=
  fun s =>
    match m s with
    | (Ret a, s1, ev1) =>
        match f a s1 with (r, s2, ev2) => (r, s2, (ev1 ++ ev2)%list) end
    | (Throw, s1, ev1) => (Throw, s1, ev1)
    end.

Definition emit {S} (e : Event) : M S unit := fun s => (Ret tt, s, [e]).
Definition get {S} : M S S := fun s => (Ret s, s, []).
Definition modify {S} (f : S -> S) : M S unit := fun s => (Ret tt, f s, []).
Definition throw {S A} : M S A := fun s => (Throw, s, []).

(** [for (x : xs) body(x)] *)
Fixpoint for_each {S A} (xs : list A) (body : A -> M S unit) : M S unit :=
  match xs with
  | [] => ret tt
  | x :: xs' => bind (body x) (fun _ => for_each xs' body)
  end.

Definition events {S A} (r : res A * S * list Event) : list Event := snd r.
Definition final {S A} (r : res A * S * list Event) : S := snd (fst r).
Definition result {S A} (r : res A * S * list Event) : res A := fst (fst r).

Definition is_write (e : Event) : bool :=
  match e with Write _ => true | _ => false end.

(** What reached the controller: the [Write] events. *)
Definition writes (evs : list Event) : list Event := filter is_write evs.

End Eff.

Declare Scope eff_scope.
Delimit Scope eff_scope with eff.
Notation "x <- m ;; k" := (Eff.bind m (fun x => k))
  (at level 61, m at next level, right associativity) : eff_scope.
Notation "m ;; k" := (Eff.bind m (fun _ => k))
  (at level 61, right associativity) : eff_scope.

(* ===================================================================== *)
(** ** The wire front-end (RDIP.cpp) *)
(* ===================================================================== *)

Module RDIP.

Import Regex Eff.
Local Open Scope eff_scope.

Definition nl : string := String Str.newline EmptyString.
Definition quoted (s : string) : string :=
  String Str.dquote (s ++ String Str.dquote EmptyString).

(** *** Initialize *)

Definition reg_port : regex := (lit "port=" ++ Grp 1 (Plus digit))%re.

(** [RDIP::Initialize]: the port handed to [RunService]; [Throw] when
    [boost::lexical_cast<int>] fails, which nothing catches. *)
Definition Initialize (str_debugger : string) : res Z :=
  match regex_search str_debugger reg_port with
  | Some (what, _) =>
      match Conv.lexical_cast_int (sub 1 what) with
      | Some port => Ret port
      | None => Throw
      end
  | None => Ret 1234%Z
  end.

(** The acceptor of [Connection] is built on
    [tcp::endpoint(tcp::v4(), port)], whose port is an [unsigned short]. *)
Definition endpoint_port (port : Z) : Z := (port mod 2 ^ 16)%Z.

(** *** encodeXml *)

Definition encodeXml (str : string) : string :=
  let encoded := Str.replace_all "&" "&amp;" str in
  let encoded := Str.replace_all Str.dquote "&quot;" encoded in
  let encoded := Str.replace_all "<" "&lt;" encoded in
  let encoded := Str.replace_all ">" "&gt;" encoded in
  let encoded := Str.replace_all "'" "&apos;" encoded in
  encoded.

(** *** The patterns of evaluateCommand *)

(* "^\\s*b(?:reak)?\\s+(?:(.+):)?([^.:]+)$" *)
Definition reg_brk : regex :=
  (Bol ++ Star ws ++ Chr "b" ++ Opt (lit "reak") ++ Plus ws
   ++ Opt (Grp 1 (Plus any) ++ Chr ":") ++ Grp 2 (Plus not_dot_colon)
   ++ Eol)%re.
(* "^\\s*del(?:ete)?(?:\\s+(\\d+))?$" *)
Definition reg_brk_del : regex :=
  (Bol ++ Star ws ++ lit "del" ++ Opt (lit "ete")
   ++ Opt (Plus ws ++ Grp 1 (Plus digit)) ++ Eol)%re.
(* "^\\s*start$" *)
Definition reg_start : regex := (Bol ++ Star ws ++ lit "start" ++ Eol)%re.
(* "^\\s*exit?$" *)
Definition reg_exit : regex :=
  (Bol ++ Star ws ++ lit "exi" ++ Opt (Chr "t") ++ Eol)%re.
(* "^\\s*c(?:ont)?$" *)
Definition reg_cont : regex :=
  (Bol ++ Star ws ++ Chr "c" ++ Opt (lit "ont") ++ Eol)%re.
(* "^\\s*w(?:here)?$" *)
Definition reg_where : regex :=
  (Bol ++ Star ws ++ Chr "w" ++ Opt (lit "here") ++ Eol)%re.
(* "^\\s*f(?:rame)? ([0-9]+)$" *)
Definition reg_frame : regex :=
  (Bol ++ Star ws ++ Chr "f" ++ Opt (lit "rame") ++ Chr " "
   ++ Grp 1 (Plus digit) ++ Eol)%re.
(* "^\\s*s(?:tep)?\\s?" *)
Definition reg_step : regex :=
  (Bol ++ Star ws ++ Chr "s" ++ Opt (lit "tep") ++ Opt ws)%re.
(* "^\\s*n(?:ext)?$" *)
Definition reg_next : regex :=
  (Bol ++ Star ws ++ Chr "n" ++ Opt (lit "ext") ++ Eol)%re.
(* "^\\s*finish?$" *)
Definition reg_finish : regex :=
  (Bol ++ Star ws ++ lit "finis" ++ Opt (Chr "h") ++ Eol)%re.
(* "v inspect\\s+" *)
Definition reg_var_inspect : regex := (lit "v inspect" ++ Plus ws)%re.
(* "^\\s*th(?:read)? l(?:ist)?$" *)
Definition reg_thr_lst : regex :=
  (Bol ++ Star ws ++ lit "th" ++ Opt (lit "read") ++ lit " l"
   ++ Opt (lit "ist") ++ Eol)%re.
(* "^\\s*v(?:ar)? l(?:ocal)?$" *)
Definition reg_var_local : regex :=
  (Bol ++ Star ws ++ Chr "v" ++ Opt (lit "ar") ++ lit " l"
   ++ Opt (lit "ocal") ++ Eol)%re.
(* "^\\s*v(?:ar)? g(?:lobal)?$" *)
Definition reg_var_global : regex :=
  (Bol ++ Star ws ++ Chr "v" ++ Opt (lit "ar") ++ lit " g"
   ++ Opt (lit "lobal") ++ Eol)%re.
(* "^\\s*v(?:ar)? i(?:nstance)? (.+)$" *)
Definition reg_var_instance : regex :=
  (Bol ++ Star ws ++ Chr "v" ++ Opt (lit "ar") ++ lit " i"
   ++ Opt (lit "nstance") ++ Chr " " ++ Grp 1 (Plus any) ++ Eol)%re.

(** The branch of [evaluateCommand] a command takes, with the captured
    texts the branch uses. *)
Inductive Command : Type :=
| AddBreakpoint (file line : string)
| DeleteBreakpoint (arg : string)
| Start
| Continue
| Exit
| Where
| ThreadList
| Frame (arg : string)
| Step
| StepOut
| StepOver
| Eval (expression : string)
| VarsLocal
| VarsGlobal
| VarsInstance (arg : string)
| Unknown.

(** The if/else-if chain of [evaluateCommand], in its order. *)
Definition parse (cmd : string) : Command :=
  match regex_match cmd reg_brk with
  | Some what => AddBreakpoint (sub 1 what) (sub 2 what)
  | None =>
  match regex_match cmd reg_brk_del with
  | Some what => DeleteBreakpoint (sub 1 what)
  | None =>
  if matches cmd reg_start then Start
  else if matches cmd reg_cont then Continue
  else if matches cmd reg_exit then Exit
  else if matches cmd reg_where then Where
  else if matches cmd reg_thr_lst then ThreadList
  else
  match regex_match cmd reg_frame with
  | Some what => Frame (sub 1 what)
  | None =>
  if matches cmd reg_step then Step
  else if matches cmd reg_finish then StepOut
  else if matches cmd reg_next then StepOver
  else
  match regex_search cmd reg_var_inspect with
  | Some (_, suffix) => Eval suffix
  | None =>
  if matches cmd reg_var_local then VarsLocal
  else if matches cmd reg_var_global then VarsGlobal
  else
  match regex_match cmd reg_var_instance with
  | Some what => VarsInstance (sub 1 what)
  | None => Unknown
  end end end end end.

(** What the interpreter thread is asked to run ([server_response_]). *)
Inductive Task : Type :=
| TaskGetVariables (local : bool)
| TaskGetInstanceVariables (object_id : N)
| TaskEvalExpression.

Section Connection.

Context {E : Type} (server_ : IDebugServer.t E).

(** The fields of [RDIP] and of [RDIP::Connection] the code reads and
    writes, with the state of the engine. *)
Record state : Type := {
  engine : E;
  server_can_continue_ : bool;
  server_response_ : option Task;
  process_server_response_ : option Handler;
  expression_to_eval_ : string;
  variables_to_send_ : list Var.t
}.

Definition set_engine (e : E) (st : state) : state :=
  {| engine := e;
     server_can_continue_ := server_can_continue_ st;
     server_response_ := server_response_ st;
     process_server_response_ := process_server_response_ st;
     expression_to_eval_ := expression_to_eval_ st;
     variables_to_send_ := variables_to_send_ st |}.

Definition set_can_continue (b : bool) (st : state) : state :=
  {| engine := engine st;
     server_can_continue_ := b;
     server_response_ := server_response_ st;
     process_server_response_ := process_server_response_ st;
     expression_to_eval_ := expression_to_eval_ st;
     variables_to_send_ := variables_to_send_ st |}.

Definition set_server_response (t : option Task) (st : state) : state :=
  {| engine := engine st;
     server_can_continue_ := server_can_continue_ st;
     server_response_ := t;
     process_server_response_ := process_server_response_ st;
     expression_to_eval_ := expression_to_eval_ st;
     variables_to_send_ := variables_to_send_ st |}.

Definition set_process_server_response (h : option Handler) (st : state)
    : state :=
  {| engine := engine st;
     server_can_continue_ := server_can_continue_ st;
     server_response_ := server_response_ st;
     process_server_response_ := h;
     expression_to_eval_ := expression_to_eval_ st;
     variables_to_send_ := variables_to_send_ st |}.

Definition set_expression_to_eval (s : string) (st : state) : state :=
  {| engine := engine st;
     server_can_continue_ := server_can_continue_ st;
     server_response_ := server_response_ st;
     process_server_response_ := process_server_response_ st;
     expression_to_eval_ := s;
     variables_to_send_ := variables_to_send_ st |}.

Definition set_variables_to_send (vs : list Var.t) (st : state) : state :=
  {| engine := engine st;
     server_can_continue_ := server_can_continue_ st;
     server_response_ := server_response_ st;
     process_server_response_ := process_server_response_ st;
     expression_to_eval_ := expression_to_eval_ st;
     variables_to_send_ := vs |}.

(** The state a session starts in: [server_can_continue_(false)], empty
    callables, empty buffers. *)
Definition initial (e : E) : state :=
  {| engine := e;
     server_can_continue_ := false;
     server_response_ := None;
     process_server_response_ := None;
     expression_to_eval_ := EmptyString;
     variables_to_send_ := [] |}.

(** A call that changes the engine, and one that only reads it. *)
Definition call {A} (c : EngineCall) (f : E -> A * E) : M state A :=
  fun st =>
    match f (engine st) with
    | (a, e') => (Ret a, set_engine e' st, [Call c])
    end.

Definition query {A} (c : EngineCall) (f : E -> A) : M state A :=
  fun st => (Ret (f (engine st)), st, [Call c]).

(** [lock_guard lock(server_wait_mutex_); server_can_continue_ = true;
    server_wait_cond_.notify_all();] *)
Definition signal_continue : M state unit :=
  modify (set_can_continue true) ;; emit SetCanContinue ;; emit Notify.

(** Posting a task for the interpreter thread with its follow-up: the
    two assignments and the notification, in the order of the source,
    when the interpreter thread does not run in between. *)
Definition request (t : Task) (kind : string) : M state unit :=
  modify (set_server_response (Some t)) ;;
  modify (set_process_server_response (Some (HSendVariables kind))) ;;
  emit Notify.

(** The same three statements one by one.  The branches that post a task
    take no lock, so the interpreter thread, which reads both fields under
    [server_wait_mutex_], can run a round of [WaitForContinue] between any
    two of them. *)
Definition request_steps (t : Task) (kind : string) : list (M state unit) :=
  [ modify (set_server_response (Some t));
    modify (set_process_server_response (Some (HSendVariables kind)));
    emit Notify ].

Definition breakpointAdded (bp : BreakPoint.t) : string :=
  "<breakpointAdded no=" ++ quoted (Conv.dec (BreakPoint.index bp))
  ++ " location="
  ++ quoted (BreakPoint.file bp ++ ":" ++ Conv.dec (BreakPoint.line bp))
  ++ "/>" ++ nl.

Definition breakpointDeleted (bp_index : N) : string :=
  "<breakpointDeleted no=" ++ quoted (Conv.dec bp_index) ++ " />" ++ nl.

Definition frame_xml (activeFrameIdx i : N) (frame : StackFrame.t)
    : string :=
  let file := encodeXml (StackFrame.file frame) in
  "<frame no=" ++ quoted (Conv.dec i) ++ " file=" ++ quoted file
  ++ " line=" ++ quoted (Conv.dec (StackFrame.line frame))
  ++ (if N.eqb activeFrameIdx i then " current=" ++ quoted "yes" else "")
  ++ "/>".

Fixpoint frames_xml (activeFrameIdx i : N) (frames : list StackFrame.t)
    : string :=
  match frames with
  | [] => EmptyString
  | frame :: rest =>
      frame_xml activeFrameIdx i frame
      ++ frames_xml activeFrameIdx (i + 1)%N rest
  end.

(** The bodies of the branches of [evaluateCommand]. *)
Definition exec (c : Command) (cmd : string) : M state unit :=
  match c with
  | AddBreakpoint what1 what2 =>
      if Nat.eqb (what_size reg_brk) 3 then
        let file := Str.replace_all Str.backslash "/" what1 in
        let line := Conv.size_t_of_int (Conv.atoi what2) in
        let bp := BreakPoint.Build 0 file line true in
        r <- call (CAddBreakPoint bp true) (IDebugServer.AddBreakPoint server_ bp true) ;;
        if fst r then
          let reply := breakpointAdded (BreakPoint.Build (snd r) file line true) in
          emit (Write reply) ;; emit (Log reply) ;;
          emit (Log ("    => Breakpoint added" ++ nl))
        else emit (Log ("Adding breakpoint failed" ++ nl ++ "."))
      else ret tt
  | DeleteBreakpoint what1 =>
      if Nat.eqb (what_size reg_brk_del) 2 then
        match Conv.lexical_cast_size_t what1 with
        | None => throw
        | Some bp_index =>
            ok <- call (CRemoveBreakPoint bp_index)
                       (IDebugServer.RemoveBreakPoint server_ bp_index) ;;
            if (ok : bool) then
              let reply := breakpointDeleted bp_index in
              emit (Write reply) ;; emit (Log reply) ;;
              emit (Log ("    => Breakpoint deleted" ++ nl))
            else emit (Log ("Breakpoint could not be deleted" ++ nl))
        end
      else ret tt
  | Start | Continue => signal_continue
  | Exit =>
      signal_continue ;;
      call CStop (fun e => (tt, IDebugServer.Stop server_ e))
  | Where =>
      frames <- query CGetStackFrames (IDebugServer.GetStackFrames server_) ;;
      activeFrameIdx <- query CGetActiveFrameIndex
                              (IDebugServer.GetActiveFrameIndex server_) ;;
      let str_send :=
        "<frames>" ++ nl ++ frames_xml activeFrameIdx 0 frames
        ++ "</frames>" ++ nl in
      emit (Log str_send) ;; emit (Write str_send)
  | ThreadList =>
      emit (Write ("<threads>" ++ nl ++ "<thread id=" ++ quoted "1"
                   ++ " status=" ++ quoted "run" ++ "/>" ++ nl
                   ++ "</threads>" ++ nl))
  | Frame what1 =>
      if Nat.eqb (what_size reg_frame) 2 then
        match Conv.lexical_cast_size_t what1 with
        | None => throw
        | Some frameIndex =>
            call (CSetActiveFrameIndex frameIndex)
                 (fun e => (tt, IDebugServer.SetActiveFrameIndex server_ frameIndex e))
        end
      else ret tt
  | Step =>
      call CStep (fun e => (tt, IDebugServer.Step server_ e)) ;; signal_continue
  | StepOut =>
      call CStepOut (fun e => (tt, IDebugServer.StepOut server_ e)) ;; signal_continue
  | StepOver =>
      call CStepOver (fun e => (tt, IDebugServer.StepOver server_ e)) ;; signal_continue
  | Eval suffix =>
      modify (set_expression_to_eval suffix) ;;
      request TaskEvalExpression "watch"
  | VarsLocal => request (TaskGetVariables true) "local"
  | VarsGlobal => request (TaskGetVariables false) "global"
  | VarsInstance what1 =>
      request (TaskGetInstanceVariables (Conv.sscanf_x what1)) "instance"
  | Unknown =>
      emit (Log "Unknown command : ") ;; emit (Log cmd) ;; emit (Log nl)
  end.

Definition evaluateCommand (cmd : string) : M state unit :=
  exec (parse cmd) cmd.

(** [handleCommand] on a buffer read without error. *)
Definition handleCommand (str : string) : M state unit :=
  emit (Log (nl ++ "Command from IDE => ")) ;;
  emit (Log str) ;;
  for_each (Str.split ";" str)
           (fun cmd => evaluateCommand (Str.trim_copy cmd)).

(** *** Handlers run by the i/o service *)

Definition stopAtBreakpoint (bp : BreakPoint.t) : M state unit :=
  let str :=
    "<breakpoint file=" ++ quoted (BreakPoint.file bp)
    ++ " line=" ++ quoted (Conv.dec (BreakPoint.line bp))
    ++ " threadId=" ++ quoted "1" ++ "/>" ++ nl in
  emit (Log "sending stopAtBreakpoint => ") ;;
  emit (Log str) ;; emit (Write str).

Definition suspendAt (file : string) (line : N) : M state unit :=
  let str :=
    "<suspended file=" ++ quoted (encodeXml file)
    ++ " line=" ++ quoted (Conv.dec line)
    ++ " threadId=" ++ quoted "1" ++ " frames=" ++ quoted "1"
    ++ "/>" ++ nl in
  emit (Log "sending suspendAt => ") ;;
  emit (Log str) ;; emit (Write str).

Definition variable_xml (kind : string) (var : Var.t) : string :=
  let value := encodeXml (Var.value var) in
  let name := encodeXml (Var.name var) in
  "<variable name=" ++ quoted name ++ " kind=" ++ quoted kind
  ++ " value=" ++ quoted value ++ " type=" ++ quoted (Var.type var)
  ++ " hasChildren="
  ++ quoted (if Var.has_children var then "true" else "false")
  ++ " objectId=" ++ quoted (Conv.hex (Var.object_id var)) ++ "/>" ++ nl.

Definition variables_xml (kind : string) (vars : list Var.t) : string :=
  "<variables>" ++ nl
  ++ String.concat EmptyString (map (variable_xml kind) vars)
  ++ "</variables>" ++ nl.

Definition sendVariables (kind : string) : M state unit :=
  emit (Log ("sending variables" ++ nl)) ;;
  st <- get ;;
  let send_str := variables_xml kind (variables_to_send_ st) in
  emit (Log send_str) ;;
  emit (Write send_str) ;;
  modify (set_variables_to_send []).

Definition run_handler (h : Handler) : M state unit :=
  match h with
  | HSendVariables kind => sendVariables kind
  | HStopAtBreakpoint bp => stopAtBreakpoint bp
  | HSuspendAt file line => suspendAt file line
  end.

(** *** Tasks run on the interpreter thread *)

Definition getVariables (local : bool) : M state unit :=
  vs <- (if local
         then query CGetLocalVariables (IDebugServer.GetLocalVariables server_)
         else query CGetGlobalVariables (IDebugServer.GetGlobalVariables server_)) ;;
  modify (set_variables_to_send vs).

Definition getInstanceVariables (object_id : N) : M state unit :=
  vs <- query (CGetInstanceVariables object_id)
              (IDebugServer.GetInstanceVariables server_ object_id) ;;
  modify (set_variables_to_send vs).

Definition evalExpression : M state unit :=
  modify (set_variables_to_send []) ;;
  st <- get ;;
  if Str.is_empty (expression_to_eval_ st) then ret tt
  else
    var <- call (CEvaluateExpression (expression_to_eval_ st))
                (IDebugServer.EvaluateExpression server_ (expression_to_eval_ st)) ;;
    st' <- get ;;
    modify (set_variables_to_send (variables_to_send_ st' ++ [var])) ;;
    modify (set_expression_to_eval EmptyString).

Definition run_task (t : Task) : M state unit :=
  match t with
  | TaskGetVariables local => getVariables local
  | TaskGetInstanceVariables object_id => getInstanceVariables object_id
  | TaskEvalExpression => evalExpression
  end.

(** *** WaitForContinue *)

(** One round of the loop, from after the test to the wait. *)
Definition loop_body : M state unit :=
  st <- get ;;
  match server_response_ st with
  | Some t =>
      run_task t ;;
      st' <- get ;;
      match process_server_response_ st' with
      | Some h => emit (Post h)
      | None => ret tt
      end ;;
      modify (set_server_response None)
  | None => ret tt
  end.

(** From the call to the first wait: the flag is reset, so the loop is
    entered. *)
Definition WaitForContinue_enter : M state unit :=
  modify (set_can_continue false) ;; loop_body.

(** From a return of [wait] on: [true] when [WaitForContinue] returns,
    [false] when the thread waits again. *)
Definition WaitForContinue_wake : M state bool :=
  st <- get ;;
  if server_can_continue_ st
  then emit (Log ("Let SketchUp start" ++ nl)) ;; ret true
  else loop_body ;; ret false.

(** [RDIP::Break(bp)] and [RDIP::Break(file, line)] up to the first
    wait. *)
Definition Break (bp : BreakPoint.t) : M state unit :=
  emit (Post (HStopAtBreakpoint bp)) ;; WaitForContinue_enter.

Definition Break_at (file : string) (line : N) : M state unit :=
  emit (Post (HSuspendAt file line)) ;; WaitForContinue_enter.

(** *** A session: the two threads interleaved *)

(** [waiting]: the interpreter thread is inside [WaitForContinue], blocked
    in [wait]; [posted]: the handlers in the queue of the i/o service,
    oldest first; [alive]: no exception has left the i/o thread. *)
Record session : Type := {
  conn : state;
  waiting : bool;
  posted : list Handler;
  alive : bool
}.

Inductive action : Type :=
| Receive (str : string)          (* i/o thread: handleCommand on a buffer *)
| RunHandler                      (* i/o thread: the oldest posted handler *)
| HitBreak (bp : BreakPoint.t)    (* interpreter: Break(bp), to the wait *)
| SuspendAt (file : string) (line : N) (* interpreter: Break(file, line) *)
| Wake.                           (* interpreter: wait returns *)

Fixpoint posts (evs : list Event) : list Handler :=
  match evs with
  | [] => []
  | Post h :: evs' => h :: posts evs'
  | _ :: evs' => posts evs'
  end.

Definition start (e : E) : session :=
  {| conn := initial e; waiting := false; posted := []; alive := true |}.

(** One action, run without the other thread in between; [None] when
    the action cannot happen in [s].  A buffer of several commands with
    the interpreter thread running between two of them is the run of the
    pieces as buffers of their own. *)
Definition step (a : action) (s : session) : option (session * list Event) :=
  match a with
  | Receive str =>
      if alive s then
        match handleCommand str (conn s) with
        | (r, st, evs) =>
            Some ({| conn := st; waiting := waiting s;
                     posted := (posted s ++ posts evs)%list;
                     alive := match r with Ret _ => true | Throw => false end |},
                  evs)
        end
      else None
  | RunHandler =>
      if alive s then
        match posted s with
        | [] => None
        | h :: rest =>
            match run_handler h (conn s) with
            | (_, st, evs) =>
                Some ({| conn := st; waiting := waiting s;
                         posted := (rest ++ posts evs)%list;
                         alive := true |}, evs)
            end
        end
      else None
  | HitBreak bp =>
      if waiting s then None
      else
        match Break bp (conn s) with
        | (_, st, evs) =>
            Some ({| conn := st; waiting := true;
                     posted := (posted s ++ posts evs)%list;
                     alive := alive s |}, evs)
        end
  | SuspendAt file line =>
      if waiting s then None
      else
        match Break_at file line (conn s) with
        | (_, st, evs) =>
            Some ({| conn := st; waiting := true;
                     posted := (posted s ++ posts evs)%list;
                     alive := alive s |}, evs)
        end
  | Wake =>
      if waiting s then
        match WaitForContinue_wake (conn s) with
        | (r, st, evs) =>
            Some ({| conn := st;
                     waiting := match r with Ret true => false | _ => true end;
                     posted := (posted s ++ posts evs)%list;
                     alive := alive s |}, evs)
        end
      else None
  end.

Fixpoint run (acts : list action) (s : session)
    : option (session * list Event) :=
  match acts with
  | [] => Some (s, [])
  | a :: acts' =>
      match step a s with
      | None => None
      | Some (s1, evs1) =>
          match run acts' s1 with
          | None => None
          | Some (s2, evs2) => Some (s2, (evs1 ++ evs2)%list)
          end
      end
  end.

End Connection.

Arguments state : clear implicits.
Arguments session : clear implicits.

End RDIP.

(* ===================================================================== *)
(** ** The console front-end (ConsoleUI.cpp) *)
(* ===================================================================== *)

Module ConsoleUI.

Import Regex Eff.
Local Open Scope eff_scope.

Definition nl : string := String Str.newline EmptyString.

(** *** The patterns of EvaluateCommand *)

(* "^\\s*b(?:reak)?$" *)
Definition reg_brk_list : regex :=
  (Bol ++ Star ws ++ Chr "b" ++ Opt (lit "reak") ++ Eol)%re.
(* "^\\s*b(?:reak)?\\s+(?:(.+):)?([^.:]+)$" *)
Definition reg_brk : regex :=
  (Bol ++ Star ws ++ Chr "b" ++ Opt (lit "reak") ++ Plus ws
   ++ Opt (Grp 1 (Plus any) ++ Chr ":") ++ Grp 2 (Plus not_dot_colon)
   ++ Eol)%re.
(* "^\\s*del(?:ete)?(?:\\s+(\\d+))?$" *)
Definition reg_brk_del : regex :=
  (Bol ++ Star ws ++ lit "del" ++ Opt (lit "ete")
   ++ Opt (Plus ws ++ Grp 1 (Plus digit)) ++ Eol)%re.
(* "^\\s*c(?:ont)?$" *)
Definition reg_cont : regex :=
  (Bol ++ Star ws ++ Chr "c" ++ Opt (lit "ont") ++ Eol)%re.
(* "^\\s*h(?:elp)?$" *)
Definition reg_help : regex :=
  (Bol ++ Star ws ++ Chr "h" ++ Opt (lit "elp") ++ Eol)%re.
(* "^\\s*w(?:here)?$" *)
Definition reg_where : regex :=
  (Bol ++ Star ws ++ Chr "w" ++ Opt (lit "here") ++ Eol)%re.
(* "^\\s*f(?:rame)?$" *)
Definition reg_frame : regex :=
  (Bol ++ Star ws ++ Chr "f" ++ Opt (lit "rame") ++ Eol)%re.
(* "^\\s*s(?:tep)?\\s?" *)
Definition reg_step : regex :=
  (Bol ++ Star ws ++ Chr "s" ++ Opt (lit "tep") ++ Opt ws)%re.
(* "^\\s*n(?:ext)?$" *)
Definition reg_next : regex :=
  (Bol ++ Star ws ++ Chr "n" ++ Opt (lit "ext") ++ Eol)%re.
(* "^\\s*l(?:ist)?$" *)
Definition reg_list : regex :=
  (Bol ++ Star ws ++ Chr "l" ++ Opt (lit "ist") ++ Eol)%re.
(* "^\\s*up?$" *)
Definition reg_up : regex :=
  (Bol ++ Star ws ++ Chr "u" ++ Opt (Chr "p") ++ Eol)%re.
(* "^\\s*down?$" *)
Definition reg_down : regex :=
  (Bol ++ Star ws ++ lit "dow" ++ Opt (Chr "n") ++ Eol)%re.
(* "^\\s*p\\s+" *)
Definition reg_eval : regex := (Bol ++ Star ws ++ Chr "p" ++ Plus ws)%re.
(* "^\\s*v(ar)?\\s+" *)
Definition reg_var : regex :=
  (Bol ++ Star ws ++ Chr "v" ++ Opt (Grp 1 (lit "ar")) ++ Plus ws)%re.
(* "^o(ut)?$" *)
Definition reg_out : regex :=
  (Bol ++ Chr "o" ++ Opt (Grp 1 (lit "ut")) ++ Eol)%re.
(* "^g(lobal)?$" *)
Definition reg_global : regex :=
  (Bol ++ Chr "g" ++ Opt (Grp 1 (lit "lobal")) ++ Eol)%re.
(* "^l(ocal)?$" *)
Definition reg_local : regex :=
  (Bol ++ Chr "l" ++ Opt (Grp 1 (lit "ocal")) ++ Eol)%re.

(** The branch of [EvaluateCommand] a line takes, with the texts the
    branch uses. *)
Inductive Command : Type :=
| ListBreakpoints
| DeleteBreakpoint (arg : string)
| AddBreakpoint (file line : string)
| Continue
| Step (suffix : string)
| StepOver
| Help
| FrameUp
| FrameDown
| Where
| ListSource
| Eval (expression : string)
| Vars (suffix : string)
| Other.

(** The if/else-if chain of [EvaluateCommand], in its order. *)
Definition parse (str_command : string) : Command :=
  if matches str_command reg_brk_list then ListBreakpoints
  else
  match regex_match str_command reg_brk_del with
  | Some what => DeleteBreakpoint (sub 1 what)
  | None =>
  match regex_match str_command reg_brk with
  | Some what => AddBreakpoint (sub 1 what) (sub 2 what)
  | None =>
  if matches str_command reg_cont then Continue
  else
  match regex_search str_command reg_step with
  | Some (_, suffix) => Step suffix
  | None =>
  if matches str_command reg_next then StepOver
  else if matches str_command reg_help then Help
  else if matches str_command reg_up then FrameUp
  else if matches str_command reg_down then FrameDown
  else if matches str_command reg_where || matches str_command reg_frame
  then Where
  else if matches str_command reg_list then ListSource
  else
  match regex_search str_command reg_eval with
  | Some (_, suffix) => Eval suffix
  | None =>
  match regex_search str_command reg_var with
  | Some (_, suffix) => Vars suffix
  | None => Other
  end end end end end.

Inductive Need : Type :=
| NEED_NOTHING
| NEED_EVAL
| NEED_GLOBAL_VARS
| NEED_LOCAL_VARS.

Definition is_nothing (n : Need) : bool :=
  match n with NEED_NOTHING => true | _ => false end.

Section Console.

Context {E : Type} (server_ : IDebugServer.t E).

Record state : Type := {
  engine : E;
  server_will_continue_ : bool;
  server_can_continue_ : bool;
  need_server_response_ : bool;
  need_what_from_server_ : Need;
  expression_to_evaluate_ : string
}.

Definition set_engine (e : E) (st : state) : state :=
  {| engine := e;
     server_will_continue_ := server_will_continue_ st;
     server_can_continue_ := server_can_continue_ st;
     need_server_response_ := need_server_response_ st;
     need_what_from_server_ := need_what_from_server_ st;
     expression_to_evaluate_ := expression_to_evaluate_ st |}.

Definition set_will_continue (b : bool) (st : state) : state :=
  {| engine := engine st;
     server_will_continue_ := b;
     server_can_continue_ := server_can_continue_ st;
     need_server_response_ := need_server_response_ st;
     need_what_from_server_ := need_what_from_server_ st;
     expression_to_evaluate_ := expression_to_evaluate_ st |}.

Definition set_can_continue (b : bool) (st : state) : state :=
  {| engine := engine st;
     server_will_continue_ := server_will_continue_ st;
     server_can_continue_ := b;
     need_server_response_ := need_server_response_ st;
     need_what_from_server_ := need_what_from_server_ st;
     expression_to_evaluate_ := expression_to_evaluate_ st |}.

Definition set_need_server_response (b : bool) (st : state) : state :=
  {| engine := engine st;
     server_will_continue_ := server_will_continue_ st;
     server_can_continue_ := server_can_continue_ st;
     need_server_response_ := b;
     need_what_from_server_ := need_what_from_server_ st;
     expression_to_evaluate_ := expression_to_evaluate_ st |}.

Definition set_need_what (n : Need) (st : state) : state :=
  {| engine := engine st;
     server_will_continue_ := server_will_continue_ st;
     server_can_continue_ := server_can_continue_ st;
     need_server_response_ := need_server_response_ st;
     need_what_from_server_ := n;
     expression_to_evaluate_ := expression_to_evaluate_ st |}.

Definition set_expression (s : string) (st : state) : state :=
  {| engine := engine st;
     server_will_continue_ := server_will_continue_ st;
     server_can_continue_ := server_can_continue_ st;
     need_server_response_ := need_server_response_ st;
     need_what_from_server_ := need_what_from_server_ st;
     expression_to_evaluate_ := s |}.

(** The constructor of [ConsoleUI]. *)
Definition initial (e : E) : state :=
  {| engine := e;
     server_will_continue_ := false;
     server_can_continue_ := false;
     need_server_response_ := false;
     need_what_from_server_ := NEED_NOTHING;
     expression_to_evaluate_ := EmptyString |}.

Definition call {A} (c : EngineCall) (f : E -> A * E) : M state A :=
  fun st =>
    match f (engine st) with
    | (a, e') => (Ret a, set_engine e' st, [Call c])
    end.

Definition query {A} (c : EngineCall) (f : E -> A) : M state A :=
  fun st => (Ret (f (engine st)), st, [Call c]).

(** *** Writers *)

Definition help_lines : list string :=
  [ "Debugger help";
    "Commands";
    "  b[reak] file:line          set breakpoint to some position";
    "  b[reak]                    list breakpoints";
    "  del[ete]                   delete a breakpoint";
    "  c[ont]                     run until program ends or hits a breakpoint";
    "  s[tep]                     step (into methods) one line";
    "  s[tep] o[ut]               step out of the current method";
    "  n[ext]                     go over one line, stepping over methods";
    "  w[here]                    display frames";
    "  f[rame]                    alias for where";
    "  l[ist]                     list program";
    "  up                         move to higher frame";
    "  down                       move to lower frame";
    "  v[ar] g[lobal]             show global variables";
    "  v[ar] l[ocal]              show local variables";
    "  p expression               evaluate expression and print its value";
    "  h[elp]                     print this help";
    "  <everything else>          evaluate" ].

Definition PrintHelp : M state unit :=
  emit (Write (nl ++ String.concat EmptyString
                       (map (fun l => l ++ nl) help_lines))).

Definition WriteText (message : string) : M state unit :=
  emit (Write (nl ++ message ++ nl)).

Definition breakpoint_line (bp : BreakPoint.t) : string :=
  "  " ++ Conv.dec (BreakPoint.index bp) ++ " " ++ BreakPoint.file bp
  ++ ":" ++ Conv.dec (BreakPoint.line bp) ++ nl.

Definition WriteBreakPoint (bp : BreakPoint.t) : M state unit :=
  emit (Write (breakpoint_line bp)).

Definition WriteBreakPoints (bps : list BreakPoint.t) : M state unit :=
  match bps with
  | [] => WriteText "No breakpoints"
  | _ => WriteText "Breakpoints:" ;; for_each bps WriteBreakPoint
  end.

Definition WriteVariables (var_vec : list Var.t) : M state unit :=
  emit (Write nl) ;;
  for_each var_vec
    (fun v => emit (Write ("  " ++ Var.name v ++ " => " ++ Var.value v ++ nl))).

Definition prompt (running : bool) : string :=
  nl ++ "sudb (" ++ (if running then "running" else "stopped") ++ "): ".

(** [server_will_continue_ || !server_->IsStopped()]: the engine is asked
    only when the flag is down. *)
Definition WritePrompt : M state unit :=
  st <- get ;;
  running <- (if server_will_continue_ st then ret true
              else stopped <- query CIsStopped (IDebugServer.IsStopped server_) ;;
                   ret (negb stopped)) ;;
  emit (Write (prompt running)).

Fixpoint frame_lines (active_frame_index i : N) (frames : list StackFrame.t)
    : list string :=
  match frames with
  | [] => []
  | f :: rest =>
      ((if N.eqb i active_frame_index then "--> " else "    ")
       ++ "#" ++ Conv.dec (i + 1) ++ " " ++ StackFrame.name f ++ nl)
      :: frame_lines active_frame_index (i + 1)%N rest
  end.

Definition WriteFrames : M state unit :=
  frames <- query CGetStackFrames (IDebugServer.GetStackFrames server_) ;;
  active_frame_index <- query CGetActiveFrameIndex
                              (IDebugServer.GetActiveFrameIndex server_) ;;
  emit (Write nl) ;;
  for_each (frame_lines active_frame_index 0 frames)
           (fun l => emit (Write l)).

Fixpoint spaces (n : nat) : string :=
  match n with O => EmptyString | S n' => String " " (spaces n') end.

(** [std::setw(4)] in front of a number. *)
Definition setw4 (n : N) : string :=
  let d := Conv.dec n in spaces (4 - String.length d) ++ d.

Definition WriteCodeLines : M state unit :=
  code_lines <- query (CGetCodeLines 0 0)
                      (IDebugServer.GetCodeLines server_ 0%N 0%N) ;;
  current_line <- query CGetBreakLineNumber
                        (IDebugServer.GetBreakLineNumber server_) ;;
  emit (Write nl) ;;
  for_each code_lines
    (fun line_pair =>
       emit (Write ((if N.eqb (fst line_pair) current_line then "=>" else "  ")
                    ++ setw4 (fst line_pair) ++ "  " ++ snd line_pair))).

Definition WriteCurrentLine : M state unit :=
  current_line <- query CGetBreakLineNumber
                        (IDebugServer.GetBreakLineNumber server_) ;;
  code_lines <- query (CGetCodeLines current_line current_line)
                      (IDebugServer.GetCodeLines server_ current_line
                                                 current_line) ;;
  match code_lines with
  | [] => ret tt
  | line_pair :: _ =>
      emit (Write (nl ++ "Line " ++ Conv.dec (fst line_pair) ++ ": "
                   ++ snd line_pair))
  end.

(** *** EvaluateCommand *)

(** The three local flags of [EvaluateCommand]. *)
Record flags : Type := {
  is_legal_command : bool;
  signal_server_can_continue : bool;
  write_prompt : bool
}.

Definition illegal : flags :=
  {| is_legal_command := false; signal_server_can_continue := false;
     write_prompt := true |}.
Definition legal : flags :=
  {| is_legal_command := true; signal_server_can_continue := false;
     write_prompt := true |}.
Definition resuming : flags :=
  {| is_legal_command := true; signal_server_can_continue := true;
     write_prompt := true |}.
Definition deferred : flags :=
  {| is_legal_command := true; signal_server_can_continue := false;
     write_prompt := false |}.

(** A [try] block that sets [is_legal_command] at its end, with an empty
    [catch] of [bad_lexical_cast]. *)
Definition try_legal (m : M state unit) : M state flags :=
  fun st =>
    match m st with
    | (Ret _, st1, evs) => (Ret legal, st1, evs)
    | (Throw, st1, evs) => (Ret illegal, st1, evs)
    end.

(** The bodies of the branches: what they do and the flags they leave. *)
Definition exec (c : Command) (str_command : string) : M state flags :=
  match c with
  | ListBreakpoints =>
      bps <- query CGetBreakPoints (IDebugServer.GetBreakPoints server_) ;;
      WriteBreakPoints bps ;;
      ret legal
  | DeleteBreakpoint what1 =>
      try_legal
        (match Conv.lexical_cast_size_t what1 with
         | None => throw
         | Some index =>
             ok <- call (CRemoveBreakPoint index)
                        (IDebugServer.RemoveBreakPoint server_ index) ;;
             if (ok : bool) then ret tt
             else WriteText "Cannot remove breakpoint"
         end)
  | AddBreakpoint what1 what2 =>
      if Nat.eqb (what_size reg_brk) 3 then
        try_legal
          (match Conv.lexical_cast_size_t what2 with
           | None => throw
           | Some line =>
               let bp := BreakPoint.Build 0 what1 line true in
               r <- call (CAddBreakPoint bp false)
                         (IDebugServer.AddBreakPoint server_ bp false) ;;
               if fst r then
                 WriteText "Added breakpoint:" ;;
                 WriteBreakPoint (BreakPoint.Build (snd r) what1 line true)
               else WriteText "Cannot add breakpoint"
           end)
      else ret illegal
  | Continue => ret resuming
  | Step suffix =>
      (if matches suffix reg_out
       then call CStepOut (fun e => (tt, IDebugServer.StepOut server_ e))
       else call CStep (fun e => (tt, IDebugServer.Step server_ e))) ;;
      ret resuming
  | StepOver =>
      call CStepOver (fun e => (tt, IDebugServer.StepOver server_ e)) ;;
      ret resuming
  | Help => PrintHelp ;; ret legal
  | FrameUp =>
      call (CShiftActiveFrame true)
           (fun e => (tt, IDebugServer.ShiftActiveFrame server_ true e)) ;;
      WriteFrames ;; ret legal
  | FrameDown =>
      call (CShiftActiveFrame false)
           (fun e => (tt, IDebugServer.ShiftActiveFrame server_ false e)) ;;
      WriteFrames ;; ret legal
  | Where => WriteFrames ;; ret legal
  | ListSource => WriteCodeLines ;; ret legal
  | Eval suffix =>
      modify (set_expression suffix) ;;
      modify (set_need_what NEED_EVAL) ;;
      modify (set_need_server_response true) ;;
      ret deferred
  | Vars suffix =>
      (if matches suffix reg_global
       then modify (set_need_what NEED_GLOBAL_VARS)
       else if matches suffix reg_local
       then modify (set_need_what NEED_LOCAL_VARS)
       else ret tt) ;;
      st <- get ;;
      if is_nothing (need_what_from_server_ st) then ret illegal
      else modify (set_need_server_response true) ;; ret deferred
  | Other =>
      if Str.is_empty str_command then ret illegal
      else
        modify (set_expression str_command) ;;
        modify (set_need_server_response true) ;;
        ret deferred
  end.

Definition EvaluateCommand (str_command : string) : M state bool :=
  modify (set_need_server_response false) ;;
  modify (set_need_what NEED_NOTHING) ;;
  modify (set_expression EmptyString) ;;
  f <- exec (parse str_command) str_command ;;
  (if is_legal_command f then ret tt else WriteText "Illegal command") ;;
  st <- get ;;
  (if need_server_response_ st then emit Notify else ret tt) ;;
  (if signal_server_can_continue f
   then modify (set_can_continue true) ;; emit SetCanContinue ;;
        emit Notify ;; modify (set_will_continue true)
   else ret tt) ;;
  (if write_prompt f then WritePrompt else ret tt) ;;
  modify (set_will_continue false) ;;
  ret (is_legal_command f).

(** *** WaitForContinue *)

(** From the call to the first wait. *)
Definition WaitForContinue_enter : M state unit :=
  modify (set_can_continue false).

(** From a return of [wait] on: the check for a wanted response, then the
    loop test; [true] when [WaitForContinue] returns. *)
Definition WaitForContinue_wake : M state bool :=
  st <- get ;;
  (if need_server_response_ st then
     match need_what_from_server_ st with
     | NEED_EVAL =>
         eval_res <- call (CEvaluateExpression (expression_to_evaluate_ st))
                          (IDebugServer.EvaluateExpression server_
                             (expression_to_evaluate_ st)) ;;
         WriteText (Var.value eval_res)
     | NEED_GLOBAL_VARS =>
         var_vec <- query CGetGlobalVariables
                          (IDebugServer.GetGlobalVariables server_) ;;
         WriteVariables var_vec
     | NEED_LOCAL_VARS =>
         var_vec <- query CGetLocalVariables
                          (IDebugServer.GetLocalVariables server_) ;;
         WriteVariables var_vec
     | NEED_NOTHING => ret tt
     end ;;
     WritePrompt
   else ret tt) ;;
  st' <- get ;;
  ret (server_can_continue_ st').

Definition Break (bp : BreakPoint.t) : M state unit :=
  emit (Write (nl ++ "BreakPoint " ++ Conv.dec (BreakPoint.index bp)
               ++ " at " ++ BreakPoint.file bp ++ ":"
               ++ Conv.dec (BreakPoint.line bp))) ;;
  WriteCurrentLine ;; WritePrompt ;; WaitForContinue_enter.

Definition Break_at (file : string) (line : N) : M state unit :=
  emit (Write (nl ++ "Stopped at " ++ file ++ ":" ++ Conv.dec line)) ;;
  WriteCurrentLine ;; WritePrompt ;; WaitForContinue_enter.

(** *** A session: the two threads interleaved *)

Record session : Type := {
  ui : state;
  waiting : bool
}.

Inductive action : Type :=
| ReadLine (line_str : string)    (* console thread: EvaluateCommand *)
| HitBreak (bp : BreakPoint.t)    (* interpreter: Break(bp), to the wait *)
| Wake.                           (* interpreter: wait returns *)

Definition start (e : E) : session :=
  {| ui := initial e; waiting := false |}.

Definition step (a : action) (s : session) : option (session * list Event) :=
  match a with
  | ReadLine line_str =>
      match EvaluateCommand line_str (ui s) with
      | (_, st, evs) => Some ({| ui := st; waiting := waiting s |}, evs)
      end
  | HitBreak bp =>
      if waiting s then None
      else
        match Break bp (ui s) with
        | (_, st, evs) => Some ({| ui := st; waiting := true |}, evs)
        end
  | Wake =>
      if waiting s then
        match WaitForContinue_wake (ui s) with
        | (r, st, evs) =>
            Some ({| ui := st;
                     waiting := match r with Ret true => false | _ => true end |},
                  evs)
        end
      else None
  end.

Fixpoint run (acts : list action) (s : session)
    : option (session * list Event) :=
  match acts with
  | [] => Some (s, [])
  | a :: acts' =>
      match step a s with
      | None => None
      | Some (s1, evs1) =>
          match run acts' s1 with
          | None => None
          | Some (s2, evs2) => Some (s2, (evs1 ++ evs2)%list)
          end
      end
  end.

End Console.

Arguments state : clear implicits.
Arguments session : clear implicits.

End ConsoleUI.

(* ===================================================================== *)
(** ** A small engine to run the front-ends on *)
(* ===================================================================== *)

Module Sample.

(** Breakpoints are numbered from 1 in the order they are added; a
    second breakpoint at the same place is refused.  Two frames, one local
    and one global variable; an expression evaluates to its own text in
    brackets. *)
Record engine : Type := {
  bps : list BreakPoint.t;
  last_index : N;
  stopped : bool;
  active : N;
  calls : nat
}.

Definition init : engine :=
  {| bps := []; last_index := 0; stopped := true; active := 1; calls := 0 |}.

Definition bump (e : engine) : engine :=
  {| bps := bps e; last_index := last_index e; stopped := stopped e;
     active := active e; calls := S (calls e) |}.

Definition add (bp : BreakPoint.t) (_ : bool) (e : engine)
    : bool * N * engine :=
  if existsb (fun b => String.eqb (BreakPoint.file b) (BreakPoint.file bp)
                       && N.eqb (BreakPoint.line b) (BreakPoint.line bp))
             (bps e)
  then (false, 0%N, e)
  else
    let i := (last_index e + 1)%N in
    (true, i,
     {| bps := (bps e ++ [BreakPoint.Build i (BreakPoint.file bp)
                            (BreakPoint.line bp) true])%list;
        last_index := i; stopped := stopped e; active := active e;
        calls := calls e |}).

Definition remove (i : N) (e : engine) : bool * engine :=
  if existsb (fun bp => N.eqb (BreakPoint.index bp) i) (bps e)
  then (true,
        {| bps := filter (fun bp => negb (N.eqb (BreakPoint.index bp) i))
                         (bps e);
           last_index := last_index e; stopped := stopped e;
           active := active e; calls := calls e |})
  else (false, e).

Definition resume (e : engine) : engine :=
  {| bps := bps e; last_index := last_index e; stopped := stopped e;
     active := active e; calls := S (calls e) |}.

Definition set_active (i : N) (e : engine) : engine :=
  {| bps := bps e; last_index := last_index e; stopped := stopped e;
     active := i; calls := calls e |}.

Definition x_var : Var.t := Var.Build "x" "1" "Fixnum" 3 false.
Definition g_var : Var.t := Var.Build "$g" "<a & b>" "String" 255 true.

Definition server : IDebugServer.t engine :=
  {| IDebugServer.AddBreakPoint := add;
     IDebugServer.RemoveBreakPoint := remove;
     IDebugServer.GetBreakPoints := bps;
     IDebugServer.IsStopped := stopped;
     IDebugServer.Step := resume;
     IDebugServer.StepOut := resume;
     IDebugServer.StepOver := resume;
     IDebugServer.Stop := resume;
     IDebugServer.GetStackFrames := fun _ =>
       [StackFrame.Build "foo" "/x.rb" 10; StackFrame.Build "main" "/x.rb" 3];
     IDebugServer.GetActiveFrameIndex := active;
     IDebugServer.SetActiveFrameIndex := set_active;
     IDebugServer.ShiftActiveFrame := fun up e =>
       set_active (if up then active e + 1 else active e - 1)%N e;
     IDebugServer.GetLocalVariables := fun _ => [x_var];
     IDebugServer.GetGlobalVariables := fun _ => [g_var];
     IDebugServer.GetInstanceVariables := fun _ _ => [];
     IDebugServer.EvaluateExpression := fun s e =>
       (Var.Build s ("[" ++ s ++ "]") "String" 0 false, bump e);
     IDebugServer.GetBreakLineNumber := fun _ => 10%N;
     IDebugServer.GetCodeLines := fun _ _ _ => [(10%N, "puts 1")] |}.

End Sample.

(* ===================================================================== *)
(** * Notions the properties are stated with *)
(* ===================================================================== *)

(** ** Options *)

Definition is_some {A : Type} (o : option A) : bool :=
  match o with Some _ => true | None => false end.

Definition is_none {A : Type} (o : option A) : bool :=
  match o with Some _ => false | None => true end.

(** ** Reading an attribute value back *)

(** The escape of one character. *)
Definition escape_char (c : ascii) : string :=
  if Ascii.eqb c "&" then "&amp;"
  else if Ascii.eqb c Str.dquote then "&quot;"
  else if Ascii.eqb c "<" then "&lt;"
  else if Ascii.eqb c ">" then "&gt;"
  else if Ascii.eqb c "'" then "&apos;"
  else String c EmptyString.

(** What follows an ampersand in an attribute value: one of the five
    predefined entity references, with the character it stands for and the
    rest of the text. *)
Definition entity (s : string) : option (ascii * string) :=
  match s with
  | String "a" (String "m" (String "p" (String ";" r))) => Some ("&"%char, r)
  | String "q" (String "u" (String "o" (String "t" (String ";" r)))) =>
      Some (Str.dquote, r)
  | String "l" (String "t" (String ";" r)) => Some ("<"%char, r)
  | String "g" (String "t" (String ";" r)) => Some (">"%char, r)
  | String "a" (String "p" (String "o" (String "s" (String ";" r)))) =>
      Some ("'"%char, r)
  | _ => None
  end.

(** The five entity references read back: each is replaced by its
    character; a bare [<], a bare double quote or an ampersand that starts
    none of the five is an error.  This is the part of reading an
    attribute value that [encodeXml] is concerned with; what an XML
    parser does besides (white space normalised to spaces, character
    references, the check of the characters) is not part of it. *)
Fixpoint unescape (fuel : nat) (s : string) : option string :=
  match s with
  | EmptyString => Some EmptyString
  | String c s' =>
      match fuel with
      | O => None
      | S fuel' =>
          if Ascii.eqb c "&" then
            match entity s' with
            | Some (ch, r) => option_map (String ch) (unescape fuel' r)
            | None => None
            end
          else if Ascii.eqb c "<" || Ascii.eqb c Str.dquote then None
          else option_map (String c) (unescape fuel' s')
      end
  end.

Definition parse_attribute (s : string) : option string :=
  unescape (String.length s) s.

(** ** The port option *)

(** [strip p s]: [s] without its prefix [p], when it starts with it. *)
Fixpoint strip (p s : string) : option string :=
  match p with
  | EmptyString => Some s
  | String c p' =>
      match s with
      | String c' s' => if Ascii.eqb c' c then strip p' s' else None
      | EmptyString => None
      end
  end.

(** The digits of the first place in [s] where [port=] is followed by a
    digit, as far as the digits go. *)
Fixpoint find_port (s : string) : option string :=
  match
    (match strip "port=" s with
     | Some r =>
         let ds := Conv.take_while Str.is_digit r in
         if Str.is_empty ds then None else Some ds
     | None => None
     end)
  with
  | Some ds => Some ds
  | None =>
      match s with
      | EmptyString => None
      | String _ s' => find_port s'
      end
  end.

(** ** Kinds of commands *)

(** The commands that ask for the interpreter to be resumed, and the
    lines that are handed over to the interpreter thread instead of being
    carried out by the console thread. *)
Definition requests_resumption (c : ConsoleUI.Command) : bool :=
  match c with
  | ConsoleUI.Continue | ConsoleUI.Step _ | ConsoleUI.StepOver => true
  | _ => false
  end.

Definition interpreter_routed (c : ConsoleUI.Command) (line : string) : bool :=
  match c with
  | ConsoleUI.Eval _ => true
  | ConsoleUI.Vars suffix =>
      Regex.matches suffix ConsoleUI.reg_global
      || Regex.matches suffix ConsoleUI.reg_local
  | ConsoleUI.Other => negb (Str.is_empty line)
  | _ => false
  end.

(** What the console is left wanting from the interpreter thread by an
    interpreter-routed line. *)
Definition wanted (c : ConsoleUI.Command) : ConsoleUI.Need :=
  match c with
  | ConsoleUI.Eval _ => ConsoleUI.NEED_EVAL
  | ConsoleUI.Vars suffix =>
      if Regex.matches suffix ConsoleUI.reg_global
      then ConsoleUI.NEED_GLOBAL_VARS
      else if Regex.matches suffix ConsoleUI.reg_local
      then ConsoleUI.NEED_LOCAL_VARS
      else ConsoleUI.NEED_NOTHING
  | _ => ConsoleUI.NEED_NOTHING
  end.

(** The call into the engine that answers a flagged request of the
    console. *)
Definition call_for (n : ConsoleUI.Need) (expression : string)
    : option Eff.EngineCall :=
  match n with
  | ConsoleUI.NEED_NOTHING => None
  | ConsoleUI.NEED_EVAL => Some (Eff.CEvaluateExpression expression)
  | ConsoleUI.NEED_GLOBAL_VARS => Some Eff.CGetGlobalVariables
  | ConsoleUI.NEED_LOCAL_VARS => Some Eff.CGetLocalVariables
  end.

(** A console line that takes the delete or the add branch with a text
    that [lexical_cast<size_t>] refuses. *)
Definition bad_number (c : ConsoleUI.Command) : bool :=
  match c with
  | ConsoleUI.DeleteBreakpoint arg => is_none (Conv.lexical_cast_size_t arg)
  | ConsoleUI.AddBreakpoint _ line => is_none (Conv.lexical_cast_size_t line)
  | _ => false
  end.

(** The task and the kind of reply an interpreter-routed wire command
    asks for. *)
Definition routed_task (c : RDIP.Command) : option (RDIP.Task * string) :=
  match c with
  | RDIP.Eval _ => Some (RDIP.TaskEvalExpression, "watch")
  | RDIP.VarsLocal => Some (RDIP.TaskGetVariables true, "local")
  | RDIP.VarsGlobal => Some (RDIP.TaskGetVariables false, "global")
  | RDIP.VarsInstance arg =>
      Some (RDIP.TaskGetInstanceVariables (Conv.sscanf_x arg), "instance")
  | _ => None
  end.

(** ** The buffer of variables under every interleaving *)

Section BufferHistory.

Context {E : Type} (srv : IDebugServer.t E).

(** What the engine answers a task with, in the state the task runs in. *)
Definition task_result (t : RDIP.Task) (st : RDIP.state E) : list Var.t :=
  match t with
  | RDIP.TaskGetVariables true =>
      IDebugServer.GetLocalVariables srv (RDIP.engine st)
  | RDIP.TaskGetVariables false =>
      IDebugServer.GetGlobalVariables srv (RDIP.engine st)
  | RDIP.TaskGetInstanceVariables id =>
      IDebugServer.GetInstanceVariables srv id (RDIP.engine st)
  | RDIP.TaskEvalExpression =>
      if Str.is_empty (RDIP.expression_to_eval_ st) then []
      else [fst (IDebugServer.EvaluateExpression srv
                   (RDIP.expression_to_eval_ st) (RDIP.engine st))]
  end.

(** The three producers and the sender hold [variables_to_send_mutex_]
    from their first statement to their last, so with respect to the
    buffer each of them runs as a whole; whatever else the two threads
    do, in whatever order and however cut up, is a change of the state.
    A history is any sequence of the three. *)
Inductive buffer_op : Type :=
| OpTask (t : RDIP.Task)
| OpSend (kind : string)
| OpOther (f : RDIP.state E -> RDIP.state E).

(** The changes of a history that are not made by the four functions
    leave the buffer as it is. *)
Fixpoint others_keep_buffer (ops : list buffer_op) : Prop :=
  match ops with
  | [] => True
  | OpOther f :: ops' =>
      (forall st, RDIP.variables_to_send_ (f st) = RDIP.variables_to_send_ st)
      /\ others_keep_buffer ops'
  | _ :: ops' => others_keep_buffer ops'
  end.

Definition run_op (op : buffer_op) (st : RDIP.state E)
    : RDIP.state E * list Eff.Event :=
  match op with
  | OpTask t =>
      (Eff.final (RDIP.run_task srv t st), Eff.events (RDIP.run_task srv t st))
  | OpSend kind =>
      (Eff.final (RDIP.sendVariables kind st),
       Eff.events (RDIP.sendVariables kind st))
  | OpOther f => (f st, [])
  end.

Fixpoint run_history (ops : list buffer_op) (st : RDIP.state E)
    : RDIP.state E * list Eff.Event :=
  match ops with
  | [] => (st, [])
  | op :: ops' =>
      let '(st1, evs1) := run_op op st in
      let '(st2, evs2) := run_history ops' st1 in
      (st2, (evs1 ++ evs2)%list)
  end.

(** [fresh] is the result of the most recent task when one has completed
    since the last reply, and nothing otherwise. *)
Definition fresh_after (op : buffer_op) (st : RDIP.state E)
    (fresh : option (list Var.t)) : option (list Var.t) :=
  match op with
  | OpTask t => Some (task_result t st)
  | OpSend _ => None
  | OpOther _ => fresh
  end.

Definition held (fresh : option (list Var.t)) : list Var.t :=
  match fresh with Some vs => vs | None => [] end.

(** The replies a history is to write: each holds the fresh result, or no
    variable when there is none. *)
Fixpoint expected_replies (ops : list buffer_op) (st : RDIP.state E)
    (fresh : option (list Var.t)) : list Eff.Event :=
  match ops with
  | [] => []
  | op :: ops' =>
      (match op with
       | OpSend kind => [Eff.Write (RDIP.variables_xml kind (held fresh))]
       | _ => []
       end
       ++ expected_replies ops' (fst (run_op op st)) (fresh_after op st fresh))%list
  end.

Fixpoint fresh_at_end (ops : list buffer_op) (st : RDIP.state E)
    (fresh : option (list Var.t)) : option (list Var.t) :=
  match ops with
  | [] => fresh
  | op :: ops' => fresh_at_end ops' (fst (run_op op st)) (fresh_after op st fresh)
  end.

End BufferHistory.

Arguments buffer_op : clear implicits.

(** ** The patterns of the console *)

(** The patterns of [ConsoleUI::EvaluateCommand], in the order of the
    chain. *)
Inductive cpattern : Type :=
| PBrkList | PBrkDel | PBrk | PCont | PStep | PNext | PHelp | PUp | PDown
| PWhere | PFrame | PList | PEval | PVar.

(** Does the chain's test for the pattern succeed on the line? *)
Definition chits (p : cpattern) (line : string) : bool :=
  match p with
  | PBrkList => Regex.matches line ConsoleUI.reg_brk_list
  | PBrkDel => Regex.matches line ConsoleUI.reg_brk_del
  | PBrk => Regex.matches line ConsoleUI.reg_brk
  | PCont => Regex.matches line ConsoleUI.reg_cont
  | PStep => Regex.found line ConsoleUI.reg_step
  | PNext => Regex.matches line ConsoleUI.reg_next
  | PHelp => Regex.matches line ConsoleUI.reg_help
  | PUp => Regex.matches line ConsoleUI.reg_up
  | PDown => Regex.matches line ConsoleUI.reg_down
  | PWhere => Regex.matches line ConsoleUI.reg_where
  | PFrame => Regex.matches line ConsoleUI.reg_frame
  | PList => Regex.matches line ConsoleUI.reg_list
  | PEval => Regex.found line ConsoleUI.reg_eval
  | PVar => Regex.found line ConsoleUI.reg_var
  end.

(** The command a pattern builds. *)
Definition cbuilds (p : cpattern) (c : ConsoleUI.Command) : bool :=
  match p, c with
  | PBrkList, ConsoleUI.ListBreakpoints
  | PBrkDel, ConsoleUI.DeleteBreakpoint _
  | PBrk, ConsoleUI.AddBreakpoint _ _
  | PCont, ConsoleUI.Continue
  | PStep, ConsoleUI.Step _
  | PNext, ConsoleUI.StepOver
  | PHelp, ConsoleUI.Help
  | PUp, ConsoleUI.FrameUp
  | PDown, ConsoleUI.FrameDown
  | PWhere, ConsoleUI.Where
  | PFrame, ConsoleUI.Where
  | PList, ConsoleUI.ListSource
  | PEval, ConsoleUI.Eval _
  | PVar, ConsoleUI.Vars _ => true
  | _, _ => false
  end.

Definition starts_space (s : string) : bool :=
  match s with String c _ => Str.is_space c | EmptyString => false end.

(** What a line that a pattern matches looks like once the leading white
    space is gone. *)
Definition head (p : cpattern) (t : string) : bool :=
  match p with
  | PBrkList => String.eqb t "b" || String.eqb t "break"
  | PBrk =>
      match strip "b" t with
      | Some r =>
          starts_space r
          || match strip "reak" r with
             | Some r' => starts_space r'
             | None => false
             end
      | None => false
      end
  | PBrkDel => is_some (strip "del" t)
  | PCont => is_some (strip "c" t)
  | PStep => is_some (strip "s" t)
  | PNext => is_some (strip "n" t)
  | PHelp => is_some (strip "h" t)
  | PUp => is_some (strip "u" t)
  | PDown => is_some (strip "dow" t)
  | PWhere => is_some (strip "w" t)
  | PFrame => is_some (strip "f" t)
  | PList => is_some (strip "l" t)
  | PEval => is_some (strip "p" t)
  | PVar => is_some (strip "v" t)
  end.

Definition key (p : cpattern) : ascii :=
  match p with
  | PBrkList | PBrk => "b"
  | PBrkDel | PDown => "d"
  | PCont => "c"
  | PStep => "s"
  | PNext => "n"
  | PHelp => "h"
  | PUp => "u"
  | PWhere => "w"
  | PFrame => "f"
  | PList => "l"
  | PEval => "p"
  | PVar => "v"
  end%char.

(** ** The patterns of the wire, in the order of the chain *)

Inductive wpattern : Type :=
| WBrk | WBrkDel | WStart | WCont | WExit | WWhere | WThrLst | WFrame
| WStep | WFinish | WNext | WVarInspect | WVarLocal | WVarGlobal
| WVarInstance.

Definition windex (p : wpattern) : nat :=
  match p with
  | WBrk => 0 | WBrkDel => 1 | WStart => 2 | WCont => 3 | WExit => 4
  | WWhere => 5 | WThrLst => 6 | WFrame => 7 | WStep => 8 | WFinish => 9
  | WNext => 10 | WVarInspect => 11 | WVarLocal => 12 | WVarGlobal => 13
  | WVarInstance => 14
  end.

Definition whits (p : wpattern) (cmd : string) : bool :=
  match p with
  | WBrk => Regex.matches cmd RDIP.reg_brk
  | WBrkDel => Regex.matches cmd RDIP.reg_brk_del
  | WStart => Regex.matches cmd RDIP.reg_start
  | WCont => Regex.matches cmd RDIP.reg_cont
  | WExit => Regex.matches cmd RDIP.reg_exit
  | WWhere => Regex.matches cmd RDIP.reg_where
  | WThrLst => Regex.matches cmd RDIP.reg_thr_lst
  | WFrame => Regex.matches cmd RDIP.reg_frame
  | WStep => Regex.matches cmd RDIP.reg_step
  | WFinish => Regex.matches cmd RDIP.reg_finish
  | WNext => Regex.matches cmd RDIP.reg_next
  | WVarInspect => Regex.found cmd RDIP.reg_var_inspect
  | WVarLocal => Regex.matches cmd RDIP.reg_var_local
  | WVarGlobal => Regex.matches cmd RDIP.reg_var_global
  | WVarInstance => Regex.matches cmd RDIP.reg_var_instance
  end.

Definition wbuilds (p : wpattern) (c : RDIP.Command) : bool :=
  match p, c with
  | WBrk, RDIP.AddBreakpoint _ _
  | WBrkDel, RDIP.DeleteBreakpoint _
  | WStart, RDIP.Start
  | WCont, RDIP.Continue
  | WExit, RDIP.Exit
  | WWhere, RDIP.Where
  | WThrLst, RDIP.ThreadList
  | WFrame, RDIP.Frame _
  | WStep, RDIP.Step
  | WFinish, RDIP.StepOut
  | WNext, RDIP.StepOver
  | WVarInspect, RDIP.Eval _
  | WVarLocal, RDIP.VarsLocal
  | WVarGlobal, RDIP.VarsGlobal
  | WVarInstance, RDIP.VarsInstance _ => true
  | _, _ => false
  end.

(** ** Runs on the sample engine *)

Definition sample_bp : BreakPoint.t := BreakPoint.Build 1 "/x.rb" 7 true.

Definition wire_state (acts : list RDIP.action)
    : option (RDIP.session Sample.engine) :=
  option_map fst (RDIP.run Sample.server acts (RDIP.start Sample.init)).

Definition wire_events (acts : list RDIP.action) : list Eff.Event :=
  match RDIP.run Sample.server acts (RDIP.start Sample.init) with
  | Some (_, evs) => evs
  | None => []
  end.

Definition console_state (acts : list ConsoleUI.action)
    : option (ConsoleUI.session Sample.engine) :=
  option_map fst (ConsoleUI.run Sample.server acts (ConsoleUI.start Sample.init)).

Definition console_events (acts : list ConsoleUI.action) : list Eff.Event :=
  match ConsoleUI.run Sample.server acts (ConsoleUI.start Sample.init) with
  | Some (_, evs) => evs
  | None => []
  end.

Definition is_call (c : Eff.EngineCall) (e : Eff.Event) : bool :=
  match e, c with
  | Eff.Call Eff.CGetLocalVariables, Eff.CGetLocalVariables => true
  | Eff.Call Eff.CGetGlobalVariables, Eff.CGetGlobalVariables => true
  | Eff.Call (Eff.CEvaluateExpression _), Eff.CEvaluateExpression _ => true
  | _, _ => false
  end.

Definition pending_local : RDIP.state Sample.engine :=
  RDIP.set_server_response (Some (RDIP.TaskGetVariables true))
    (RDIP.set_process_server_response (Some (Eff.HSendVariables "local"))
       (RDIP.initial Sample.init)).

Definition wanting_eval : ConsoleUI.state Sample.engine :=
  ConsoleUI.set_can_continue true
    (ConsoleUI.set_need_server_response true
       (ConsoleUI.set_need_what ConsoleUI.NEED_EVAL
          (ConsoleUI.initial Sample.init))).

(** ** Notions of the further properties *)

(** The characters of markup, and the five characters [encodeXml]
    replaces. *)
Definition is_markup (c : ascii) : bool :=
  Ascii.eqb c "<" || Ascii.eqb c ">" || Ascii.eqb c Str.dquote
  || Ascii.eqb c "'".

Definition is_special (c : ascii) : bool := Ascii.eqb c "&" || is_markup c.

(** The wire commands that let the interpreter go on, and those the
    dispatcher answers itself. *)
Definition resumes (c : RDIP.Command) : bool :=
  match c with
  | RDIP.Start | RDIP.Continue | RDIP.Exit
  | RDIP.Step | RDIP.StepOut | RDIP.StepOver => true
  | _ => false
  end.

Definition replies (c : RDIP.Command) : bool :=
  match c with
  | RDIP.AddBreakpoint _ _ | RDIP.DeleteBreakpoint _
  | RDIP.Where | RDIP.ThreadList => true
  | _ => false
  end.

(** The calls the front-ends leave to the interpreter thread. *)
Definition interpreter_only (c : Eff.EngineCall) : bool :=
  match c with
  | Eff.CGetLocalVariables | Eff.CGetGlobalVariables
  | Eff.CGetInstanceVariables _ | Eff.CEvaluateExpression _ => true
  | _ => false
  end.

Definition is_interpreter_call (e : Eff.Event) : bool :=
  match e with Eff.Call c => interpreter_only c | _ => false end.

(** A session of the sample engine in which the interpreter thread waits
    with the local variables asked for. *)
Definition waiting_with_task : RDIP.session Sample.engine :=
  {| RDIP.conn := pending_local; RDIP.waiting := true;
     RDIP.posted := []; RDIP.alive := true |}.


(** A request with a round of the interpreter thread between its first
    assignment and the rest: the flag to continue is down, so the wake
    runs a round of the loop and waits again. *)
Definition interleaved_request {E : Type} (srv : IDebugServer.t E)
    (t : RDIP.Task) (kind : string) : Eff.M (RDIP.state E) unit :=
  match RDIP.request_steps t kind with
  | assign_task :: rest =>
      Eff.bind assign_task (fun _ =>
      Eff.bind (RDIP.WaitForContinue_wake srv) (fun _ =>
      Eff.for_each rest (fun m => m)))
  | [] => Eff.ret tt
  end.

(** What the console thread may do on its own: write, and call the
    engine for anything but variables and evaluations. *)
Definition console_thread_event (e : Eff.Event) : bool :=
  match e with
  | Eff.Write _ => true
  | Eff.Call c => negb (interpreter_only c)
  | _ => false
  end.

Definition is_notify (e : Eff.Event) : bool :=
  match e with Eff.Notify => true | _ => false end.

(** The lines of a frame list that carry the arrow. *)
Definition is_marked (l : string) : bool := is_some (strip "--> " l).

Definition marked_writes (evs : list Eff.Event) : nat :=
  length (filter (fun e => match e with
                           | Eff.Write l => is_marked l
                           | _ => false
                           end) evs).

(** The characters [sscanf] takes for hexadecimal digits. *)
Definition is_hex (c : ascii) : bool := is_some (Conv.hex_val c).

(** The lines the console takes for commands, and the message for the
    others. *)
Definition legal_line (c : ConsoleUI.Command) (line : string) : bool :=
  match c with
  | ConsoleUI.DeleteBreakpoint arg => is_some (Conv.lexical_cast_size_t arg)
  | ConsoleUI.AddBreakpoint _ what2 => is_some (Conv.lexical_cast_size_t what2)
  | ConsoleUI.Vars suffix =>
      Regex.matches suffix ConsoleUI.reg_global
      || Regex.matches suffix ConsoleUI.reg_local
  | ConsoleUI.Other => negb (Str.is_empty line)
  | _ => true
  end.

Definition illegal_text : string :=
  ConsoleUI.nl ++ "Illegal command" ++ ConsoleUI.nl.

Definition says_illegal (e : Eff.Event) : bool :=
  match e with
  | Eff.Write w => String.eqb w illegal_text
  | _ => false
  end.

(** The wire commands whose number [lexical_cast] refuses. *)
Definition throws (c : RDIP.Command) : bool :=
  match c with
  | RDIP.DeleteBreakpoint arg | RDIP.Frame arg =>
      is_none (Conv.lexical_cast_size_t arg)
  | _ => false
  end.

(* ===================================================================== *)
(** * Properties *)
(* ===================================================================== *)

Ltac unfold_eff :=
  unfold Eff.bind, Eff.ret, Eff.emit, Eff.modify, Eff.get, Eff.throw,
         Eff.events, Eff.final, Eff.result, Eff.writes in *.

(** ** Facts on strings *)

Lemma all_chars_app : forall p s1 s2,
  Str.all_chars p (s1 ++ s2) = Str.all_chars p s1 && Str.all_chars p s2.
Proof.
  induction s1 as [|c s1 IH]; intros s2; simpl.
  - reflexivity.
  - rewrite IH. now rewrite andb_assoc.
Qed.

Lemma append_assoc : forall s1 s2 s3 : string,
  (s1 ++ s2) ++ s3 = s1 ++ (s2 ++ s3).
Proof.
  induction s1 as [|c s1 IH]; intros s2 s3; simpl.
  - reflexivity.
  - now rewrite IH.
Qed.

(** After [replace_all c to], no [c] is left when [to] holds none. *)
Lemma replace_all_removes : forall c to s,
  Str.all_chars (fun x => negb (Ascii.eqb x c)) to = true ->
  Str.all_chars (fun x => negb (Ascii.eqb x c)) (Str.replace_all c to s) = true.
Proof.
  intros c to s Hto. induction s as [|x s IH]; simpl.
  - reflexivity.
  - destruct (Ascii.eqb x c) eqn:Hx.
    + rewrite all_chars_app, Hto, IH. reflexivity.
    + simpl. rewrite Hx, IH. reflexivity.
Qed.

(** ** The wire command [exit] *)

Section WireFacts.

Context {E : Type} (srv : IDebugServer.t E).

(** C6. A command that takes the [exit] branch of the wire dispatcher
    first sets [server_can_continue_] and notifies the condition variable,
    and only then calls the engine's [Stop]; nothing else happens.  A
    waiting interpreter thread that wakes up afterwards leaves
    [WaitForContinue].  The text [exit] takes that branch. *)
Theorem wire_exit_continue_then_stop :
  RDIP.parse "exit" = RDIP.Exit /\
  forall (cmd : string) (st : RDIP.state E),
    RDIP.parse cmd = RDIP.Exit ->
    let st' := RDIP.set_engine (IDebugServer.Stop srv (RDIP.engine st))
                 (RDIP.set_can_continue true st) in
    RDIP.evaluateCommand srv cmd st
    = (Eff.Ret tt, st', [Eff.SetCanContinue; Eff.Notify; Eff.Call Eff.CStop])
    /\ RDIP.server_can_continue_ st' = true
    /\ Eff.result (RDIP.WaitForContinue_wake srv st') = Eff.Ret true.
Proof.
  split; [reflexivity|].
  intros cmd st Hp. unfold RDIP.evaluateCommand. rewrite Hp.
  repeat split.
Qed.

(** ** Adding a breakpoint over the wire *)

(** What the add-breakpoint branch of the wire dispatcher does. *)
Lemma add_breakpoint_run :
  forall (cmd what1 what2 : string) (st : RDIP.state E),
    RDIP.parse cmd = RDIP.AddBreakpoint what1 what2 ->
    let file := Str.replace_all Str.backslash "/" what1 in
    let line := Conv.size_t_of_int (Conv.atoi what2) in
    let bp := BreakPoint.Build 0 file line true in
    let r := IDebugServer.AddBreakPoint srv bp true (RDIP.engine st) in
    let reply :=
      "<breakpointAdded no=" ++ RDIP.quoted (Conv.dec (snd (fst r)))
      ++ " location=" ++ RDIP.quoted (file ++ ":" ++ Conv.dec line)
      ++ "/>" ++ RDIP.nl in
    Str.all_chars (fun c => negb (Ascii.eqb c Str.backslash)) file = true
    /\ Eff.result (RDIP.evaluateCommand srv cmd st) = Eff.Ret tt
    /\ Eff.final (RDIP.evaluateCommand srv cmd st) = RDIP.set_engine (snd r) st
    /\ Eff.events (RDIP.evaluateCommand srv cmd st)
       = Eff.Call (Eff.CAddBreakPoint bp true)
         :: (if fst (fst r)
             then [Eff.Write reply; Eff.Log reply;
                   Eff.Log ("    => Breakpoint added" ++ RDIP.nl)]
             else [Eff.Log ("Adding breakpoint failed" ++ RDIP.nl ++ ".")])
    /\ Eff.writes (Eff.events (RDIP.evaluateCommand srv cmd st))
       = if fst (fst r) then [Eff.Write reply] else [].
Proof.
  intros cmd what1 what2 st Hp file line bp r reply.
  split; [apply replace_all_removes; reflexivity|].
  unfold RDIP.evaluateCommand. rewrite Hp.
  unfold RDIP.exec. change (Nat.eqb (Regex.what_size RDIP.reg_brk) 3) with true.
  cbv iota. fold file. fold line. fold bp.
  subst reply r. unfold RDIP.call. unfold_eff.
  destruct (IDebugServer.AddBreakPoint srv bp true (RDIP.engine st))
    as [[ok idx] e'].
  destruct ok; repeat split.
Qed.

(** C8. A command that takes the add-breakpoint branch of the wire
    dispatcher hands the engine a breakpoint whose file is the captured
    file with every backslash turned into a slash (none is left).  When
    the engine accepts, exactly one element is written,
    [<breakpointAdded no="INDEX" location="FILE:LINE"/>] and a newline,
    with the index the engine assigned; when it refuses, nothing is
    written and the failure is only logged. *)
Theorem wire_add_breakpoint_reply :
  forall (cmd what1 what2 : string) (st : RDIP.state E),
    RDIP.parse cmd = RDIP.AddBreakpoint what1 what2 ->
    let file := Str.replace_all Str.backslash "/" what1 in
    let line := Conv.size_t_of_int (Conv.atoi what2) in
    let bp := BreakPoint.Build 0 file line true in
    let r := IDebugServer.AddBreakPoint srv bp true (RDIP.engine st) in
    let reply :=
      "<breakpointAdded no=" ++ RDIP.quoted (Conv.dec (snd (fst r)))
      ++ " location=" ++ RDIP.quoted (file ++ ":" ++ Conv.dec line)
      ++ "/>" ++ RDIP.nl in
    Str.all_chars (fun c => negb (Ascii.eqb c Str.backslash)) file = true
    /\ Eff.result (RDIP.evaluateCommand srv cmd st) = Eff.Ret tt
    /\ Eff.final (RDIP.evaluateCommand srv cmd st) = RDIP.set_engine (snd r) st
    /\ Eff.events (RDIP.evaluateCommand srv cmd st)
       = Eff.Call (Eff.CAddBreakPoint bp true)
         :: (if fst (fst r)
             then [Eff.Write reply; Eff.Log reply;
                   Eff.Log ("    => Breakpoint added" ++ RDIP.nl)]
             else [Eff.Log ("Adding breakpoint failed" ++ RDIP.nl ++ ".")])
    /\ Eff.writes (Eff.events (RDIP.evaluateCommand srv cmd st))
       = if fst (fst r) then [Eff.Write reply] else [].
Proof.
  exact add_breakpoint_run.
Qed.

End WireFacts.

Lemma wire_exit_continue_then_stop_witness :
  RDIP.parse "exit" = RDIP.Exit
  /\ RDIP.evaluateCommand Sample.server "exit" (RDIP.initial Sample.init)
     = (Eff.Ret tt,
        RDIP.set_engine (Sample.resume Sample.init)
          (RDIP.set_can_continue true (RDIP.initial Sample.init)),
        [Eff.SetCanContinue; Eff.Notify; Eff.Call Eff.CStop]).
Proof.
  split; [reflexivity|].
  apply (proj1 (proj2 (wire_exit_continue_then_stop Sample.server)
                  "exit" (RDIP.initial Sample.init) eq_refl)).
Defined.

Lemma wire_add_breakpoint_reply_witness :
  RDIP.parse "b C:\a\b.rb:42" = RDIP.AddBreakpoint "C:\a\b.rb" "42"
  /\ Eff.writes (Eff.events (RDIP.evaluateCommand Sample.server
                               "b C:\a\b.rb:42" (RDIP.initial Sample.init)))
     = [Eff.Write ("<breakpointAdded no=" ++ RDIP.quoted "1" ++ " location="
                   ++ RDIP.quoted "C:/a/b.rb:42" ++ "/>" ++ RDIP.nl)].
Proof.
  split; [reflexivity|].
  apply (proj2 (proj2 (proj2 (proj2
           (wire_add_breakpoint_reply Sample.server "b C:\a\b.rb:42"
              "C:\a\b.rb" "42" (RDIP.initial Sample.init) eq_refl))))).
Defined.

(** ** The console prompt *)

Section ConsoleFacts.

Context {E : Type} (srv : IDebugServer.t E).

Lemma for_each_ret : forall (A : Type) (xs : list A)
    (body : A -> Eff.M (ConsoleUI.state E) unit),
  (forall x st, exists evs, body x st = (Eff.Ret tt, st, evs)) ->
  forall st, exists evs, Eff.for_each xs body st = (Eff.Ret tt, st, evs).
Proof.
  intros A xs body Hb. induction xs as [|x xs IH]; intros st; simpl.
  - eexists. reflexivity.
  - unfold Eff.bind. destruct (Hb x st) as [e1 ->].
    destruct (IH st) as [e2 ->]. eexists. reflexivity.
Qed.

Lemma WriteFrames_ret : forall st,
  exists evs, ConsoleUI.WriteFrames srv st = (Eff.Ret tt, st, evs).
Proof.
  intros st. unfold ConsoleUI.WriteFrames, ConsoleUI.query. unfold_eff.
  match goal with
  | |- context [Eff.for_each ?xs ?b st] =>
      destruct (for_each_ret _ xs b (fun x s => ex_intro _ _ eq_refl) st)
        as [e ->]
  end.
  eexists. reflexivity.
Qed.

Lemma WriteCodeLines_ret : forall st,
  exists evs, ConsoleUI.WriteCodeLines srv st = (Eff.Ret tt, st, evs).
Proof.
  intros st. unfold ConsoleUI.WriteCodeLines, ConsoleUI.query. unfold_eff.
  match goal with
  | |- context [Eff.for_each ?xs ?b st] =>
      destruct (for_each_ret _ xs b (fun x s => ex_intro _ _ eq_refl) st)
        as [e ->]
  end.
  eexists. reflexivity.
Qed.

Lemma WriteBreakPoints_ret : forall bps (st : ConsoleUI.state E),
  exists evs, ConsoleUI.WriteBreakPoints bps st = (Eff.Ret tt, st, evs).
Proof.
  intros bps st. unfold ConsoleUI.WriteBreakPoints.
  destruct bps as [|b bps].
  - eexists. reflexivity.
  - unfold ConsoleUI.WriteText. unfold_eff.
    match goal with
    | |- context [Eff.for_each ?xs ?b st] =>
        destruct (for_each_ret _ xs b (fun x s => ex_intro _ _ eq_refl) st)
          as [e ->]
    end.
    eexists. reflexivity.
Qed.

(** What a branch leaves behind: no exception, flags that depend on the
    branch only, and every field but the engine and the request for the
    interpreter as it was. *)
Lemma exec_flags : forall (c : ConsoleUI.Command) (line : string)
    (st : ConsoleUI.state E),
  ConsoleUI.need_what_from_server_ st = ConsoleUI.NEED_NOTHING ->
  exists f st1 evs,
    ConsoleUI.exec srv c line st = (Eff.Ret f, st1, evs)
    /\ ConsoleUI.write_prompt f = negb (interpreter_routed c line)
    /\ ConsoleUI.signal_server_can_continue f = requests_resumption c
    /\ ConsoleUI.server_will_continue_ st1 = ConsoleUI.server_will_continue_ st
    /\ ConsoleUI.server_can_continue_ st1 = ConsoleUI.server_can_continue_ st.
Proof.
  intros c line st Hneed. destruct c; unfold ConsoleUI.exec.
  - (* ListBreakpoints *)
    unfold ConsoleUI.query. unfold_eff.
    destruct (WriteBreakPoints_ret
                (IDebugServer.GetBreakPoints srv (ConsoleUI.engine st)) st)
      as [e ->].
    do 3 eexists. repeat split.
  - (* DeleteBreakpoint *)
    unfold ConsoleUI.try_legal, ConsoleUI.call, ConsoleUI.WriteText. unfold_eff.
    destruct (Conv.lexical_cast_size_t arg) as [index|].
    + destruct (IDebugServer.RemoveBreakPoint srv index (ConsoleUI.engine st))
        as [[|] e']; do 3 eexists; repeat split.
    + do 3 eexists; repeat split.
  - (* AddBreakpoint *)
    change (Nat.eqb (Regex.what_size ConsoleUI.reg_brk) 3) with true. cbv iota.
    unfold ConsoleUI.try_legal, ConsoleUI.call, ConsoleUI.WriteText,
      ConsoleUI.WriteBreakPoint. unfold_eff.
    destruct (Conv.lexical_cast_size_t line0) as [n|].
    + destruct (IDebugServer.AddBreakPoint srv _ false (ConsoleUI.engine st))
        as [[[|] idx] e']; do 3 eexists; repeat split.
    + do 3 eexists; repeat split.
  - do 3 eexists; repeat split.
  - unfold ConsoleUI.call. unfold_eff.
    destruct (Regex.matches suffix ConsoleUI.reg_out);
      do 3 eexists; repeat split.
  - do 3 eexists; repeat split.
  - do 3 eexists; repeat split.
  - unfold ConsoleUI.call. unfold_eff.
    destruct (WriteFrames_ret
                (ConsoleUI.set_engine
                   (IDebugServer.ShiftActiveFrame srv true (ConsoleUI.engine st))
                   st)) as [e ->].
    do 3 eexists; repeat split.
  - unfold ConsoleUI.call. unfold_eff.
    destruct (WriteFrames_ret
                (ConsoleUI.set_engine
                   (IDebugServer.ShiftActiveFrame srv false (ConsoleUI.engine st))
                   st)) as [e ->].
    do 3 eexists; repeat split.
  - unfold_eff. destruct (WriteFrames_ret st) as [e ->].
    do 3 eexists; repeat split.
  - unfold_eff. destruct (WriteCodeLines_ret st) as [e ->].
    do 3 eexists; repeat split.
  - do 3 eexists; repeat split.
  - unfold_eff. unfold interpreter_routed.
    destruct (Regex.matches suffix ConsoleUI.reg_global); simpl.
    + do 3 eexists; repeat split.
    + destruct (Regex.matches suffix ConsoleUI.reg_local); simpl.
      * do 3 eexists; repeat split.
      * rewrite Hneed. simpl. do 3 eexists; repeat split.
  - unfold interpreter_routed. destruct (Str.is_empty line); simpl.
    + do 3 eexists; repeat split.
    + do 3 eexists; repeat split.
Qed.

(** The prompt after a line the console thread carries out itself, from a
    state with [server_will_continue_] down. *)
Lemma prompt_after_local_command :
  forall (line : string) (st : ConsoleUI.state E),
    ConsoleUI.server_will_continue_ st = false ->
    interpreter_routed (ConsoleUI.parse line) line = false ->
    let out := ConsoleUI.EvaluateCommand srv line st in
    let running :=
      requests_resumption (ConsoleUI.parse line)
      || negb (IDebugServer.IsStopped srv (ConsoleUI.engine (Eff.final out))) in
    (exists pre,
       Eff.events out
       = (pre ++ [Eff.Write (ConsoleUI.nl ++ "sudb ("
                             ++ (if running then "running" else "stopped")
                             ++ "): ")])%list)
    /\ (requests_resumption (ConsoleUI.parse line) = true ->
        exists pre,
          Eff.events out
          = (pre ++ [Eff.Write (ConsoleUI.nl ++ "sudb (running): ")])%list)
    /\ ConsoleUI.server_will_continue_ (Eff.final out) = false.
Proof.
  intros line st Hwill Hlocal out running.
  assert (Hout : exists r st' pre,
    out = (r, st',
           (pre ++ [Eff.Write
                      (ConsoleUI.prompt
                         (requests_resumption (ConsoleUI.parse line)
                          || negb (IDebugServer.IsStopped srv
                                     (ConsoleUI.engine st'))))])%list)
    /\ ConsoleUI.server_will_continue_ st' = false).
  { subst running out. unfold ConsoleUI.EvaluateCommand.
    unfold Eff.bind at 1. unfold Eff.modify at 1.
    unfold Eff.bind at 1. unfold Eff.modify at 1.
    unfold Eff.bind at 1. unfold Eff.modify at 1.
    unfold Eff.bind at 1.
    match goal with
    | |- context [ConsoleUI.exec srv ?c line ?s0] =>
        destruct (exec_flags c line s0 eq_refl)
          as (f & st1 & evs1 & -> & Hw & Hs & Hwc & Hcc)
    end.
    rewrite Hlocal in Hw. simpl in Hw, Hwc.
    destruct f as [lg sg wp]. simpl in Hw, Hs. subst wp. rewrite <- Hs.
    unfold ConsoleUI.WritePrompt, ConsoleUI.WriteText, ConsoleUI.query.
    unfold_eff. simpl.
    destruct lg, sg, (ConsoleUI.need_server_response_ st1); simpl;
      rewrite ?Hwc, ?Hwill; simpl;
      match goal with
      | |- exists r st' pre, (?r0, ?s0, (?a ++ ?t)%list) = _ /\ _ =>
          exists r0, s0, (a ++ removelast t)%list;
          split; [rewrite <- app_assoc; reflexivity | reflexivity]
      end. }
  destruct Hout as (r & st' & pre & Hout & Hfin).
  subst running. rewrite Hout. unfold Eff.final, Eff.events. simpl.
  split; [exists pre; reflexivity|]. split; [|exact Hfin].
  intros Hres. rewrite Hres. exists pre. reflexivity.
Qed.

Lemma EvaluateCommand_will_continue : forall (line : string)
    (st : ConsoleUI.state E),
  ConsoleUI.server_will_continue_
    (Eff.final (ConsoleUI.EvaluateCommand srv line st)) = false.
Proof.
  intros line st. unfold ConsoleUI.EvaluateCommand.
  unfold Eff.bind at 1. unfold Eff.modify at 1.
  unfold Eff.bind at 1. unfold Eff.modify at 1.
  unfold Eff.bind at 1. unfold Eff.modify at 1.
  unfold Eff.bind at 1.
  match goal with
  | |- context [ConsoleUI.exec srv ?c line ?s0] =>
      destruct (exec_flags c line s0 eq_refl)
        as (f & st1 & evs1 & -> & _)
  end.
  unfold ConsoleUI.WritePrompt, ConsoleUI.WriteText, ConsoleUI.query.
  unfold_eff. simpl.
  destruct f as [[|] [|] [|]]; simpl;
    destruct (ConsoleUI.need_server_response_ st1); simpl;
    try destruct (ConsoleUI.server_will_continue_ st1); reflexivity.
Qed.

Lemma WritePrompt_ret : forall st : ConsoleUI.state E,
  exists evs, ConsoleUI.WritePrompt srv st = (Eff.Ret tt, st, evs).
Proof.
  intros st. unfold ConsoleUI.WritePrompt, ConsoleUI.query. unfold_eff.
  destruct (ConsoleUI.server_will_continue_ st); eexists; reflexivity.
Qed.

Lemma WriteCurrentLine_ret : forall st : ConsoleUI.state E,
  exists evs, ConsoleUI.WriteCurrentLine srv st = (Eff.Ret tt, st, evs).
Proof.
  intros st. unfold ConsoleUI.WriteCurrentLine, ConsoleUI.query. unfold_eff.
  destruct (IDebugServer.GetCodeLines srv _ _ (ConsoleUI.engine st));
    eexists; reflexivity.
Qed.

Lemma Break_will_continue : forall (bp : BreakPoint.t) (st : ConsoleUI.state E),
  ConsoleUI.server_will_continue_ (Eff.final (ConsoleUI.Break srv bp st))
  = ConsoleUI.server_will_continue_ st.
Proof.
  intros bp st. unfold ConsoleUI.Break, ConsoleUI.WaitForContinue_enter.
  unfold Eff.bind, Eff.emit, Eff.modify.
  destruct (WriteCurrentLine_ret st) as [e1 ->].
  destruct (WritePrompt_ret st) as [e2 ->]. reflexivity.
Qed.

Lemma wake_will_continue : forall st : ConsoleUI.state E,
  ConsoleUI.server_will_continue_
    (Eff.final (ConsoleUI.WaitForContinue_wake srv st))
  = ConsoleUI.server_will_continue_ st.
Proof.
  intros st.
  unfold ConsoleUI.WaitForContinue_wake, ConsoleUI.call,
    ConsoleUI.WriteText, ConsoleUI.query, ConsoleUI.WriteVariables.
  unfold Eff.bind at 1. unfold Eff.get at 1.
  destruct (ConsoleUI.need_server_response_ st); [|reflexivity].
  destruct (ConsoleUI.need_what_from_server_ st).
  - unfold Eff.bind, Eff.ret, Eff.get.
    destruct (WritePrompt_ret st) as [e ->]. reflexivity.
  - unfold Eff.bind, Eff.ret, Eff.get, Eff.emit.
    destruct (IDebugServer.EvaluateExpression srv _ (ConsoleUI.engine st))
      as [v e'].
    destruct (WritePrompt_ret (ConsoleUI.set_engine e' st)) as [e ->].
    reflexivity.
  - unfold Eff.bind, Eff.ret, Eff.get, Eff.emit.
    match goal with
    | |- context [Eff.for_each ?xs ?b st] =>
        destruct (for_each_ret _ xs b (fun x s => ex_intro _ _ eq_refl) st)
          as [e ->]
    end.
    destruct (WritePrompt_ret st) as [e2 ->]. reflexivity.
  - unfold Eff.bind, Eff.ret, Eff.get, Eff.emit.
    match goal with
    | |- context [Eff.for_each ?xs ?b st] =>
        destruct (for_each_ret _ xs b (fun x s => ex_intro _ _ eq_refl) st)
          as [e ->]
    end.
    destruct (WritePrompt_ret st) as [e2 ->]. reflexivity.
Qed.

(** In a session [server_will_continue_] is down between two commands. *)
Lemma run_will_continue : forall (acts : list ConsoleUI.action)
    (s s' : ConsoleUI.session E) (evs : list Eff.Event),
  ConsoleUI.server_will_continue_ (ConsoleUI.ui s) = false ->
  ConsoleUI.run srv acts s = Some (s', evs) ->
  ConsoleUI.server_will_continue_ (ConsoleUI.ui s') = false.
Proof.
  induction acts as [|a acts IH]; intros s s' evs Hs Hrun; simpl in Hrun.
  - now injection Hrun as <- _.
  - destruct (ConsoleUI.step srv a s) as [[s1 evs1]|] eqn:Hstep;
      [|discriminate Hrun].
    destruct (ConsoleUI.run srv acts s1) as [[s2 evs2]|] eqn:Hrest;
      [|discriminate Hrun].
    injection Hrun as <- _. apply (IH s1 s2 evs2); [|exact Hrest].
    destruct a as [line|bp|]; simpl in Hstep.
    + pose proof (EvaluateCommand_will_continue line (ConsoleUI.ui s)) as Hw.
      destruct (ConsoleUI.EvaluateCommand srv line (ConsoleUI.ui s))
        as [[r st1] ev]. injection Hstep as <- _. exact Hw.
    + destruct (ConsoleUI.waiting s); [discriminate Hstep|].
      pose proof (Break_will_continue bp (ConsoleUI.ui s)) as Hw.
      destruct (ConsoleUI.Break srv bp (ConsoleUI.ui s)) as [[r st1] ev].
      injection Hstep as <- _. simpl. unfold Eff.final in Hw. simpl in Hw.
      now rewrite Hw.
    + destruct (ConsoleUI.waiting s); [|discriminate Hstep].
      pose proof (wake_will_continue (ConsoleUI.ui s)) as Hw.
      destruct (ConsoleUI.WaitForContinue_wake srv (ConsoleUI.ui s))
        as [[r st1] ev].
      injection Hstep as <- _. simpl. unfold Eff.final in Hw. simpl in Hw.
      now rewrite Hw.
Qed.

(** C7. After a line the console thread carries out itself (one that is
    not handed to the interpreter thread), the last thing
    [EvaluateCommand] writes is the prompt [sudb (STATE): ] on a new
    line, where STATE is [running] exactly when the line asked for
    resumption (continue, step, step out, step over) or the engine is not
    stopped, and [stopped] otherwise; so after a resumption command the
    prompt reads [running] whatever [IsStopped] says. *)
Theorem console_prompt_after_local_command :
  forall (acts : list ConsoleUI.action) (e : E) (s : ConsoleUI.session E)
         (evs : list Eff.Event) (line : string),
    ConsoleUI.run srv acts (ConsoleUI.start e) = Some (s, evs) ->
    interpreter_routed (ConsoleUI.parse line) line = false ->
    let out := ConsoleUI.EvaluateCommand srv line (ConsoleUI.ui s) in
    let running :=
      requests_resumption (ConsoleUI.parse line)
      || negb (IDebugServer.IsStopped srv (ConsoleUI.engine (Eff.final out))) in
    (exists pre,
       Eff.events out
       = (pre ++ [Eff.Write (ConsoleUI.nl ++ "sudb ("
                             ++ (if running then "running" else "stopped")
                             ++ "): ")])%list)
    /\ (requests_resumption (ConsoleUI.parse line) = true ->
        exists pre,
          Eff.events out
          = (pre ++ [Eff.Write (ConsoleUI.nl ++ "sudb (running): ")])%list).
Proof.
  intros acts e s evs line Hrun Hlocal out running.
  assert (Hw : ConsoleUI.server_will_continue_ (ConsoleUI.ui s) = false)
    by (apply (run_will_continue acts (ConsoleUI.start e) s evs eq_refl Hrun)).
  destruct (prompt_after_local_command line (ConsoleUI.ui s) Hw Hlocal)
    as (H1 & H2 & _).
  split; [exact H1|exact H2].
Qed.

End ConsoleFacts.

Lemma console_prompt_after_local_command_witness :
  option_map (fun s => ConsoleUI.waiting s)
    (console_state [ConsoleUI.HitBreak sample_bp]) = Some true
  /\ interpreter_routed (ConsoleUI.parse "c") "c" = false
  /\ IDebugServer.IsStopped Sample.server Sample.init = true
  /\ exists pre,
       Eff.events (ConsoleUI.EvaluateCommand Sample.server "c"
                     (ConsoleUI.set_can_continue false
                        (ConsoleUI.initial Sample.init)))
       = (pre ++ [Eff.Write (ConsoleUI.nl ++ "sudb (running): ")])%list.
Proof.
  split; [reflexivity|]. split; [reflexivity|]. split; [reflexivity|].
  apply (proj2 (console_prompt_after_local_command Sample.server
                  [ConsoleUI.HitBreak sample_bp] Sample.init
                  {| ConsoleUI.ui := ConsoleUI.set_can_continue false
                                       (ConsoleUI.initial Sample.init);
                     ConsoleUI.waiting := true |}
                  (console_events [ConsoleUI.HitBreak sample_bp]) "c"
                  eq_refl eq_refl) eq_refl).
Defined.

(** ** XML escaping *)

Lemma replace_all_app : forall c to s1 s2,
  Str.replace_all c to (s1 ++ s2)
  = Str.replace_all c to s1 ++ Str.replace_all c to s2.
Proof.
  induction s1 as [|x s1 IH]; intros s2; simpl.
  - reflexivity.
  - rewrite IH. destruct (Ascii.eqb x c).
    + symmetry. apply append_assoc.
    + reflexivity.
Qed.

(** [encodeXml] escapes each character of its argument once: the five
    passes, the ampersand's first, add up to one pass of [escape_char]. *)
Lemma encodeXml_cons : forall c s,
  RDIP.encodeXml (String c s) = escape_char c ++ RDIP.encodeXml s.
Proof.
  intros c s. unfold RDIP.encodeXml, escape_char.
  change (Str.replace_all "&" "&amp;" (String c s))
    with (if Ascii.eqb c "&"
          then "&amp;" ++ Str.replace_all "&" "&amp;" s
          else String c (Str.replace_all "&" "&amp;" s)).
  destruct (Ascii.eqb_spec c "&") as [->|Hamp].
  - rewrite !replace_all_app. reflexivity.
  - change (String c (Str.replace_all "&" "&amp;" s))
      with (String c "" ++ Str.replace_all "&" "&amp;" s).
    rewrite !replace_all_app. f_equal.
    simpl.
    destruct (Ascii.eqb_spec c Str.dquote) as [->|Hq]; [reflexivity|].
    simpl.
    destruct (Ascii.eqb_spec c "<") as [->|Hlt]; [reflexivity|].
    simpl.
    destruct (Ascii.eqb_spec c ">") as [->|Hgt]; [reflexivity|].
    simpl.
    destruct (Ascii.eqb_spec c "'") as [->|Hap]; reflexivity.
Qed.

Lemma encodeXml_nil : RDIP.encodeXml "" = "".
Proof. reflexivity. Qed.

Lemma unescape_encodeXml : forall s fuel,
  String.length (RDIP.encodeXml s) <= fuel ->
  unescape fuel (RDIP.encodeXml s) = Some s.
Proof.
  induction s as [|c s IH]; intros fuel Hf.
  - rewrite encodeXml_nil. destruct fuel; reflexivity.
  - rewrite encodeXml_cons in *. unfold escape_char in *.
    destruct (Ascii.eqb_spec c "&") as [->|Hamp];
    [|destruct (Ascii.eqb_spec c Str.dquote) as [->|Hq];
      [|destruct (Ascii.eqb_spec c "<") as [->|Hlt];
        [|destruct (Ascii.eqb_spec c ">") as [->|Hgt];
          [|destruct (Ascii.eqb_spec c "'") as [->|Hap]]]]];
    simpl in Hf; (destruct fuel as [|fuel]; [inversion Hf|]); simpl.
    1-5: rewrite IH by lia; reflexivity.
    apply Ascii.eqb_neq in Hamp, Hq, Hlt. rewrite Hamp, Hlt, Hq. simpl.
    rewrite IH by lia. reflexivity.
Qed.

(** X1. [encodeXml] loses nothing: replacing the five entities in what it
    makes of a text by their characters gives the text back, for every
    text.  (A left inverse on the five entities; what an XML parser does
    to white space in an attribute value is another matter.) *)
Theorem encodeXml_roundtrip : forall s : string,
  parse_attribute (RDIP.encodeXml s) = Some s.
Proof.
  intros s. apply unescape_encodeXml. apply Nat.le_refl.
Qed.

(** C3. [encodeXml] is right ([encodeXml_roundtrip]), but not every
    attribute passes through it.  A breakpoint hit in a file whose path
    holds an ampersand is announced with the path as it is, which does
    not read back as an attribute value, whereas the sibling [suspendAt]
    escapes the same path; likewise the [type] of a variable is written
    raw next to the escaped [name] and [value]. *)
Theorem wire_attributes_left_unescaped :
  let path := "C:/R&D/a.rb" in
  let bp := BreakPoint.Build 1 path 7 true in
  let var := Var.Build "o" "<1>" "#<Class:0x1>" 26 false in
  (forall (E : Type) (st : RDIP.state E),
     Eff.writes (Eff.events (RDIP.stopAtBreakpoint bp st))
     = [Eff.Write ("<breakpoint file=" ++ RDIP.quoted path
                   ++ " line=" ++ RDIP.quoted "7"
                   ++ " threadId=" ++ RDIP.quoted "1" ++ "/>" ++ RDIP.nl)])
  /\ parse_attribute path = None
  /\ (forall (E : Type) (st : RDIP.state E),
        Eff.writes (Eff.events (RDIP.suspendAt path 7 st))
        = [Eff.Write ("<suspended file=" ++ RDIP.quoted "C:/R&amp;D/a.rb"
                      ++ " line=" ++ RDIP.quoted "7"
                      ++ " threadId=" ++ RDIP.quoted "1"
                      ++ " frames=" ++ RDIP.quoted "1" ++ "/>" ++ RDIP.nl)])
  /\ parse_attribute "C:/R&amp;D/a.rb" = Some path
  /\ RDIP.variable_xml "local" var
     = "<variable name=" ++ RDIP.quoted "o"
       ++ " kind=" ++ RDIP.quoted "local"
       ++ " value=" ++ RDIP.quoted "&lt;1&gt;"
       ++ " type=" ++ RDIP.quoted "#<Class:0x1>"
       ++ " hasChildren=" ++ RDIP.quoted "false"
       ++ " objectId=" ++ RDIP.quoted "1a" ++ "/>" ++ RDIP.nl
  /\ parse_attribute (Var.type var) = None.
Proof.
  cbv zeta. repeat split.
Qed.

(** ** The port option *)

Lemma rmatch_lit : forall (A : Type) (l : string) pos s cs (k : Regex.cont A),
  Regex.rmatch (Regex.lit l) pos s cs k
  = match strip l s with
    | Some r => k (pos + String.length l) r cs
    | None => None
    end.
Proof.
  induction l as [|c l IH]; intros pos s cs k; simpl.
  - now rewrite Nat.add_0_r.
  - destruct s as [|c' s]; [reflexivity|].
    destruct (Ascii.eqb c' c); [|reflexivity].
    rewrite IH. now rewrite Nat.add_succ_r.
Qed.

Lemma star_loop_S : forall (A : Type) m (k : Regex.cont A) fuel pos s cs,
  Regex.star_loop m k (S fuel) pos s cs
  = match m pos s cs
            (fun pos' s' cs' =>
               if (String.length s' <? String.length s)%nat
               then Regex.star_loop m k fuel pos' s' cs' else None) with
    | Some a => Some a
    | None => k pos s cs
    end.
Proof. reflexivity. Qed.

Lemma rmatch_cls : forall (A : Type) p pos s cs (k : Regex.cont A),
  Regex.rmatch (Regex.Cls p) pos s cs k
  = match s with
    | String c s' => if p c then k (S pos) s' cs else None
    | EmptyString => None
    end.
Proof. reflexivity. Qed.

(** A greedy class loop in front of a continuation that cannot fail
    takes the longest run. *)
Lemma star_loop_cls_total : forall (A : Type) (p : ascii -> bool)
    (k : Regex.cont A),
  (forall pos s cs, k pos s cs <> None) ->
  forall fuel pos s cs,
    String.length s <= fuel ->
    Regex.star_loop (Regex.rmatch (Regex.Cls p)) k fuel pos s cs
    = k (pos + String.length (Conv.take_while p s)) (Str.drop_while p s) cs.
Proof.
  intros A p k Hk. induction fuel as [|fuel IH]; intros pos s cs Hf.
  - destruct s; [simpl; now rewrite Nat.add_0_r|inversion Hf].
  - rewrite star_loop_S, rmatch_cls. destruct s as [|c s].
    + simpl. now rewrite Nat.add_0_r.
    + simpl Conv.take_while. simpl Str.drop_while.
      destruct (p c) eqn:Hp.
      * replace (String.length s <? String.length (String c s))%nat with true
          by (symmetry; apply Nat.ltb_lt; simpl; lia).
        simpl in Hf. rewrite IH by lia.
        simpl String.length. rewrite Nat.add_succ_r. simpl.
        destruct (k (S (pos + String.length (Conv.take_while p s)))
                    (Str.drop_while p s) cs) eqn:Hres; [reflexivity|].
        exfalso. eapply Hk. exact Hres.
      * simpl. now rewrite Nat.add_0_r.
Qed.

Lemma substring_take_while : forall p s,
  substring 0 (String.length (Conv.take_while p s)) s = Conv.take_while p s.
Proof.
  induction s as [|c s IH]; simpl.
  - reflexivity.
  - destruct (p c); simpl; [now rewrite IH|reflexivity].
Qed.

(** One attempt of [reg_port] at a given place. *)
Lemma rmatch_reg_port : forall pos s,
  Regex.rmatch RDIP.reg_port pos s [] (fun _ s' cs => Some (cs, s'))
  = match strip "port=" s with
    | Some r =>
        let ds := Conv.take_while Str.is_digit r in
        if Str.is_empty ds then None
        else Some ([(1, ds)], Str.drop_while Str.is_digit r)
    | None => None
    end.
Proof.
  intros pos s. unfold RDIP.reg_port.
  change (Regex.rmatch (Regex.lit "port=" ++ Regex.Grp 1 (Regex.Plus Regex.digit))%re
            pos s [] (fun _ s' cs => Some (cs, s')))
    with (Regex.rmatch (Regex.lit "port=") pos s []
            (fun pos' s' cs' =>
               Regex.rmatch (Regex.Grp 1 (Regex.Plus Regex.digit)) pos' s' cs'
                 (fun _ s'' cs'' => Some (cs'', s'')))).
  rewrite rmatch_lit. destruct (strip "port=" s) as [r|]; [|reflexivity].
  destruct r as [|c r]; [reflexivity|].
  simpl. destruct (Str.is_digit c) eqn:Hd; [|reflexivity].
  simpl.
  rewrite (star_loop_cls_total _ Str.is_digit
             (fun pos' s' cs' =>
                Some ((1, substring 0 (pos' - (pos + 5)) (String c r)) :: cs', s')))
    by (discriminate || apply Nat.le_refl).
  cbv beta.
  replace (S (pos + 5) + String.length (Conv.take_while Str.is_digit r)
           - (pos + 5))
    with (S (String.length (Conv.take_while Str.is_digit r))) by lia.
  simpl. rewrite substring_take_while. reflexivity.
Qed.

(** [regex_search] with [reg_port] finds what [find_port] finds. *)
Lemma search_reg_port : forall s pos,
  option_map (fun r => Regex.sub 1 (fst r)) (Regex.search_from RDIP.reg_port pos s)
  = find_port s.
Proof.
  induction s as [|c s IH]; intros pos.
  - reflexivity.
  - unfold Regex.search_from; fold Regex.search_from.
    rewrite rmatch_reg_port.
    unfold find_port; fold find_port.
    destruct (strip "port=" (String c s)) as [r|].
    + cbv zeta.
      destruct (Str.is_empty (Conv.take_while Str.is_digit r)).
      * apply IH.
      * reflexivity.
    + apply IH.
Qed.

Lemma take_while_all : forall p s,
  Str.all_chars p (Conv.take_while p s) = true.
Proof.
  induction s as [|c s IH]; simpl; [reflexivity|].
  destruct (p c) eqn:Hp; simpl; [now rewrite Hp|reflexivity].
Qed.

Lemma find_port_digits : forall s ds,
  find_port s = Some ds -> Conv.all_digits ds = true.
Proof.
  induction s as [|c s IH]; intros ds H.
  - discriminate H.
  - unfold find_port in H; fold find_port in H.
    destruct (strip "port=" (String c s)) as [r|]; [|now apply IH].
    cbv zeta in H.
    destruct (Str.is_empty (Conv.take_while Str.is_digit r)) eqn:He;
      [now apply IH|].
    injection H as <-. unfold Conv.all_digits.
    now rewrite He, take_while_all.
Qed.

Lemma split_sign_digits : forall ds,
  Conv.all_digits ds = true -> Conv.split_sign ds = (false, ds).
Proof.
  intros [|c ds] H; [discriminate H|].
  unfold Conv.all_digits in H. simpl in H.
  destruct (Str.is_digit c) eqn:Hd; [|discriminate H].
  unfold Conv.split_sign.
  destruct (Ascii.eqb_spec c "-") as [->|Hm]; [discriminate Hd|].
  destruct (Ascii.eqb_spec c "+") as [->|Hp]; [discriminate Hd|].
  destruct c as [[] [] [] [] [] [] [] []]; try reflexivity;
    exfalso; (apply Hm; reflexivity) || (apply Hp; reflexivity).
Qed.

Lemma lexical_cast_int_digits : forall ds,
  Conv.all_digits ds = true ->
  Conv.lexical_cast_int ds
  = let n := Z.of_N (Conv.digits_val 0 ds) in
    if (n <=? 2147483647)%Z then Some n else None.
Proof.
  intros ds H. unfold Conv.lexical_cast_int.
  rewrite (split_sign_digits ds H), H. cbv zeta.
  replace (Conv.int_min <=? Z.of_N (Conv.digits_val 0 ds))%Z with true.
  - reflexivity.
  - symmetry. apply Z.leb_le. unfold Conv.int_min. lia.
Qed.

(** C9 (amended). When the configuration string holds no [port=]
    followed by a digit, the port is 1234.  Otherwise, with [n] the value
    of the digits that follow the first such [port=], the port handed on
    is [n] when [n] fits an [int]; for a larger [n] the conversion throws
    and no port results.  Nothing else in the string matters.  The socket
    is bound to [n] itself when [n] is below 65536. *)
Theorem initialize_port :
  (forall str_debugger : string,
     RDIP.Initialize str_debugger
     = match find_port str_debugger with
       | None => Eff.Ret 1234%Z
       | Some ds =>
           let n := Z.of_N (Conv.digits_val 0 ds) in
           if (n <=? 2147483647)%Z then Eff.Ret n else Eff.Throw
       end)
  /\ (forall n : Z, (0 <= n < 65536)%Z -> RDIP.endpoint_port n = n).
Proof.
  split.
  - intros s. unfold RDIP.Initialize, Regex.regex_search.
    pose proof (search_reg_port s 0) as Hs.
    destruct (Regex.search_from RDIP.reg_port 0 s) as [[what suffix]|];
      simpl in Hs; rewrite <- Hs; [|reflexivity].
    rewrite lexical_cast_int_digits
      by (apply (find_port_digits s); now rewrite <- Hs).
    cbv zeta.
    destruct (Z.of_N (Conv.digits_val 0 (Regex.sub 1 what)) <=? 2147483647)%Z;
      reflexivity.
  - intros n Hn. unfold RDIP.endpoint_port. apply Z.mod_small. lia.
Qed.

(** C9, as stated, fails: a number too large for an [int] after [port=]
    gives no port at all. *)
Lemma initialize_port_overflow :
  find_port "port=99999999999" = Some "99999999999"
  /\ RDIP.Initialize "port=99999999999" = Eff.Throw
  /\ RDIP.Initialize "port=99999999999" <> Eff.Ret 99999999999%Z.
Proof.
  repeat split. discriminate.
Qed.

Lemma initialize_port_witness :
  RDIP.Initialize "--debug port=7000 x" = Eff.Ret 7000%Z
  /\ RDIP.endpoint_port 7000 = 7000%Z.
Proof.
  split.
  - exact (proj1 initialize_port "--debug port=7000 x").
  - apply (proj2 initialize_port 7000%Z). lia.
Defined.

(** ** Interpreter tasks on the wire *)

Section Rendezvous.

Context {E : Type} (srv : IDebugServer.t E).

(** C1 (amended). There is one slot for the task the interpreter thread
    is to run, so at most one task is pending; but an interpreter-routed
    command is never refused.  On the wire it puts its task and its
    follow-up in the slot, whatever was there, and notifies, with nothing
    written or logged.  On the console it is a legal command: it flags
    the response it wants in place of any earlier one and notifies, and
    [Illegal command] is not printed. *)
Theorem interpreter_command_overwrites_pending :
  (forall (cmd : string) (st : RDIP.state E) (t : RDIP.Task) (kind : string),
     routed_task (RDIP.parse cmd) = Some (t, kind) ->
     let out := RDIP.evaluateCommand srv cmd st in
     Eff.result out = Eff.Ret tt
     /\ Eff.events out = [Eff.Notify]
     /\ RDIP.server_response_ (Eff.final out) = Some t
     /\ RDIP.process_server_response_ (Eff.final out)
        = Some (Eff.HSendVariables kind))
  /\ (forall (line : string) (st : ConsoleUI.state E),
        interpreter_routed (ConsoleUI.parse line) line = true ->
        let out := ConsoleUI.EvaluateCommand srv line st in
        Eff.result out = Eff.Ret true
        /\ Eff.events out = [Eff.Notify]
        /\ ConsoleUI.need_server_response_ (Eff.final out) = true
        /\ ConsoleUI.need_what_from_server_ (Eff.final out)
           = wanted (ConsoleUI.parse line)).
Proof.
  split.
  - intros cmd st t kind H out. subst out. unfold RDIP.evaluateCommand.
    destruct (RDIP.parse cmd); simpl in H; try discriminate H;
      injection H as <- <-; repeat split.
  - intros line st H out. subst out. unfold ConsoleUI.EvaluateCommand.
    destruct (ConsoleUI.parse line); simpl in H; try discriminate H.
    + repeat split.
    + unfold ConsoleUI.exec, wanted. unfold_eff. simpl.
      destruct (Regex.matches suffix ConsoleUI.reg_global); simpl.
      * repeat split.
      * simpl in H. rewrite H. simpl. repeat split.
    + unfold ConsoleUI.exec. destruct (Str.is_empty line); [discriminate H|].
      repeat split.
Qed.

Lemma run_task_ret : forall (t : RDIP.Task) (st : RDIP.state E),
  exists st1 evs,
    RDIP.run_task srv t st = (Eff.Ret tt, st1, evs)
    /\ RDIP.server_can_continue_ st1 = RDIP.server_can_continue_ st
    /\ RDIP.server_response_ st1 = RDIP.server_response_ st
    /\ RDIP.process_server_response_ st1 = RDIP.process_server_response_ st
    /\ Eff.writes evs = [] /\ RDIP.posts evs = [].
Proof.
  intros t st. destruct t as [local|id|]; simpl.
  - unfold RDIP.getVariables, RDIP.query. unfold_eff.
    destruct local; do 2 eexists; repeat split.
  - unfold RDIP.getInstanceVariables, RDIP.query. unfold_eff.
    do 2 eexists; repeat split.
  - unfold RDIP.evalExpression, RDIP.call. unfold_eff. simpl.
    destruct (Str.is_empty (RDIP.expression_to_eval_ st)).
    + do 2 eexists; repeat split.
    + destruct (IDebugServer.EvaluateExpression srv _ _) as [var e'].
      do 2 eexists; repeat split.
Qed.

(** C2 (amended).  On the wire, a round of the loop runs the pending
    task once, posts the follow-up stored beside it, empties the slot and
    waits (and does nothing when the slot is empty).  There is such a round after every
    wake that finds [server_can_continue_] down, and one at the entry of
    [WaitForContinue], before the first wait, whatever the flag was.  A
    wake that finds the flag up runs no task and leaves
    [WaitForContinue], with the slot as it was; a command that lets the
    interpreter go on raises the flag and leaves the slot alone, so a
    task still pending when such a command is dispatched is not run by
    the wake that follows.  On the console, a wake carries out the wanted
    response whenever one is flagged, whatever the flag to continue says,
    and leaves the request flagged. *)
Theorem wake_runs_task_unless_continuing :
  (forall (st : RDIP.state E) (t : RDIP.Task),
     RDIP.server_can_continue_ st = false ->
     RDIP.server_response_ st = Some t ->
     RDIP.WaitForContinue_wake srv st
     = (Eff.Ret false,
        RDIP.set_server_response None (Eff.final (RDIP.run_task srv t st)),
        (Eff.events (RDIP.run_task srv t st)
         ++ match RDIP.process_server_response_ st with
            | Some h => [Eff.Post h]
            | None => []
            end)%list))
  /\ (forall st : RDIP.state E,
        RDIP.server_can_continue_ st = false ->
        RDIP.server_response_ st = None ->
        RDIP.WaitForContinue_wake srv st = (Eff.Ret false, st, []))
  /\ (forall st : RDIP.state E,
        RDIP.server_can_continue_ st = true ->
        RDIP.WaitForContinue_wake srv st
        = (Eff.Ret true, st, [Eff.Log ("Let SketchUp start" ++ RDIP.nl)]))
  /\ (forall (st : RDIP.state E) (t : RDIP.Task),
        RDIP.server_response_ st = Some t ->
        let st0 := RDIP.set_can_continue false st in
        RDIP.WaitForContinue_enter srv st
        = (Eff.Ret tt,
           RDIP.set_server_response None (Eff.final (RDIP.run_task srv t st0)),
           (Eff.events (RDIP.run_task srv t st0)
            ++ match RDIP.process_server_response_ st with
               | Some h => [Eff.Post h]
               | None => []
               end)%list))
  /\ (forall st : RDIP.state E,
        RDIP.server_response_ st = None ->
        RDIP.WaitForContinue_enter srv st
        = (Eff.Ret tt, RDIP.set_can_continue false st, []))
  /\ (forall (cmd : string) (st : RDIP.state E),
        resumes (RDIP.parse cmd) = true ->
        let st1 := Eff.final (RDIP.evaluateCommand srv cmd st) in
        RDIP.server_response_ st1 = RDIP.server_response_ st
        /\ RDIP.WaitForContinue_wake srv st1
           = (Eff.Ret true, st1, [Eff.Log ("Let SketchUp start" ++ RDIP.nl)]))
  /\ (forall (st : ConsoleUI.state E) (c : Eff.EngineCall),
        ConsoleUI.need_server_response_ st = true ->
        call_for (ConsoleUI.need_what_from_server_ st)
                 (ConsoleUI.expression_to_evaluate_ st) = Some c ->
        let out := ConsoleUI.WaitForContinue_wake srv st in
        (exists evs, Eff.events out = Eff.Call c :: evs)
        /\ Eff.result out = Eff.Ret (ConsoleUI.server_can_continue_ st)
        /\ ConsoleUI.need_server_response_ (Eff.final out) = true).
Proof.
  split; [|split; [|split; [|split; [|split; [|split]]]]].
  - intros st t Hc Ht. unfold RDIP.WaitForContinue_wake, RDIP.loop_body.
    unfold_eff. rewrite Hc. simpl. rewrite Ht.
    destruct (run_task_ret t st) as (st1 & evs & -> & _ & _ & Hp & _).
    simpl. rewrite Hp.
    destruct (RDIP.process_server_response_ st); simpl;
      rewrite ?app_nil_r; reflexivity.
  - intros st Hc Ht. unfold RDIP.WaitForContinue_wake, RDIP.loop_body.
    unfold_eff. rewrite Hc. simpl. rewrite Ht. reflexivity.
  - intros st Hc. unfold RDIP.WaitForContinue_wake. unfold_eff.
    rewrite Hc. reflexivity.
  - intros st t Ht st0. subst st0.
    unfold RDIP.WaitForContinue_enter, RDIP.loop_body.
    unfold_eff. simpl. rewrite Ht.
    destruct (run_task_ret t (RDIP.set_can_continue false st))
      as (st1 & evs & -> & _ & _ & Hp & _).
    simpl in Hp. simpl. rewrite Hp.
    destruct (RDIP.process_server_response_ st); simpl;
      rewrite ?app_nil_r; reflexivity.
  - intros st Ht. unfold RDIP.WaitForContinue_enter, RDIP.loop_body.
    unfold_eff. simpl. rewrite Ht. reflexivity.
  - intros cmd st Hr st1. subst st1. unfold RDIP.evaluateCommand.
    destruct (RDIP.parse cmd); try discriminate Hr;
      unfold RDIP.exec, RDIP.signal_continue, RDIP.call,
        RDIP.WaitForContinue_wake;
      unfold_eff; simpl; split; reflexivity.
  - intros st c Hn Hw out. subst out.
    unfold ConsoleUI.WaitForContinue_wake, ConsoleUI.call,
      ConsoleUI.WriteText, ConsoleUI.WritePrompt, ConsoleUI.query,
      ConsoleUI.WriteVariables.
    unfold_eff. rewrite Hn.
    destruct (ConsoleUI.need_what_from_server_ st); simpl in Hw;
      try discriminate Hw; injection Hw as <-.
    + destruct (IDebugServer.EvaluateExpression srv _ (ConsoleUI.engine st))
        as [v e'].
      simpl. destruct (ConsoleUI.server_will_continue_ st);
        (split; [eexists; reflexivity|split; [reflexivity|exact Hn]]).
    + match goal with
      | |- context [Eff.for_each ?xs ?b st] =>
          destruct (for_each_ret _ xs b (fun x s => ex_intro _ _ eq_refl) st)
            as [e ->]
      end.
      simpl. destruct (ConsoleUI.server_will_continue_ st);
        (split; [eexists; reflexivity|split; [reflexivity|exact Hn]]).
    + match goal with
      | |- context [Eff.for_each ?xs ?b st] =>
          destruct (for_each_ret _ xs b (fun x s => ex_intro _ _ eq_refl) st)
            as [e ->]
      end.
      simpl. destruct (ConsoleUI.server_will_continue_ st);
        (split; [eexists; reflexivity|split; [reflexivity|exact Hn]]).
Qed.

End Rendezvous.

(** C1, as stated, fails.  On the wire, with [v l] pending at a break,
    [v g] is taken without a word and replaces the pending task; one
    reply follows, for the second command.  On the console, with [p 1+1]
    pending, [v g] is a legal command, takes its place, and no
    [Illegal command] is printed. *)
Lemma pending_task_is_replaced :
  option_map (fun s => RDIP.server_response_ (RDIP.conn s))
    (wire_state [RDIP.HitBreak sample_bp; RDIP.Receive "v l"])
  = Some (Some (RDIP.TaskGetVariables true))
  /\ option_map (fun s => (RDIP.server_response_ (RDIP.conn s), RDIP.alive s))
       (wire_state [RDIP.HitBreak sample_bp; RDIP.Receive "v l";
                    RDIP.Receive "v g"])
     = Some (Some (RDIP.TaskGetVariables false), true)
  /\ Eff.writes
       (wire_events [RDIP.HitBreak sample_bp; RDIP.RunHandler;
                     RDIP.Receive "v l"; RDIP.Receive "v g"; RDIP.Wake;
                     RDIP.RunHandler])
     = [Eff.Write ("<breakpoint file=" ++ RDIP.quoted "/x.rb" ++ " line="
                   ++ RDIP.quoted "7" ++ " threadId=" ++ RDIP.quoted "1"
                   ++ "/>" ++ RDIP.nl);
        Eff.Write (RDIP.variables_xml "global" [Sample.g_var])]
  /\ option_map (fun s => ConsoleUI.need_what_from_server_ (ConsoleUI.ui s))
       (console_state [ConsoleUI.HitBreak sample_bp; ConsoleUI.ReadLine "p 1+1"])
     = Some ConsoleUI.NEED_EVAL
  /\ (let st := ConsoleUI.set_need_server_response true
                  (ConsoleUI.set_need_what ConsoleUI.NEED_EVAL
                     (ConsoleUI.set_expression "1+1"
                        (ConsoleUI.initial Sample.init))) in
      ConsoleUI.EvaluateCommand Sample.server "v g" st
      = (Eff.Ret true,
         ConsoleUI.set_need_server_response true
           (ConsoleUI.set_need_what ConsoleUI.NEED_GLOBAL_VARS
              (ConsoleUI.initial Sample.init)),
         [Eff.Notify])).
Proof.
  repeat split.
Qed.

Lemma interpreter_command_overwrites_pending_witness :
  routed_task (RDIP.parse "v g") = Some (RDIP.TaskGetVariables false, "global")
  /\ RDIP.server_response_
       (Eff.final (RDIP.evaluateCommand Sample.server "v g"
                     (RDIP.set_server_response (Some (RDIP.TaskGetVariables true))
                        (RDIP.initial Sample.init))))
     = Some (RDIP.TaskGetVariables false)
  /\ interpreter_routed (ConsoleUI.parse "p 1+1") "p 1+1" = true
  /\ Eff.events (ConsoleUI.EvaluateCommand Sample.server "p 1+1"
                   (ConsoleUI.initial Sample.init))
     = [Eff.Notify].
Proof.
  split; [reflexivity|]. split.
  - apply (proj1 (interpreter_command_overwrites_pending Sample.server)
             "v g" _ (RDIP.TaskGetVariables false) "global" eq_refl).
  - split; [reflexivity|].
    apply (proj2 (interpreter_command_overwrites_pending Sample.server)
             "p 1+1" (ConsoleUI.initial Sample.init) eq_refl).
Defined.

(** C2, as stated, fails.  On the wire, [v l] and then [c] arrive before
    the interpreter thread wakes up: it leaves [WaitForContinue] without
    having asked the engine for the local variables, and the task stays
    in its slot until the next stop, whose entry round runs it.  On the
    console, [c] and then [p 1+1] arrive before the wake: the expression
    is evaluated although the flag to continue is already up. *)
Lemma task_skipped_when_continue_comes_first :
  option_map (fun s => (RDIP.waiting s, RDIP.server_response_ (RDIP.conn s)))
    (wire_state [RDIP.HitBreak sample_bp; RDIP.Receive "v l";
                 RDIP.Receive "c"; RDIP.Wake])
  = Some (false, Some (RDIP.TaskGetVariables true))
  /\ existsb (is_call Eff.CGetLocalVariables)
       (wire_events [RDIP.HitBreak sample_bp; RDIP.Receive "v l";
                     RDIP.Receive "c"; RDIP.Wake])
     = false
  /\ existsb (is_call Eff.CGetLocalVariables)
       (wire_events [RDIP.HitBreak sample_bp; RDIP.Receive "v l";
                     RDIP.Receive "c"; RDIP.Wake; RDIP.HitBreak sample_bp])
     = true
  /\ option_map
       (fun s => ConsoleUI.server_can_continue_ (ConsoleUI.ui s))
       (console_state [ConsoleUI.HitBreak sample_bp; ConsoleUI.ReadLine "c";
                       ConsoleUI.ReadLine "p 1+1"])
     = Some true
  /\ existsb (is_call (Eff.CEvaluateExpression ""))
       (console_events [ConsoleUI.HitBreak sample_bp; ConsoleUI.ReadLine "c";
                        ConsoleUI.ReadLine "p 1+1"])
     = false
  /\ existsb (is_call (Eff.CEvaluateExpression ""))
       (console_events [ConsoleUI.HitBreak sample_bp; ConsoleUI.ReadLine "c";
                        ConsoleUI.ReadLine "p 1+1"; ConsoleUI.Wake])
     = true.
Proof.
  repeat split.
Qed.

Lemma wake_runs_task_unless_continuing_witness :
  RDIP.WaitForContinue_wake Sample.server pending_local
  = (Eff.Ret false,
     RDIP.set_server_response None
       (RDIP.set_variables_to_send [Sample.x_var] pending_local),
     [Eff.Call Eff.CGetLocalVariables; Eff.Post (Eff.HSendVariables "local")])
  /\ RDIP.WaitForContinue_wake Sample.server (RDIP.initial Sample.init)
     = (Eff.Ret false, RDIP.initial Sample.init, [])
  /\ RDIP.WaitForContinue_wake Sample.server
       (RDIP.set_can_continue true pending_local)
     = (Eff.Ret true, RDIP.set_can_continue true pending_local,
        [Eff.Log ("Let SketchUp start" ++ RDIP.nl)])
  /\ RDIP.WaitForContinue_enter Sample.server
       (RDIP.set_can_continue true pending_local)
     = (Eff.Ret tt,
        RDIP.set_server_response None
          (RDIP.set_variables_to_send [Sample.x_var] pending_local),
        [Eff.Call Eff.CGetLocalVariables; Eff.Post (Eff.HSendVariables "local")])
  /\ RDIP.WaitForContinue_enter Sample.server
       (RDIP.set_can_continue true (RDIP.initial Sample.init))
     = (Eff.Ret tt, RDIP.initial Sample.init, [])
  /\ RDIP.server_response_
       (Eff.final (RDIP.evaluateCommand Sample.server "c" pending_local))
     = Some (RDIP.TaskGetVariables true)
  /\ Eff.result (ConsoleUI.WaitForContinue_wake Sample.server wanting_eval)
     = Eff.Ret true.
Proof.
  pose proof (wake_runs_task_unless_continuing Sample.server)
    as (H1 & H2 & H3 & H5 & H6 & H7 & H4).
  split; [|split; [|split; [|split; [|split; [|split]]]]].
  - apply (H1 pending_local (RDIP.TaskGetVariables true) eq_refl eq_refl).
  - apply (H2 (RDIP.initial Sample.init) eq_refl eq_refl).
  - apply (H3 (RDIP.set_can_continue true pending_local) eq_refl).
  - apply (H5 (RDIP.set_can_continue true pending_local)
             (RDIP.TaskGetVariables true) eq_refl).
  - apply (H6 (RDIP.set_can_continue true (RDIP.initial Sample.init)) eq_refl).
  - apply (proj1 (H7 "c" pending_local eq_refl)).
  - apply (proj1 (proj2 (H4 wanting_eval (Eff.CEvaluateExpression "")
                           eq_refl eq_refl))).
Defined.

(** ** The buffer of variables on the wire *)

Section VariablesBuffer.

Context {E : Type} (srv : IDebugServer.t E).

Lemma exec_keeps_buffer : forall (c : RDIP.Command) (cmd : string)
    (st : RDIP.state E),
  RDIP.variables_to_send_ (Eff.final (RDIP.exec srv c cmd st))
  = RDIP.variables_to_send_ st
  /\ RDIP.posts (Eff.events (RDIP.exec srv c cmd st)) = [].
Proof.
  intros c cmd st.
  destruct c; unfold RDIP.exec;
    try change (Nat.eqb (Regex.what_size RDIP.reg_brk) 3) with true;
    try change (Nat.eqb (Regex.what_size RDIP.reg_brk_del) 2) with true;
    try change (Nat.eqb (Regex.what_size RDIP.reg_frame) 2) with true;
    cbv iota;
    unfold RDIP.request, RDIP.signal_continue, RDIP.call, RDIP.query;
    unfold_eff; simpl;
    try (split; reflexivity).
  - destruct (IDebugServer.AddBreakPoint srv _ true (RDIP.engine st))
      as [[[|] idx] e']; simpl; split; reflexivity.
  - destruct (Conv.lexical_cast_size_t arg) as [i|]; simpl;
      [|split; reflexivity].
    destruct (IDebugServer.RemoveBreakPoint srv i (RDIP.engine st))
      as [[|] e']; simpl; split; reflexivity.
  - destruct (Conv.lexical_cast_size_t arg) as [i|]; simpl;
      split; reflexivity.
Qed.

Lemma posts_app : forall evs1 evs2,
  RDIP.posts (evs1 ++ evs2) = (RDIP.posts evs1 ++ RDIP.posts evs2)%list.
Proof.
  induction evs1 as [|e evs1 IH]; intros evs2; simpl; [reflexivity|].
  destruct e; simpl; rewrite ?IH; reflexivity.
Qed.

Lemma for_each_keeps_buffer : forall (cmds : list string) (st : RDIP.state E),
  let out := Eff.for_each cmds
               (fun cmd => RDIP.evaluateCommand srv (Str.trim_copy cmd)) st in
  RDIP.variables_to_send_ (Eff.final out) = RDIP.variables_to_send_ st
  /\ RDIP.posts (Eff.events out) = [].
Proof.
  induction cmds as [|cmd cmds IH]; intros st out; subst out.
  - simpl. split; reflexivity.
  - simpl. unfold Eff.bind. unfold RDIP.evaluateCommand in *.
    destruct (exec_keeps_buffer (RDIP.parse (Str.trim_copy cmd))
                (Str.trim_copy cmd) st) as (Hb & Hp).
    destruct (RDIP.exec srv (RDIP.parse (Str.trim_copy cmd))
                (Str.trim_copy cmd) st) as [[r st1] evs1].
    unfold Eff.final, Eff.events in Hb, Hp. simpl in Hb, Hp.
    destruct r as [[]|].
    + specialize (IH st1). cbv zeta in IH. destruct IH as (Hb2 & Hp2).
      destruct (Eff.for_each cmds _ st1) as [[r2 st2] evs2].
      unfold Eff.final, Eff.events in *. simpl in *.
      split; [congruence|]. rewrite posts_app, Hp, Hp2. reflexivity.
    + unfold Eff.final, Eff.events. simpl. split; assumption.
Qed.

Lemma handleCommand_keeps_buffer : forall (str : string) (st : RDIP.state E),
  RDIP.variables_to_send_ (Eff.final (RDIP.handleCommand srv str st))
  = RDIP.variables_to_send_ st
  /\ RDIP.posts (Eff.events (RDIP.handleCommand srv str st)) = [].
Proof.
  intros str st. unfold RDIP.handleCommand. unfold Eff.bind, Eff.emit.
  destruct (for_each_keeps_buffer (Str.split ";" str) st) as (Hb & Hp).
  destruct (Eff.for_each _ _ st) as [[r st1] evs1].
  unfold Eff.final, Eff.events in *. simpl in *. split; assumption.
Qed.

(** A producer stores exactly what the engine answers, whatever the
    buffer held, and writes nothing. *)
Lemma run_task_stores : forall (t : RDIP.Task) (st : RDIP.state E),
  RDIP.variables_to_send_ (Eff.final (RDIP.run_task srv t st))
  = task_result srv t st
  /\ Eff.writes (Eff.events (RDIP.run_task srv t st)) = [].
Proof.
  intros t st. destruct t as [[|]|id|]; simpl;
    unfold RDIP.getVariables, RDIP.getInstanceVariables, RDIP.evalExpression,
      RDIP.query, RDIP.call, task_result;
    unfold_eff; simpl; try (split; reflexivity).
  destruct (Str.is_empty (RDIP.expression_to_eval_ st)); simpl;
    [split; reflexivity|].
  destruct (IDebugServer.EvaluateExpression srv _ (RDIP.engine st))
    as [var e']. simpl. split; reflexivity.
Qed.

Lemma run_history_replies : forall (ops : list (buffer_op E))
    (st : RDIP.state E) (fresh : option (list Var.t)),
  others_keep_buffer ops ->
  RDIP.variables_to_send_ st = held fresh ->
  Eff.writes (snd (run_history srv ops st))
  = expected_replies srv ops st fresh
  /\ RDIP.variables_to_send_ (fst (run_history srv ops st))
     = held (fresh_at_end srv ops st fresh).
Proof.
  induction ops as [|op ops IH]; intros st fresh Hk Hb.
  - simpl. split; [reflexivity|exact Hb].
  - cbn [run_history expected_replies fresh_at_end].
    assert (Hop : Eff.writes (snd (run_op srv op st))
                  = match op with
                    | OpSend kind =>
                        [Eff.Write (RDIP.variables_xml kind (held fresh))]
                    | _ => []
                    end
                  /\ RDIP.variables_to_send_ (fst (run_op srv op st))
                     = held (fresh_after srv op st fresh)
                  /\ others_keep_buffer ops).
    { destruct op as [t|kind|f]; simpl in Hk |- *.
      - destruct (run_task_stores t st) as [Hs Hw].
        split; [exact Hw|]. split; [exact Hs|exact Hk].
      - unfold Eff.writes, Eff.events, Eff.final. simpl. rewrite Hb.
        repeat split. exact Hk.
      - destruct Hk as [Hf Hk]. split; [reflexivity|].
        split; [now rewrite Hf|exact Hk]. }
    destruct Hop as (Hw & Hs & Hk').
    destruct (run_op srv op st) as [st1 evs1] eqn:Hrun. cbn [fst snd] in *.
    destruct (IH st1 (fresh_after srv op st fresh) Hk' Hs) as [IHw IHb].
    destruct (run_history srv ops st1) as [st2 evs2]. cbn [fst snd] in *.
    unfold Eff.writes in *. rewrite filter_app, Hw, IHw.
    split; [reflexivity|exact IHb].
Qed.

(** C10 (amended).  The producers on the interpreter thread overwrite
    the buffer of variables with what the engine returns; evaluating an
    empty expression leaves it empty and does not call the engine; the
    sender writes the buffer as one reply and clears it; the dispatcher
    does not touch the buffer.  So, however the producers, the sender and
    the rest of the code are interleaved, a reply holds exactly the
    result of the most recent completed task when a task has completed
    since the previous reply, and no variable otherwise; and the buffer
    is empty from a reply until the next task completes. *)
Theorem variables_reply_is_last_result_or_empty :
  (forall (local : bool) (st : RDIP.state E),
     RDIP.getVariables srv local st
     = (Eff.Ret tt,
        RDIP.set_variables_to_send
          (if local then IDebugServer.GetLocalVariables srv (RDIP.engine st)
           else IDebugServer.GetGlobalVariables srv (RDIP.engine st)) st,
        [Eff.Call (if local then Eff.CGetLocalVariables
                   else Eff.CGetGlobalVariables)]))
  /\ (forall (id : N) (st : RDIP.state E),
        RDIP.getInstanceVariables srv id st
        = (Eff.Ret tt,
           RDIP.set_variables_to_send
             (IDebugServer.GetInstanceVariables srv id (RDIP.engine st)) st,
           [Eff.Call (Eff.CGetInstanceVariables id)]))
  /\ (forall st : RDIP.state E,
        RDIP.expression_to_eval_ st = "" ->
        RDIP.evalExpression srv st
        = (Eff.Ret tt, RDIP.set_variables_to_send [] st, []))
  /\ (forall st : RDIP.state E,
        RDIP.expression_to_eval_ st <> "" ->
        RDIP.variables_to_send_ (Eff.final (RDIP.evalExpression srv st))
        = [fst (IDebugServer.EvaluateExpression srv
                  (RDIP.expression_to_eval_ st) (RDIP.engine st))])
  /\ (forall (kind : string) (st : RDIP.state E),
        let send_str := RDIP.variables_xml kind (RDIP.variables_to_send_ st) in
        RDIP.sendVariables kind st
        = (Eff.Ret tt, RDIP.set_variables_to_send [] st,
           [Eff.Log ("sending variables" ++ RDIP.nl); Eff.Log send_str;
            Eff.Write send_str]))
  /\ (forall (str : string) (st : RDIP.state E),
        RDIP.variables_to_send_ (Eff.final (RDIP.handleCommand srv str st))
        = RDIP.variables_to_send_ st)
  /\ (forall (ops : list (buffer_op E)) (st : RDIP.state E),
        others_keep_buffer ops ->
        RDIP.variables_to_send_ st = [] ->
        Eff.writes (snd (run_history srv ops st))
        = expected_replies srv ops st None
        /\ RDIP.variables_to_send_ (fst (run_history srv ops st))
           = held (fresh_at_end srv ops st None)).
Proof.
  split; [|split; [|split; [|split; [|split; [|split]]]]].
  - intros [|] st; reflexivity.
  - reflexivity.
  - intros st He. unfold RDIP.evalExpression. unfold_eff. simpl.
    rewrite He. reflexivity.
  - intros st He. unfold RDIP.evalExpression, RDIP.call. unfold_eff. simpl.
    destruct (RDIP.expression_to_eval_ st) as [|c x] eqn:Hx;
      [now elim He|].
    simpl.
    destruct (IDebugServer.EvaluateExpression srv _ _) as [var e'].
    reflexivity.
  - reflexivity.
  - intros str st. apply handleCommand_keeps_buffer.
  - intros ops st Hk Hb. apply run_history_replies; assumption.
Qed.

End VariablesBuffer.

(** C10, as stated, fails.  At a stop, two tasks complete before the
    first reply is sent: the first reply, of kind [local], carries the
    global variables, the result of the second task, and the second
    reply, sent when the most recent result is that of the global
    variables, carries no variable. *)
Lemma second_reply_is_empty :
  let acts := [RDIP.HitBreak sample_bp; RDIP.RunHandler;
               RDIP.Receive "v l"; RDIP.Wake;
               RDIP.Receive "v g"; RDIP.Wake; RDIP.RunHandler;
               RDIP.RunHandler] in
  filter (fun e => is_call Eff.CGetLocalVariables e
                   || is_call Eff.CGetGlobalVariables e) (wire_events acts)
  = [Eff.Call Eff.CGetLocalVariables; Eff.Call Eff.CGetGlobalVariables]
  /\ Eff.writes (wire_events acts)
     = [Eff.Write ("<breakpoint file=" ++ RDIP.quoted "/x.rb" ++ " line="
                   ++ RDIP.quoted "7" ++ " threadId=" ++ RDIP.quoted "1"
                   ++ "/>" ++ RDIP.nl);
        Eff.Write (RDIP.variables_xml "local" [Sample.g_var]);
        Eff.Write (RDIP.variables_xml "global" [])]
  /\ RDIP.variables_xml "global" []
     <> RDIP.variables_xml "global" [Sample.g_var].
Proof.
  cbv zeta. vm_compute. repeat split. discriminate.
Qed.

Lemma variables_reply_is_last_result_or_empty_witness :
  RDIP.evalExpression Sample.server (RDIP.initial Sample.init)
  = (Eff.Ret tt, RDIP.initial Sample.init, [])
  /\ RDIP.variables_to_send_
       (Eff.final (RDIP.evalExpression Sample.server
                     (RDIP.set_expression_to_eval "1+1"
                        (RDIP.initial Sample.init))))
     = [Var.Build "1+1" "[1+1]" "String" 0 false]
  /\ Eff.writes
       (snd (run_history Sample.server
               [OpTask (RDIP.TaskGetVariables true);
                OpOther (RDIP.set_can_continue true);
                OpTask (RDIP.TaskGetVariables false);
                OpSend "local"; OpSend "global"]
               (RDIP.initial Sample.init)))
     = [Eff.Write (RDIP.variables_xml "local" [Sample.g_var]);
        Eff.Write (RDIP.variables_xml "global" [])].
Proof.
  pose proof (variables_reply_is_last_result_or_empty Sample.server)
    as (_ & _ & H3 & H4 & _ & _ & H7).
  split; [|split].
  - apply (H3 (RDIP.initial Sample.init) eq_refl).
  - apply (H4 (RDIP.set_expression_to_eval "1+1" (RDIP.initial Sample.init))).
    discriminate.
  - apply (proj1 (H7 [OpTask (RDIP.TaskGetVariables true);
                      OpOther (RDIP.set_can_continue true);
                      OpTask (RDIP.TaskGetVariables false);
                      OpSend "local"; OpSend "global"]
                     (RDIP.initial Sample.init)
                     (conj (fun st => eq_refl) I) eq_refl)).
Defined.

(** ** Arguments that are not numbers *)

Section BadNumbers.

Context {E : Type} (srv : IDebugServer.t E).

(** The console dispatcher lets no exception out. *)
Lemma console_never_throws : forall (line : string) (st : ConsoleUI.state E),
  exists b, Eff.result (ConsoleUI.EvaluateCommand srv line st) = Eff.Ret b.
Proof.
  intros line st. unfold ConsoleUI.EvaluateCommand.
  unfold Eff.bind at 1. unfold Eff.modify at 1.
  unfold Eff.bind at 1. unfold Eff.modify at 1.
  unfold Eff.bind at 1. unfold Eff.modify at 1.
  unfold Eff.bind at 1.
  match goal with
  | |- context [ConsoleUI.exec srv ?c line ?s0] =>
      destruct (exec_flags srv c line s0 eq_refl)
        as (f & st1 & evs1 & -> & _)
  end.
  unfold ConsoleUI.WritePrompt, ConsoleUI.WriteText, ConsoleUI.query.
  unfold_eff. simpl.
  destruct f as [[|] [|] [|]]; simpl;
    destruct (ConsoleUI.need_server_response_ st1); simpl;
    try destruct (ConsoleUI.server_will_continue_ st1); simpl;
    eexists; reflexivity.
Qed.

(** [atoi] makes 0 of a text that has no digit where a number may
    start. *)
Lemma atoi_no_digit : forall s : string,
  Conv.take_while Str.is_digit
    (snd (Conv.split_sign (Str.drop_while Str.is_space s))) = "" ->
  Conv.size_t_of_int (Conv.atoi s) = 0%N.
Proof.
  intros s H. unfold Conv.atoi, Conv.strtol.
  destruct (Conv.split_sign (Str.drop_while Str.is_space s)) as [neg ds].
  simpl in H. rewrite H. destruct neg; reflexivity.
Qed.

(** C4.  On the wire the code does not do what the claim says.  The wire
    dispatcher converts the number of [del] and of [f] with
    [lexical_cast] outside any [try]: a number it refuses (none, or one
    too large) leaves [evaluateCommand] as an exception before anything
    is done, and leaves [handleCommand] with the rest of the buffer not
    carried out.  The console converts inside [try]: the same line is
    answered with [Illegal command] and the prompt, and the engine is
    left alone.  The wire reads the line of a breakpoint with [atoi]: a
    text without a digit is not refused, the engine is asked for a
    breakpoint on line 0; the console refuses the same line. *)
Theorem wire_bad_number_escapes_dispatcher :
  (forall (cmd arg : string) (st : RDIP.state E),
     RDIP.parse cmd = RDIP.DeleteBreakpoint arg
     \/ RDIP.parse cmd = RDIP.Frame arg ->
     Conv.lexical_cast_size_t arg = None ->
     RDIP.evaluateCommand srv cmd st = (Eff.Throw, st, []))
  /\ (forall st : RDIP.state E,
        let out := RDIP.handleCommand srv "del 99999999999999999999;w" st in
        Eff.result out = Eff.Throw /\ Eff.final out = st
        /\ Eff.events out
           = [Eff.Log (RDIP.nl ++ "Command from IDE => ");
              Eff.Log "del 99999999999999999999;w"])
  /\ (forall (line : string) (st : ConsoleUI.state E),
        ConsoleUI.server_will_continue_ st = false ->
        bad_number (ConsoleUI.parse line) = true ->
        let out := ConsoleUI.EvaluateCommand srv line st in
        Eff.result out = Eff.Ret false
        /\ ConsoleUI.engine (Eff.final out) = ConsoleUI.engine st
        /\ Eff.events out
           = [Eff.Write (ConsoleUI.nl ++ "Illegal command" ++ ConsoleUI.nl);
              Eff.Call Eff.CIsStopped;
              Eff.Write (ConsoleUI.prompt
                           (negb (IDebugServer.IsStopped srv
                                    (ConsoleUI.engine st))))])
  /\ (forall (cmd what1 what2 : string) (st : RDIP.state E),
        RDIP.parse cmd = RDIP.AddBreakpoint what1 what2 ->
        Conv.take_while Str.is_digit
          (snd (Conv.split_sign (Str.drop_while Str.is_space what2))) = "" ->
        let out := RDIP.evaluateCommand srv cmd st in
        Eff.result out = Eff.Ret tt
        /\ hd_error (Eff.events out)
           = Some (Eff.Call
                     (Eff.CAddBreakPoint
                        (BreakPoint.Build 0
                           (Str.replace_all Str.backslash "/" what1) 0 true)
                        true)))
  /\ RDIP.parse "del 99999999999999999999"
     = RDIP.DeleteBreakpoint "99999999999999999999"
  /\ RDIP.parse "f 99999999999999999999" = RDIP.Frame "99999999999999999999"
  /\ RDIP.parse "del" = RDIP.DeleteBreakpoint ""
  /\ Conv.lexical_cast_size_t "99999999999999999999" = None
  /\ Conv.lexical_cast_size_t "" = None
  /\ ConsoleUI.parse "del 99999999999999999999"
     = ConsoleUI.DeleteBreakpoint "99999999999999999999"
  /\ RDIP.parse "b a.rb:abc" = RDIP.AddBreakpoint "a.rb" "abc"
  /\ ConsoleUI.parse "b a.rb:abc" = ConsoleUI.AddBreakpoint "a.rb" "abc"
  /\ bad_number (ConsoleUI.parse "b a.rb:abc") = true.
Proof.
  split; [|split; [|split; [|split]]].
  - intros cmd arg st Hp Hn. unfold RDIP.evaluateCommand.
    destruct Hp as [-> | ->]; unfold RDIP.exec;
      try change (Nat.eqb (Regex.what_size RDIP.reg_brk_del) 2) with true;
      try change (Nat.eqb (Regex.what_size RDIP.reg_frame) 2) with true;
      cbv iota; rewrite Hn; reflexivity.
  - intros st. repeat split.
  - intros line st Hwill Hbad out. subst out.
    unfold ConsoleUI.EvaluateCommand.
    destruct (ConsoleUI.parse line) as [|arg|file ln| | | | | | | | | | |];
      try discriminate Hbad; simpl in Hbad.
    + unfold ConsoleUI.exec, ConsoleUI.try_legal, ConsoleUI.WritePrompt,
        ConsoleUI.WriteText, ConsoleUI.query.
      destruct (Conv.lexical_cast_size_t arg); [discriminate Hbad|].
      unfold_eff. simpl. rewrite Hwill. simpl. repeat split.
    + unfold ConsoleUI.exec, ConsoleUI.try_legal, ConsoleUI.WritePrompt,
        ConsoleUI.WriteText, ConsoleUI.query.
      change (Nat.eqb (Regex.what_size ConsoleUI.reg_brk) 3) with true.
      cbv iota.
      destruct (Conv.lexical_cast_size_t ln); [discriminate Hbad|].
      unfold_eff. simpl. rewrite Hwill. simpl. repeat split.
  - intros cmd what1 what2 st Hp Hd out.
    destruct (add_breakpoint_run srv cmd what1 what2 st Hp)
      as (_ & Hr & _ & Hev & _).
    subst out. split; [exact Hr|]. rewrite Hev.
    rewrite (atoi_no_digit what2 Hd). reflexivity.
  - repeat split.
Qed.

End BadNumbers.

Lemma wire_bad_number_escapes_dispatcher_witness :
  RDIP.evaluateCommand Sample.server "del 99999999999999999999"
    (RDIP.initial Sample.init)
  = (Eff.Throw, RDIP.initial Sample.init, [])
  /\ Eff.result (ConsoleUI.EvaluateCommand Sample.server
                   "del 99999999999999999999" (ConsoleUI.initial Sample.init))
     = Eff.Ret false
  /\ hd_error (Eff.events (RDIP.evaluateCommand Sample.server "b a.rb:abc"
                             (RDIP.initial Sample.init)))
     = Some (Eff.Call (Eff.CAddBreakPoint
                         (BreakPoint.Build 0 "a.rb" 0 true) true))
  /\ Eff.writes (Eff.events (RDIP.evaluateCommand Sample.server "b a.rb:abc"
                               (RDIP.initial Sample.init)))
     = [Eff.Write ("<breakpointAdded no=" ++ RDIP.quoted "1" ++ " location="
                   ++ RDIP.quoted "a.rb:0" ++ "/>" ++ RDIP.nl)].
Proof.
  pose proof (wire_bad_number_escapes_dispatcher Sample.server)
    as (H1 & _ & H3 & H4 & _).
  split; [|split; [|split]].
  - apply (H1 "del 99999999999999999999" "99999999999999999999"
             (RDIP.initial Sample.init) (or_introl eq_refl) eq_refl).
  - apply (proj1 (H3 "del 99999999999999999999" (ConsoleUI.initial Sample.init)
                    eq_refl eq_refl)).
  - apply (proj2 (H4 "b a.rb:abc" "a.rb" "abc" (RDIP.initial Sample.init)
                    eq_refl eq_refl)).
  - reflexivity.
Defined.

(** ** The patterns of the console do not overlap *)

Lemma rmatch_seq : forall (A : Type) r1 r2 pos s cs (k : Regex.cont A),
  Regex.rmatch (Regex.Seq r1 r2) pos s cs k
  = Regex.rmatch r1 pos s cs (fun pos' s' cs' => Regex.rmatch r2 pos' s' cs' k).
Proof. reflexivity. Qed.

Lemma rmatch_opt : forall (A : Type) r pos s cs (k : Regex.cont A),
  Regex.rmatch (Regex.Opt r) pos s cs k
  = match Regex.rmatch r pos s cs k with
    | Some a => Some a
    | None => k pos s cs
    end.
Proof. reflexivity. Qed.

Lemma rmatch_chr : forall (A : Type) c pos s cs (k : Regex.cont A),
  Regex.rmatch (Regex.Chr c) pos s cs k
  = match s with
    | String c' s' => if Ascii.eqb c' c then k (S pos) s' cs else None
    | EmptyString => None
    end.
Proof. reflexivity. Qed.

Lemma rmatch_eol : forall (A : Type) pos s cs (k : Regex.cont A),
  Regex.rmatch Regex.Eol pos s cs k
  = match s with EmptyString => k pos s cs | _ => None end.
Proof. reflexivity. Qed.

Lemma strip_some : forall p s r, strip p s = Some r -> s = p ++ r.
Proof.
  induction p as [|c p IH]; intros s r H; simpl in *.
  - now injection H as ->.
  - destruct s as [|c' s]; [discriminate H|].
    destruct (Ascii.eqb_spec c' c) as [->|]; [|discriminate H].
    now rewrite (IH _ _ H).
Qed.

(** Leading white space in front of something that cannot start with
    white space: the loop [\s*] has to take all of it. *)
Lemma star_ws_skip : forall (A : Type) (K : Regex.cont A) (P : string -> Prop),
  (forall pos s cs a, K pos s cs = Some a -> P s) ->
  (forall c s, P (String c s) -> Str.is_space c = false) ->
  forall fuel pos s cs a,
    Regex.star_loop (Regex.rmatch Regex.ws) K fuel pos s cs = Some a ->
    P (Str.drop_while Str.is_space s).
Proof.
  intros A K P HK HP.
  assert (Hdirect : forall pos s cs a,
            K pos s cs = Some a -> P (Str.drop_while Str.is_space s)).
  { intros pos s cs a H. apply HK in H. destruct s as [|c s]; [exact H|].
    simpl. now rewrite (HP _ _ H). }
  induction fuel as [|fuel IH]; intros pos s cs a H.
  - simpl in H. eapply Hdirect; eassumption.
  - rewrite star_loop_S in H. unfold Regex.ws in H. rewrite rmatch_cls in H.
    destruct s as [|c s]; [eapply Hdirect; eassumption|].
    destruct (Str.is_space c) eqn:Hc.
    + destruct (String.length s <? String.length (String c s))%nat.
      * destruct (Regex.star_loop (Regex.rmatch (Regex.Cls Str.is_space)) K
                    fuel (S pos) s cs) as [a'|] eqn:Hin.
        -- simpl. rewrite Hc. eapply IH. exact Hin.
        -- apply HK in H. apply HP in H. congruence.
      * apply HK in H. apply HP in H. congruence.
    + eapply Hdirect; eassumption.
Qed.

(** A pattern [^\s*REST] tried at the start of a line. *)
Lemma anchored_head : forall (A : Type) (k : Regex.cont A) (rest : Regex.regex)
    (P : string -> Prop),
  (forall pos s cs a, Regex.rmatch rest pos s cs k = Some a -> P s) ->
  (forall c s, P (String c s) -> Str.is_space c = false) ->
  forall s a,
    Regex.rmatch (Regex.Bol ++ Regex.Star Regex.ws ++ rest)%re 0 s [] k = Some a ->
    P (Str.drop_while Str.is_space s).
Proof.
  intros A k rest P HK HP s a H.
  assert (Heq :
    Regex.rmatch (Regex.Bol ++ Regex.Star Regex.ws ++ rest)%re 0 s [] k
    = Regex.star_loop (Regex.rmatch Regex.ws)
        (fun pos' s' cs' => Regex.rmatch rest pos' s' cs' k)
        (String.length s) 0 s []) by reflexivity.
  rewrite Heq in H.
  eapply star_ws_skip; [| |exact H]; [exact HK|exact HP].
Qed.

(** An anchored pattern is found at the start of the line or not at
    all. *)
Lemma search_anchored_later : forall (r : Regex.regex) (s : string) (pos : nat),
  Regex.search_from (Regex.Bol ++ r)%re (S pos) s = None.
Proof.
  intros r. induction s as [|c s IH]; intros pos; simpl.
  - reflexivity.
  - apply IH.
Qed.

Lemma found_anchored : forall (r : Regex.regex) (s : string),
  Regex.found s (Regex.Bol ++ r)%re = true ->
  exists a, Regex.rmatch (Regex.Bol ++ r)%re 0 s []
              (fun _ s' cs => Some (cs, s')) = Some a.
Proof.
  intros r s H. unfold Regex.found, Regex.regex_search in H.
  destruct s as [|c s]; unfold Regex.search_from in H;
    fold Regex.search_from in H.
  - destruct (Regex.rmatch (Regex.Bol ++ r)%re 0 "" []
                (fun _ s' cs => Some (cs, s'))) as [a|]; [now exists a|].
    discriminate H.
  - destruct (Regex.rmatch (Regex.Bol ++ r)%re 0 (String c s) []
                (fun _ s' cs => Some (cs, s'))) as [a|]; [now exists a|].
    rewrite search_anchored_later in H. discriminate H.
Qed.

Lemma matches_some : forall (r : Regex.regex) (s : string),
  Regex.matches s r = true ->
  exists a, Regex.rmatch r 0 s []
              (fun _ s' cs => if Str.is_empty s' then Some cs else None)
            = Some a.
Proof.
  intros r s H. unfold Regex.matches, Regex.regex_match in H.
  destruct (Regex.rmatch r 0 s [] _) as [a|]; [now exists a|discriminate H].
Qed.

(** After a literal comes the rest of the line. *)
Lemma lit_head : forall (A : Type) (l : string) (r : Regex.regex) pos s cs
    (k : Regex.cont A) a,
  Regex.rmatch (Regex.lit l ++ r)%re pos s cs k = Some a ->
  is_some (strip l s) = true.
Proof.
  intros A l r pos s cs k a H. rewrite rmatch_seq, rmatch_lit in H.
  destruct (strip l s); [reflexivity|discriminate H].
Qed.

Lemma chr_head : forall (A : Type) (c : ascii) (r : Regex.regex) pos s cs
    (k : Regex.cont A) a,
  Regex.rmatch (Regex.Chr c ++ r)%re pos s cs k = Some a ->
  is_some (strip (String c "") s) = true.
Proof.
  intros A c r pos s cs k a H. rewrite rmatch_seq, rmatch_chr in H.
  destruct s as [|c' s]; [discriminate H|]. simpl.
  destruct (Ascii.eqb c' c); [reflexivity|discriminate H].
Qed.

Lemma strip_head_not_space : forall (l : string) (c0 : ascii) (l' : string),
  l = String c0 l' -> Str.is_space c0 = false ->
  forall c s, is_some (strip l (String c s)) = true -> Str.is_space c = false.
Proof.
  intros l c0 l' -> Hc0 c s H. simpl in H.
  destruct (Ascii.eqb_spec c c0) as [->|]; [exact Hc0|discriminate H].
Qed.

Lemma plus_ws_head : forall (A : Type) (r : Regex.regex) pos s cs
    (k : Regex.cont A) a,
  Regex.rmatch (Regex.Plus Regex.ws ++ r)%re pos s cs k = Some a ->
  starts_space s = true.
Proof.
  intros A r pos s cs k a H. unfold Regex.Plus in H.
  rewrite !rmatch_seq in H. unfold Regex.ws in H at 1.
  rewrite rmatch_cls in H. destruct s as [|c s]; [discriminate H|].
  simpl. destruct (Str.is_space c); [reflexivity|discriminate H].
Qed.

Lemma brk_list_head : forall pos s cs a,
  Regex.rmatch (Regex.Chr "b" ++ Regex.Opt (Regex.lit "reak") ++ Regex.Eol)%re
    pos s cs (fun _ s' cs' => if Str.is_empty s' then Some cs' else None)
  = Some a ->
  head PBrkList s = true.
Proof.
  intros pos s cs a H. rewrite rmatch_seq, rmatch_chr in H.
  destruct s as [|c s]; [discriminate H|].
  destruct (Ascii.eqb_spec c "b") as [->|]; [|discriminate H].
  rewrite rmatch_seq, rmatch_opt, rmatch_lit in H.
  destruct (strip "reak" s) as [r|] eqn:Hr.
  - apply strip_some in Hr. subst s. rewrite !rmatch_eol in H.
    destruct r as [|c r]; [reflexivity|].
    simpl in H. discriminate H.
  - rewrite rmatch_eol in H. destruct s as [|c s]; [reflexivity|].
    discriminate H.
Qed.

Lemma brk_head : forall (A : Type) (r : Regex.regex) pos s cs
    (k : Regex.cont A) a,
  Regex.rmatch (Regex.Chr "b" ++ Regex.Opt (Regex.lit "reak")
                ++ Regex.Plus Regex.ws ++ r)%re pos s cs k = Some a ->
  head PBrk s = true.
Proof.
  intros A r pos s cs k a H. rewrite rmatch_seq, rmatch_chr in H.
  destruct s as [|c s]; [discriminate H|].
  destruct (Ascii.eqb_spec c "b") as [->|]; [|discriminate H].
  rewrite rmatch_seq, rmatch_opt, rmatch_lit in H.
  unfold head. simpl strip at 1.
  destruct (strip "reak" s) as [r'|] eqn:Hr.
  - destruct (Regex.rmatch (Regex.Plus Regex.ws ++ r)%re _ r' cs k)
      as [a'|] eqn:H1.
    + apply plus_ws_head in H1. rewrite ?Hr, H1. apply orb_true_r.
    + apply plus_ws_head in H. rewrite H. reflexivity.
  - apply plus_ws_head in H. rewrite H. reflexivity.
Qed.

Ltac head_of_match H P lemK :=
  let a := fresh "a" in
  (apply matches_some in H || apply found_anchored in H);
  destruct H as [a H];
  eapply (anchored_head _ _ _ P);
  [ intros ? ? ? ?; apply lemK | | exact H ].

Ltac first_letter :=
  let c := fresh "c" in
  let s := fresh "s" in
  let Hh := fresh "Hh" in
  intros c s Hh; unfold head in Hh;
  (eapply strip_head_not_space; [ | |exact Hh]); reflexivity.

(** What each pattern of the console asks of a line. *)
Lemma hit_head : forall (p : cpattern) (line : string),
  chits p line = true ->
  head p (Str.drop_while Str.is_space line) = true.
Proof.
  intros p line H. destruct p; unfold chits in H.
  - head_of_match H (fun s => head PBrkList s = true) brk_list_head.
    intros c s Hh. unfold head in Hh.
    destruct (Ascii.eqb_spec c "b") as [->|Hn]; [reflexivity|].
    simpl in Hh. apply Ascii.eqb_neq in Hn. rewrite Hn in Hh.
    discriminate Hh.
  - head_of_match H (fun s => head PBrkDel s = true) lit_head. first_letter.
  - head_of_match H (fun s => head PBrk s = true) brk_head.
    intros c s Hh. unfold head in Hh. simpl strip at 1 in Hh.
    destruct (Ascii.eqb_spec c "b") as [->|Hn]; [reflexivity|].
    discriminate Hh.
  - head_of_match H (fun s => head PCont s = true) chr_head. first_letter.
  - head_of_match H (fun s => head PStep s = true) chr_head. first_letter.
  - head_of_match H (fun s => head PNext s = true) chr_head. first_letter.
  - head_of_match H (fun s => head PHelp s = true) chr_head. first_letter.
  - head_of_match H (fun s => head PUp s = true) chr_head. first_letter.
  - head_of_match H (fun s => head PDown s = true) lit_head. first_letter.
  - head_of_match H (fun s => head PWhere s = true) chr_head. first_letter.
  - head_of_match H (fun s => head PFrame s = true) chr_head. first_letter.
  - head_of_match H (fun s => head PList s = true) chr_head. first_letter.
  - head_of_match H (fun s => head PEval s = true) chr_head. first_letter.
  - head_of_match H (fun s => head PVar s = true) chr_head. first_letter.
Qed.

Lemma head_key : forall (p : cpattern) (c : ascii) (t : string),
  head p (String c t) = true -> c = key p.
Proof.
  intros p c t H.
  destruct (Ascii.eqb_spec c (key p)) as [Heq|Hne]; [exact Heq|].
  exfalso. apply Ascii.eqb_neq in Hne.
  destruct p; unfold head, key in *; simpl in H; rewrite Hne in H;
    discriminate H.
Qed.

Lemma heads_exclusive : forall (p q : cpattern) (t : string),
  head p t = true -> head q t = true -> p = q.
Proof.
  intros p q t Hp Hq.
  destruct t as [|c t]; [destruct p; discriminate Hp|].
  pose proof (head_key _ _ _ Hp) as Kp.
  pose proof (head_key _ _ _ Hq) as Kq.
  destruct p, q; try reflexivity; exfalso;
    unfold key in Kp, Kq; try (rewrite Kp in Kq; discriminate Kq); subst c.
  - (* b or break, and b followed by white space *)
    unfold head in Hp, Hq. simpl strip at 1 in Hq.
    apply orb_true_iff in Hp.
    destruct Hp as [Hp|Hp]; apply String.eqb_eq in Hp;
      injection Hp as ->; discriminate Hq.
  - unfold head in Hp, Hq.
    destruct t as [|c2 t]; [discriminate Hp|].
    simpl in Hp, Hq.
    destruct (Ascii.eqb_spec c2 "e") as [->|]; [discriminate Hq|discriminate Hp].
  - unfold head in Hp, Hq. simpl strip at 1 in Hp.
    apply orb_true_iff in Hq.
    destruct Hq as [Hq|Hq]; apply String.eqb_eq in Hq;
      injection Hq as ->; discriminate Hp.
  - unfold head in Hp, Hq.
    destruct t as [|c2 t]; [discriminate Hp|].
    simpl in Hp, Hq.
    destruct (Ascii.eqb_spec c2 "e") as [->|]; [discriminate Hp|discriminate Hq].
Qed.

(** The chain of the console takes the branch of a pattern that matches,
    or the last branch when none does. *)
Lemma console_parse_hit : forall line : string,
  (exists p, chits p line = true /\ cbuilds p (ConsoleUI.parse line) = true)
  \/ (ConsoleUI.parse line = ConsoleUI.Other
      /\ forall p, chits p line = false).
Proof.
  intros line. unfold ConsoleUI.parse.
  destruct (Regex.matches line ConsoleUI.reg_brk_list) eqn:H1;
    [left; exists PBrkList; split; [exact H1|reflexivity]|].
  destruct (Regex.regex_match line ConsoleUI.reg_brk_del) as [w2|] eqn:H2;
    [left; exists PBrkDel; split;
     [unfold chits, Regex.matches; now rewrite H2|reflexivity]|].
  destruct (Regex.regex_match line ConsoleUI.reg_brk) as [w3|] eqn:H3;
    [left; exists PBrk; split;
     [unfold chits, Regex.matches; now rewrite H3|reflexivity]|].
  destruct (Regex.matches line ConsoleUI.reg_cont) eqn:H4;
    [left; exists PCont; split; [exact H4|reflexivity]|].
  destruct (Regex.regex_search line ConsoleUI.reg_step) as [[w5 x5]|] eqn:H5;
    [left; exists PStep; split;
     [unfold chits, Regex.found; now rewrite H5|reflexivity]|].
  destruct (Regex.matches line ConsoleUI.reg_next) eqn:H6;
    [left; exists PNext; split; [exact H6|reflexivity]|].
  destruct (Regex.matches line ConsoleUI.reg_help) eqn:H7;
    [left; exists PHelp; split; [exact H7|reflexivity]|].
  destruct (Regex.matches line ConsoleUI.reg_up) eqn:H8;
    [left; exists PUp; split; [exact H8|reflexivity]|].
  destruct (Regex.matches line ConsoleUI.reg_down) eqn:H9;
    [left; exists PDown; split; [exact H9|reflexivity]|].
  destruct (Regex.matches line ConsoleUI.reg_where) eqn:H10;
    [left; exists PWhere; split; [exact H10|reflexivity]|].
  destruct (Regex.matches line ConsoleUI.reg_frame) eqn:H11;
    [left; exists PFrame; split; [exact H11|reflexivity]|].
  simpl orb. cbv iota.
  destruct (Regex.matches line ConsoleUI.reg_list) eqn:H12;
    [left; exists PList; split; [exact H12|reflexivity]|].
  destruct (Regex.regex_search line ConsoleUI.reg_eval) as [[w13 x13]|] eqn:H13;
    [left; exists PEval; split;
     [unfold chits, Regex.found; now rewrite H13|reflexivity]|].
  destruct (Regex.regex_search line ConsoleUI.reg_var) as [[w14 x14]|] eqn:H14;
    [left; exists PVar; split;
     [unfold chits, Regex.found; now rewrite H14|reflexivity]|].
  right. split; [reflexivity|].
  intros p. destruct p; unfold chits, Regex.matches, Regex.found;
    rewrite ?H2, ?H3, ?H5, ?H13, ?H14; auto.
Qed.

(** ** The chain of the wire *)

Ltac earlier_miss :=
  let q := fresh "q" in
  let Hq := fresh "Hq" in
  intros q Hq; destruct q; simpl in Hq;
  try (exfalso; lia);
  unfold whits, Regex.matches, Regex.found;
  repeat match goal with
         | H : _ = None |- _ => rewrite H
         | H : _ = false |- _ => rewrite H
         end;
  reflexivity.

Ltac take_branch p H :=
  left; exists p; split;
  [ unfold whits, Regex.matches, Regex.found; rewrite H; reflexivity
  | split; [reflexivity | earlier_miss] ].

(** The chain of the wire takes the branch of the first pattern that
    matches, or the last branch when none does. *)
Lemma wire_parse_first : forall cmd : string,
  (exists p, whits p cmd = true /\ wbuilds p (RDIP.parse cmd) = true
             /\ forall q, windex q < windex p -> whits q cmd = false)
  \/ (RDIP.parse cmd = RDIP.Unknown /\ forall p, whits p cmd = false).
Proof.
  intros cmd. unfold RDIP.parse.
  destruct (Regex.regex_match cmd RDIP.reg_brk) as [w1|] eqn:H1;
    [take_branch WBrk H1|].
  destruct (Regex.regex_match cmd RDIP.reg_brk_del) as [w2|] eqn:H2;
    [take_branch WBrkDel H2|].
  unfold Regex.matches.
  destruct (Regex.regex_match cmd RDIP.reg_start) as [w3|] eqn:H3;
    [take_branch WStart H3|].
  destruct (Regex.regex_match cmd RDIP.reg_cont) as [w4|] eqn:H4;
    [take_branch WCont H4|].
  destruct (Regex.regex_match cmd RDIP.reg_exit) as [w5|] eqn:H5;
    [take_branch WExit H5|].
  destruct (Regex.regex_match cmd RDIP.reg_where) as [w6|] eqn:H6;
    [take_branch WWhere H6|].
  destruct (Regex.regex_match cmd RDIP.reg_thr_lst) as [w7|] eqn:H7;
    [take_branch WThrLst H7|].
  destruct (Regex.regex_match cmd RDIP.reg_frame) as [w8|] eqn:H8;
    [take_branch WFrame H8|].
  destruct (Regex.regex_match cmd RDIP.reg_step) as [w9|] eqn:H9;
    [take_branch WStep H9|].
  destruct (Regex.regex_match cmd RDIP.reg_finish) as [w10|] eqn:H10;
    [take_branch WFinish H10|].
  destruct (Regex.regex_match cmd RDIP.reg_next) as [w11|] eqn:H11;
    [take_branch WNext H11|].
  destruct (Regex.regex_search cmd RDIP.reg_var_inspect) as [[w12 x12]|] eqn:H12;
    [take_branch WVarInspect H12|].
  destruct (Regex.regex_match cmd RDIP.reg_var_local) as [w13|] eqn:H13;
    [take_branch WVarLocal H13|].
  destruct (Regex.regex_match cmd RDIP.reg_var_global) as [w14|] eqn:H14;
    [take_branch WVarGlobal H14|].
  destruct (Regex.regex_match cmd RDIP.reg_var_instance) as [w15|] eqn:H15;
    [take_branch WVarInstance H15|].
  right. split; [reflexivity|].
  intros p. destruct p; unfold whits, Regex.matches, Regex.found;
    repeat match goal with
           | H : _ = None |- _ => rewrite H
           end; reflexivity.
Qed.

(** C5 (amended).  The parser is total and first-match: every line takes
    one branch of the chain.  On the console no line is matched by two
    patterns, a line that a pattern matches takes the branch of that
    pattern, and a line that no pattern matches takes the last branch
    (evaluate, or illegal when empty).  On the wire a line takes the
    branch of the first pattern in the order of the chain that matches
    it, or the unknown-command branch when none does; later patterns that
    match as well are hidden. *)
Theorem parser_first_match :
  (forall (line : string) (p q : cpattern),
     chits p line = true -> chits q line = true -> p = q)
  /\ (forall (line : string) (p : cpattern),
        chits p line = true -> cbuilds p (ConsoleUI.parse line) = true)
  /\ (forall line : string,
        (forall p, chits p line = false) ->
        ConsoleUI.parse line = ConsoleUI.Other)
  /\ (forall cmd : string,
        (exists p,
           whits p cmd = true /\ wbuilds p (RDIP.parse cmd) = true
           /\ forall q, windex q < windex p -> whits q cmd = false)
        \/ (RDIP.parse cmd = RDIP.Unknown /\ forall p, whits p cmd = false)).
Proof.
  assert (Hdisj : forall (line : string) (p q : cpattern),
            chits p line = true -> chits q line = true -> p = q).
  { intros line p q Hp Hq.
    apply (heads_exclusive p q (Str.drop_while Str.is_space line));
      now apply hit_head. }
  split; [exact Hdisj|]. split; [|split].
  - intros line p Hp.
    destruct (console_parse_hit line) as [(q & Hq & Hb)|(_ & Hnone)].
    + now rewrite (Hdisj line p q Hp Hq).
    + rewrite Hnone in Hp. discriminate Hp.
  - intros line Hnone.
    destruct (console_parse_hit line) as [(q & Hq & _)|(Ho & _)].
    + rewrite Hnone in Hq. discriminate Hq.
    + exact Ho.
  - apply wire_parse_first.
Qed.

(** C5, as stated, fails on the wire: [b v inspect 5] is matched by the
    pattern of add-breakpoint, which wins and builds a breakpoint on line
    [atoi("v inspect 5")], and by the pattern of inspect, which would
    evaluate [5]; [v i v inspect x] is matched by the patterns of inspect
    and of instance variables. *)
Lemma wire_patterns_overlap :
  whits WBrk "b v inspect 5" = true
  /\ whits WVarInspect "b v inspect 5" = true
  /\ RDIP.parse "b v inspect 5" = RDIP.AddBreakpoint "" "v inspect 5"
  /\ option_map snd (Regex.regex_search "b v inspect 5" RDIP.reg_var_inspect)
     = Some "5"
  /\ whits WVarInspect "v i v inspect x" = true
  /\ whits WVarInstance "v i v inspect x" = true
  /\ RDIP.parse "v i v inspect x" = RDIP.Eval "x"
  /\ option_map (Regex.sub 1)
       (Regex.regex_match "v i v inspect x" RDIP.reg_var_instance)
     = Some "v inspect x".
Proof.
  repeat split.
Qed.

Lemma parser_first_match_witness :
  chits PStep "step out" = true
  /\ cbuilds PStep (ConsoleUI.parse "step out") = true
  /\ (forall p, chits p "1 + 1" = false)
  /\ ConsoleUI.parse "1 + 1" = ConsoleUI.Other.
Proof.
  pose proof parser_first_match as (H1 & H2 & H3 & _).
  split; [reflexivity|]. split.
  - apply (H2 "step out" PStep). reflexivity.
  - assert (Hn : forall p, chits p "1 + 1" = false)
      by (intros p; destruct p; reflexivity).
    split; [exact Hn|]. apply (H3 "1 + 1" Hn).
Defined.

(** ** Scenarios of the specification, run on the sample engine *)

(** S1: add a breakpoint on the console, then list the breakpoints. *)
Example console_add_and_list :
  Eff.writes
    (console_events [ConsoleUI.ReadLine "b /a/b.rb:42"; ConsoleUI.ReadLine "b"])
  = [Eff.Write (ConsoleUI.nl ++ "Added breakpoint:" ++ ConsoleUI.nl);
     Eff.Write ("  1 /a/b.rb:42" ++ ConsoleUI.nl);
     Eff.Write (ConsoleUI.nl ++ "sudb (stopped): ");
     Eff.Write (ConsoleUI.nl ++ "Breakpoints:" ++ ConsoleUI.nl);
     Eff.Write ("  1 /a/b.rb:42" ++ ConsoleUI.nl);
     Eff.Write (ConsoleUI.nl ++ "sudb (stopped): ")].
Proof. reflexivity. Qed.

(** S2: an expression evaluated at a break on the console. *)
Example console_eval_at_break :
  Eff.writes
    (console_events [ConsoleUI.HitBreak sample_bp; ConsoleUI.ReadLine "p 1+1";
                     ConsoleUI.Wake])
  = [Eff.Write (ConsoleUI.nl ++ "BreakPoint 1 at /x.rb:7");
     Eff.Write (ConsoleUI.nl ++ "Line 10: puts 1");
     Eff.Write (ConsoleUI.nl ++ "sudb (stopped): ");
     Eff.Write (ConsoleUI.nl ++ "[1+1]" ++ ConsoleUI.nl);
     Eff.Write (ConsoleUI.nl ++ "sudb (stopped): ")].
Proof. reflexivity. Qed.

(** S3: add a breakpoint, ask for the frames and continue over the
    wire. *)
Example wire_add_where_continue :
  Eff.writes
    (wire_events [RDIP.Receive "b /x.rb:10"; RDIP.Receive "w";
                  RDIP.Receive "c"])
  = [Eff.Write ("<breakpointAdded no=" ++ RDIP.quoted "1" ++ " location="
                ++ RDIP.quoted "/x.rb:10" ++ "/>" ++ RDIP.nl);
     Eff.Write ("<frames>" ++ RDIP.nl
                ++ "<frame no=" ++ RDIP.quoted "0" ++ " file="
                ++ RDIP.quoted "/x.rb" ++ " line=" ++ RDIP.quoted "10" ++ "/>"
                ++ "<frame no=" ++ RDIP.quoted "1" ++ " file="
                ++ RDIP.quoted "/x.rb" ++ " line=" ++ RDIP.quoted "3"
                ++ " current=" ++ RDIP.quoted "yes" ++ "/>"
                ++ "</frames>" ++ RDIP.nl)].
Proof. reflexivity. Qed.

(** S6: two commands in one buffer; the reply to the second follows the
    task on the interpreter thread. *)
Example wire_compound_buffer :
  Eff.writes
    (wire_events [RDIP.HitBreak sample_bp; RDIP.RunHandler;
                  RDIP.Receive "b /x.rb:5; v l"; RDIP.Wake; RDIP.RunHandler])
  = [Eff.Write ("<breakpoint file=" ++ RDIP.quoted "/x.rb" ++ " line="
                ++ RDIP.quoted "7" ++ " threadId=" ++ RDIP.quoted "1"
                ++ "/>" ++ RDIP.nl);
     Eff.Write ("<breakpointAdded no=" ++ RDIP.quoted "1" ++ " location="
                ++ RDIP.quoted "/x.rb:5" ++ "/>" ++ RDIP.nl);
     Eff.Write (RDIP.variables_xml "local" [Sample.x_var])].
Proof. reflexivity. Qed.

(* ===================================================================== *)
(** * Further properties *)
(* ===================================================================== *)

(** ** More on encodeXml *)

Lemma escape_char_no_markup : forall c : ascii,
  Str.all_chars (fun x => negb (is_markup x)) (escape_char c) = true.
Proof.
  intros c. unfold escape_char.
  destruct (Ascii.eqb_spec c "&"); [reflexivity|].
  destruct (Ascii.eqb c Str.dquote) eqn:Hq; [reflexivity|].
  destruct (Ascii.eqb c "<") eqn:Hlt; [reflexivity|].
  destruct (Ascii.eqb c ">") eqn:Hgt; [reflexivity|].
  destruct (Ascii.eqb c "'") eqn:Hap; [reflexivity|].
  simpl. unfold is_markup. now rewrite Hq, Hlt, Hgt, Hap.
Qed.

(** X2. What [encodeXml] returns holds no [<], no [>], no double quote
    and no apostrophe, whatever the text. *)
Theorem encodeXml_no_markup : forall s : string,
  Str.all_chars (fun c => negb (is_markup c)) (RDIP.encodeXml s) = true.
Proof.
  induction s as [|c s IH].
  - reflexivity.
  - rewrite encodeXml_cons, all_chars_app, escape_char_no_markup, IH.
    reflexivity.
Qed.

(** X3. [encodeXml] goes through a concatenation: a text can be escaped
    piece by piece. *)
Theorem encodeXml_app : forall s1 s2 : string,
  RDIP.encodeXml (s1 ++ s2) = RDIP.encodeXml s1 ++ RDIP.encodeXml s2.
Proof.
  intros s1 s2. unfold RDIP.encodeXml. now rewrite !replace_all_app.
Qed.

Lemma string_length_app : forall s1 s2 : string,
  String.length (s1 ++ s2) = String.length s1 + String.length s2.
Proof.
  induction s1 as [|c s1 IH]; intros s2; simpl; [reflexivity|].
  now rewrite IH.
Qed.

Lemma escape_char_length : forall c : ascii,
  1 <= String.length (escape_char c)
  /\ (is_special c = true -> 2 <= String.length (escape_char c))
  /\ (is_special c = false -> escape_char c = String c "").
Proof.
  intros c. unfold escape_char, is_special, is_markup.
  destruct (Ascii.eqb c "&"); [simpl; repeat split; (lia || discriminate)|].
  destruct (Ascii.eqb c Str.dquote);
    [rewrite !orb_true_r; simpl; repeat split; (lia || discriminate)|].
  destruct (Ascii.eqb c "<");
    [simpl; repeat split; (lia || discriminate)|].
  destruct (Ascii.eqb c ">");
    [simpl; repeat split; (lia || discriminate)|].
  destruct (Ascii.eqb c "'");
    [simpl; repeat split; (lia || discriminate)|].
  simpl. repeat split; (lia || discriminate || reflexivity).
Qed.

Lemma encodeXml_length : forall s : string,
  String.length s <= String.length (RDIP.encodeXml s).
Proof.
  induction s as [|c s IH]; [apply Nat.le_refl|].
  rewrite encodeXml_cons, string_length_app. simpl.
  pose proof (proj1 (escape_char_length c)). lia.
Qed.

(** X4. [encodeXml] leaves a text as it is exactly when the text holds
    none of the five characters. *)
Theorem encodeXml_fixes_plain_text : forall s : string,
  RDIP.encodeXml s = s
  <-> Str.all_chars (fun c => negb (is_special c)) s = true.
Proof.
  induction s as [|c s IH].
  - split; reflexivity.
  - rewrite encodeXml_cons. simpl.
    destruct (escape_char_length c) as (_ & Hspec & Hplain).
    destruct (is_special c) eqn:Hc; simpl.
    + split; [|discriminate]. intros H. exfalso.
      apply (f_equal String.length) in H.
      rewrite string_length_app in H. simpl in H.
      pose proof (Hspec eq_refl). pose proof (encodeXml_length s). lia.
    + rewrite (Hplain eq_refl). simpl. rewrite <- IH. split.
      * intros H. now injection H.
      * intros H. now rewrite H.
Qed.

Lemma encodeXml_fixes_plain_text_witness :
  Str.all_chars (fun c => negb (is_special c)) "/a/b.rb" = true
  /\ RDIP.encodeXml "/a/b.rb" = "/a/b.rb".
Proof.
  split; [reflexivity|].
  apply (proj2 (encodeXml_fixes_plain_text "/a/b.rb")). reflexivity.
Defined.

(** ** More on the wire dispatcher *)

Section WireDispatch.

Context {E : Type} (srv : IDebugServer.t E).

(** X5. The wire dispatcher writes to the socket only in the branches of
    add-breakpoint, delete-breakpoint, where and thread list: a command
    to resume, to select a frame or to fetch variables, and an unknown
    command, get no reply from the dispatcher itself. *)
Theorem wire_dispatcher_silent : forall (cmd : string) (st : RDIP.state E),
  replies (RDIP.parse cmd) = false ->
  Eff.writes (Eff.events (RDIP.evaluateCommand srv cmd st)) = [].
Proof.
  intros cmd st H. unfold RDIP.evaluateCommand.
  destruct (RDIP.parse cmd); try discriminate H; try reflexivity.
  unfold RDIP.exec.
  change (Nat.eqb (Regex.what_size RDIP.reg_frame) 2) with true. cbv iota.
  destruct (Conv.lexical_cast_size_t arg); reflexivity.
Qed.

(** X6. The wire dispatcher lets the interpreter go on for start,
    continue, exit, step, finish and next, and for nothing else: after
    one of these [server_can_continue_] is up, the condition variable
    has been notified and a wake leaves [WaitForContinue]; after any
    other command the flag is as it was. *)
Theorem wire_resumes_exactly : forall (cmd : string) (st : RDIP.state E),
  let out := RDIP.evaluateCommand srv cmd st in
  (resumes (RDIP.parse cmd) = true ->
   Eff.result out = Eff.Ret tt
   /\ RDIP.server_can_continue_ (Eff.final out) = true
   /\ In Eff.Notify (Eff.events out)
   /\ Eff.result (RDIP.WaitForContinue_wake srv (Eff.final out))
      = Eff.Ret true)
  /\ (resumes (RDIP.parse cmd) = false ->
      RDIP.server_can_continue_ (Eff.final out)
      = RDIP.server_can_continue_ st).
Proof.
  intros cmd st out. subst out. unfold RDIP.evaluateCommand. split.
  - intros H.
    destruct (RDIP.parse cmd); try discriminate H;
      (split; [reflexivity|split; [reflexivity|split;
         [simpl; tauto|reflexivity]]]).
  - intros H.
    destruct (RDIP.parse cmd); try discriminate H; try reflexivity;
      unfold RDIP.exec;
      try change (Nat.eqb (Regex.what_size RDIP.reg_brk) 3) with true;
      try change (Nat.eqb (Regex.what_size RDIP.reg_brk_del) 2) with true;
      try change (Nat.eqb (Regex.what_size RDIP.reg_frame) 2) with true;
      cbv iota; unfold RDIP.call, RDIP.query; unfold_eff.
    + destruct (IDebugServer.AddBreakPoint srv _ true (RDIP.engine st))
        as [[[|] idx] e']; reflexivity.
    + destruct (Conv.lexical_cast_size_t arg) as [i|]; [|reflexivity].
      destruct (IDebugServer.RemoveBreakPoint srv i (RDIP.engine st))
        as [[|] e']; reflexivity.
    + destruct (Conv.lexical_cast_size_t arg) as [i|]; reflexivity.
Qed.

Lemma exec_no_interpreter_call : forall (c : RDIP.Command) (cmd : string)
    (st : RDIP.state E),
  existsb is_interpreter_call (Eff.events (RDIP.exec srv c cmd st)) = false.
Proof.
  intros c cmd st.
  destruct c; unfold RDIP.exec;
    try change (Nat.eqb (Regex.what_size RDIP.reg_brk) 3) with true;
    try change (Nat.eqb (Regex.what_size RDIP.reg_brk_del) 2) with true;
    try change (Nat.eqb (Regex.what_size RDIP.reg_frame) 2) with true;
    cbv iota; unfold RDIP.call, RDIP.query; unfold_eff;
    try reflexivity.
  - destruct (IDebugServer.AddBreakPoint srv _ true (RDIP.engine st))
      as [[[|] idx] e']; reflexivity.
  - destruct (Conv.lexical_cast_size_t arg) as [i|]; [|reflexivity].
    destruct (IDebugServer.RemoveBreakPoint srv i (RDIP.engine st))
      as [[|] e']; reflexivity.
  - destruct (Conv.lexical_cast_size_t arg) as [i|]; reflexivity.
Qed.

Lemma for_each_no_interpreter_call : forall (cmds : list string)
    (st : RDIP.state E),
  existsb is_interpreter_call
    (Eff.events
       (Eff.for_each cmds
          (fun cmd => RDIP.evaluateCommand srv (Str.trim_copy cmd)) st))
  = false.
Proof.
  induction cmds as [|cmd cmds IH]; intros st; [reflexivity|].
  simpl. unfold Eff.bind. unfold RDIP.evaluateCommand in *.
  pose proof (exec_no_interpreter_call (RDIP.parse (Str.trim_copy cmd))
                (Str.trim_copy cmd) st) as H1.
  destruct (RDIP.exec srv (RDIP.parse (Str.trim_copy cmd))
              (Str.trim_copy cmd) st) as [[r st1] evs1].
  unfold Eff.events in H1. simpl in H1.
  destruct r as [[]|]; [|exact H1].
  specialize (IH st1).
  destruct (Eff.for_each cmds _ st1) as [[r2 st2] evs2].
  unfold Eff.events in *. simpl in *.
  rewrite existsb_app, H1, IH. reflexivity.
Qed.

(** X7. What the i/o thread of the wire front-end does, be it a buffer
    it dispatches or a handler it runs, never calls the engine for local,
    global or instance variables or to evaluate an expression: these
    calls are made on the interpreter thread only. *)
Theorem wire_io_thread_leaves_variables_alone :
  (forall (str : string) (st : RDIP.state E),
     existsb is_interpreter_call
       (Eff.events (RDIP.handleCommand srv str st)) = false)
  /\ (forall (h : Eff.Handler) (st : RDIP.state E),
        existsb is_interpreter_call
          (Eff.events (RDIP.run_handler h st)) = false)
  /\ (forall (a : RDIP.action) (s s' : RDIP.session E)
             (evs : list Eff.Event),
        RDIP.step srv a s = Some (s', evs) ->
        existsb is_interpreter_call evs = true ->
        a = RDIP.Wake \/ (exists bp, a = RDIP.HitBreak bp)
        \/ (exists file line, a = RDIP.SuspendAt file line)).
Proof.
  assert (H1 : forall (str : string) (st : RDIP.state E),
             existsb is_interpreter_call
               (Eff.events (RDIP.handleCommand srv str st)) = false).
  { intros str st. unfold RDIP.handleCommand. unfold Eff.bind, Eff.emit.
    pose proof (for_each_no_interpreter_call (Str.split ";" str) st) as H.
    destruct (Eff.for_each _ _ st) as [[r st1] evs1].
    unfold Eff.events in *. simpl in *. exact H. }
  assert (H2 : forall (h : Eff.Handler) (st : RDIP.state E),
             existsb is_interpreter_call
               (Eff.events (RDIP.run_handler h st)) = false).
  { intros [kind|bp|file line] st; reflexivity. }
  split; [exact H1|]. split; [exact H2|].
  intros a s s' evs Hstep Hcall.
  destruct a as [str| |bp|file line|]; simpl in Hstep.
  - exfalso. destruct (RDIP.alive s); [|discriminate Hstep].
    specialize (H1 str (RDIP.conn s)).
    destruct (RDIP.handleCommand srv str (RDIP.conn s)) as [[r st1] evs1].
    injection Hstep as _ <-. unfold Eff.events in H1. simpl in H1.
    congruence.
  - exfalso. destruct (RDIP.alive s); [|discriminate Hstep].
    destruct (RDIP.posted s) as [|h rest]; [discriminate Hstep|].
    specialize (H2 h (RDIP.conn s)).
    destruct (RDIP.run_handler h (RDIP.conn s)) as [[r st1] evs1].
    injection Hstep as _ <-. unfold Eff.events in H2. simpl in H2.
    congruence.
  - right. left. now exists bp.
  - right. right. now exists file, line.
  - now left.
Qed.

End WireDispatch.

Lemma wire_dispatcher_silent_witness :
  replies (RDIP.parse "frame 1") = false
  /\ Eff.events (RDIP.evaluateCommand Sample.server "frame 1"
                   (RDIP.initial Sample.init))
     = [Eff.Call (Eff.CSetActiveFrameIndex 1)]
  /\ Eff.writes (Eff.events (RDIP.evaluateCommand Sample.server "frame 1"
                               (RDIP.initial Sample.init)))
     = [].
Proof.
  split; [reflexivity|]. split; [reflexivity|].
  apply (wire_dispatcher_silent Sample.server "frame 1"
           (RDIP.initial Sample.init) eq_refl).
Defined.

Lemma wire_resumes_exactly_witness :
  resumes (RDIP.parse "finish") = true
  /\ RDIP.server_can_continue_
       (Eff.final (RDIP.evaluateCommand Sample.server "finish"
                     (RDIP.initial Sample.init)))
     = true
  /\ resumes (RDIP.parse "w") = false
  /\ RDIP.server_can_continue_
       (Eff.final (RDIP.evaluateCommand Sample.server "w"
                     (RDIP.initial Sample.init)))
     = false.
Proof.
  split; [reflexivity|]. split.
  - apply (proj1 (proj2 (proj1 (wire_resumes_exactly Sample.server "finish"
                                  (RDIP.initial Sample.init)) eq_refl))).
  - split; [reflexivity|].
    apply (proj2 (wire_resumes_exactly Sample.server "w"
                    (RDIP.initial Sample.init)) eq_refl).
Defined.

Lemma wire_io_thread_leaves_variables_alone_witness :
  option_map snd (RDIP.step Sample.server RDIP.Wake waiting_with_task)
  = Some [Eff.Call Eff.CGetLocalVariables;
          Eff.Post (Eff.HSendVariables "local")]
  /\ (RDIP.Wake = RDIP.Wake \/ (exists bp, RDIP.Wake = RDIP.HitBreak bp)
      \/ (exists file line, RDIP.Wake = RDIP.SuspendAt file line)).
Proof.
  split; [reflexivity|].
  apply (proj2 (proj2 (wire_io_thread_leaves_variables_alone Sample.server))
           RDIP.Wake waiting_with_task
           {| RDIP.conn :=
                RDIP.set_server_response None
                  (RDIP.set_variables_to_send [Sample.x_var] pending_local);
              RDIP.waiting := true;
              RDIP.posted := [Eff.HSendVariables "local"];
              RDIP.alive := true |}
           [Eff.Call Eff.CGetLocalVariables;
            Eff.Post (Eff.HSendVariables "local")]
           eq_refl eq_refl).
Defined.

(** ** From a request for variables to its reply *)

Section WireRequests.

Context {E : Type} (srv : IDebugServer.t E).


(** X9. The wire dispatcher installs a task and its follow-up by
    assignments made without the lock under which the interpreter thread
    reads them.  With nothing in between, the three statements are the
    request.  When the interpreter thread runs a round of the loop after
    the first assignment, it runs the new task, posts the follow-up that
    was stored before, or nothing when there was none, and empties the
    slot; the new follow-up is stored afterwards, and the wake the
    notification causes finds no task: the result is sent under the
    previous kind, or stays in the buffer. *)
Theorem wire_round_between_assignments :
  (forall (t : RDIP.Task) (kind : string) (st : RDIP.state E),
     Eff.for_each (RDIP.request_steps t kind) (fun m => m) st
     = RDIP.request t kind st)
  /\ (forall (t : RDIP.Task) (kind : string) (st : RDIP.state E),
        RDIP.server_can_continue_ st = false ->
        let out := interleaved_request srv t kind st in
        Eff.result out = Eff.Ret tt
        /\ RDIP.posts (Eff.events out)
           = match RDIP.process_server_response_ st with
             | Some h => [h]
             | None => []
             end
        /\ RDIP.variables_to_send_ (Eff.final out)
           = task_result srv t (RDIP.set_server_response (Some t) st)
        /\ RDIP.server_response_ (Eff.final out) = None
        /\ RDIP.process_server_response_ (Eff.final out)
           = Some (Eff.HSendVariables kind)
        /\ RDIP.WaitForContinue_wake srv (Eff.final out)
           = (Eff.Ret false, Eff.final out, [])).
Proof.
  split; [reflexivity|].
  intros t kind st Hc out.
  assert (Hout : exists st1 evs1,
            RDIP.run_task srv t (RDIP.set_server_response (Some t) st)
            = (Eff.Ret tt, st1, evs1)
            /\ RDIP.server_can_continue_ st1 = false
            /\ RDIP.process_server_response_ st1
               = RDIP.process_server_response_ st
            /\ RDIP.posts evs1 = []
            /\ RDIP.variables_to_send_ st1
               = task_result srv t (RDIP.set_server_response (Some t) st)).
  { destruct (run_task_ret srv t (RDIP.set_server_response (Some t) st))
      as (st1 & evs1 & Hrun & Hcc & _ & Hp & _ & Hn).
    pose proof (proj1 (run_task_stores srv t
                         (RDIP.set_server_response (Some t) st))) as Hs.
    rewrite Hrun in Hs. exists st1, evs1.
    split; [exact Hrun|]. split; [now rewrite Hcc|].
    split; [exact Hp|]. split; [exact Hn|exact Hs]. }
  destruct Hout as (st1 & evs1 & Hrun & Hcc & Hp & Hn & Hs).
  assert (Heq : out
    = (Eff.Ret tt,
       RDIP.set_process_server_response (Some (Eff.HSendVariables kind))
         (RDIP.set_server_response None st1),
       (evs1 ++ match RDIP.process_server_response_ st with
                | Some h => [Eff.Post h]
                | None => []
                end ++ [Eff.Notify])%list)).
  { subst out. unfold interleaved_request, RDIP.request_steps.
    unfold RDIP.WaitForContinue_wake, RDIP.loop_body.
    cbn [Eff.for_each]. unfold_eff. simpl. rewrite Hc. simpl.
    rewrite Hrun. simpl. rewrite Hp.
    destruct (RDIP.process_server_response_ st); simpl;
      rewrite ?app_nil_r, <- ?app_assoc; reflexivity. }
  rewrite Heq. unfold Eff.result, Eff.final, Eff.events. cbn [fst snd].
  split; [reflexivity|]. split.
  - rewrite !posts_app, Hn.
    destruct (RDIP.process_server_response_ st); reflexivity.
  - split; [exact Hs|]. split; [reflexivity|]. split; [reflexivity|].
    unfold RDIP.WaitForContinue_wake, RDIP.loop_body. unfold_eff. simpl.
    rewrite Hcc. reflexivity.
Qed.

End WireRequests.


Lemma wire_round_between_assignments_witness :
  RDIP.posts
    (Eff.events
       (interleaved_request Sample.server (RDIP.TaskGetVariables true) "local"
          (RDIP.set_process_server_response
             (Some (Eff.HSendVariables "global")) (RDIP.initial Sample.init))))
  = [Eff.HSendVariables "global"].
Proof.
  apply (proj1 (proj2 (proj2 (wire_round_between_assignments Sample.server)
                         (RDIP.TaskGetVariables true) "local"
                         (RDIP.set_process_server_response
                            (Some (Eff.HSendVariables "global"))
                            (RDIP.initial Sample.init))
                         eq_refl))).
Defined.

(** ** The console thread *)

Lemma for_each_emit : forall (S A : Type) (g : A -> Eff.Event) (xs : list A)
    (st : S),
  Eff.for_each xs (fun x => Eff.emit (g x)) st = (Eff.Ret tt, st, map g xs).
Proof.
  intros S A g xs st. induction xs as [|x xs IH]; simpl; [reflexivity|].
  unfold Eff.bind. unfold Eff.emit at 1. rewrite IH. reflexivity.
Qed.

Lemma forallb_map_write : forall (A : Type) (g : A -> string) (xs : list A),
  forallb console_thread_event (map (fun x => Eff.Write (g x)) xs) = true.
Proof.
  intros A g xs. induction xs as [|x xs IH]; simpl; [reflexivity|exact IH].
Qed.

Section ConsoleDispatch.

Context {E : Type} (srv : IDebugServer.t E).

Lemma WriteFrames_events : forall st : ConsoleUI.state E,
  ConsoleUI.WriteFrames srv st
  = (Eff.Ret tt, st,
     Eff.Call Eff.CGetStackFrames :: Eff.Call Eff.CGetActiveFrameIndex
     :: Eff.Write ConsoleUI.nl
     :: map (fun l => Eff.Write l)
          (ConsoleUI.frame_lines
             (IDebugServer.GetActiveFrameIndex srv (ConsoleUI.engine st)) 0
             (IDebugServer.GetStackFrames srv (ConsoleUI.engine st)))).
Proof.
  intros st. unfold ConsoleUI.WriteFrames, ConsoleUI.query.
  unfold Eff.bind, Eff.emit at 1.
  rewrite (for_each_emit _ _ (fun l => Eff.Write l)). reflexivity.
Qed.

Lemma WriteCodeLines_events : forall st : ConsoleUI.state E,
  exists g : N * string -> string,
    ConsoleUI.WriteCodeLines srv st
    = (Eff.Ret tt, st,
       Eff.Call (Eff.CGetCodeLines 0 0) :: Eff.Call Eff.CGetBreakLineNumber
       :: Eff.Write ConsoleUI.nl
       :: map (fun p => Eff.Write (g p))
            (IDebugServer.GetCodeLines srv 0%N 0%N (ConsoleUI.engine st))).
Proof.
  intros st. unfold ConsoleUI.WriteCodeLines, ConsoleUI.query.
  unfold Eff.bind, Eff.emit at 1.
  match goal with
  | |- context [Eff.for_each _ (fun p => Eff.emit (Eff.Write (@?g p)))] =>
      exists g; rewrite (for_each_emit _ _ (fun p => Eff.Write (g p)))
  end.
  reflexivity.
Qed.

Lemma WriteBreakPoints_events : forall (bps : list BreakPoint.t)
    (st : ConsoleUI.state E),
  exists evs,
    ConsoleUI.WriteBreakPoints bps st = (Eff.Ret tt, st, evs)
    /\ forallb console_thread_event evs = true.
Proof.
  intros bps st. unfold ConsoleUI.WriteBreakPoints.
  destruct bps as [|b bps].
  - eexists. split; reflexivity.
  - unfold ConsoleUI.WriteText, ConsoleUI.WriteBreakPoint.
    unfold Eff.bind, Eff.emit at 1.
    rewrite (for_each_emit _ _
               (fun bp => Eff.Write (ConsoleUI.breakpoint_line bp))).
    eexists. split; [reflexivity|].
    simpl. apply forallb_map_write.
Qed.

(** What a branch of the console dispatcher does and leaves, when it
    starts from the reset request. *)
Lemma exec_summary : forall (c : ConsoleUI.Command) (line : string)
    (st : ConsoleUI.state E),
  ConsoleUI.need_what_from_server_ st = ConsoleUI.NEED_NOTHING ->
  ConsoleUI.need_server_response_ st = false ->
  exists f st1 evs,
    ConsoleUI.exec srv c line st = (Eff.Ret f, st1, evs)
    /\ forallb console_thread_event evs = true
    /\ ConsoleUI.signal_server_can_continue f = requests_resumption c
    /\ ConsoleUI.write_prompt f = negb (interpreter_routed c line)
    /\ ConsoleUI.need_server_response_ st1 = interpreter_routed c line
    /\ ConsoleUI.need_what_from_server_ st1 = wanted c
    /\ ConsoleUI.server_can_continue_ st1 = ConsoleUI.server_can_continue_ st
    /\ ConsoleUI.server_will_continue_ st1 = ConsoleUI.server_will_continue_ st.
Proof.
  intros c line st Hwhat Hneed. destruct c; unfold ConsoleUI.exec.
  - (* ListBreakpoints *)
    unfold ConsoleUI.query. unfold_eff.
    destruct (WriteBreakPoints_events
                (IDebugServer.GetBreakPoints srv (ConsoleUI.engine st)) st)
      as (evs & -> & Hq).
    do 3 eexists. split; [reflexivity|]. simpl. rewrite app_nil_r.
    repeat split; assumption.
  - (* DeleteBreakpoint *)
    unfold ConsoleUI.try_legal, ConsoleUI.call, ConsoleUI.WriteText. unfold_eff.
    destruct (Conv.lexical_cast_size_t arg) as [index|].
    + destruct (IDebugServer.RemoveBreakPoint srv index (ConsoleUI.engine st))
        as [[|] e']; do 3 eexists; (split; [reflexivity|]);
        simpl; repeat split; assumption.
    + do 3 eexists; (split; [reflexivity|]); simpl; repeat split; assumption.
  - (* AddBreakpoint *)
    change (Nat.eqb (Regex.what_size ConsoleUI.reg_brk) 3) with true. cbv iota.
    unfold ConsoleUI.try_legal, ConsoleUI.call, ConsoleUI.WriteText,
      ConsoleUI.WriteBreakPoint. unfold_eff.
    destruct (Conv.lexical_cast_size_t line0) as [n|].
    + destruct (IDebugServer.AddBreakPoint srv _ false (ConsoleUI.engine st))
        as [[[|] idx] e']; do 3 eexists; (split; [reflexivity|]);
        simpl; repeat split; assumption.
    + do 3 eexists; (split; [reflexivity|]); simpl; repeat split; assumption.
  - (* Continue *)
    do 3 eexists; (split; [reflexivity|]); simpl; repeat split; assumption.
  - (* Step *)
    unfold ConsoleUI.call. unfold_eff.
    destruct (Regex.matches suffix ConsoleUI.reg_out);
      do 3 eexists; (split; [reflexivity|]); simpl; repeat split; assumption.
  - (* StepOver *)
    unfold ConsoleUI.call. unfold_eff.
    do 3 eexists; (split; [reflexivity|]); simpl; repeat split; assumption.
  - (* Help *)
    unfold ConsoleUI.PrintHelp. unfold_eff.
    do 3 eexists; (split; [reflexivity|]); simpl; repeat split; assumption.
  - (* FrameUp *)
    unfold ConsoleUI.call. unfold_eff. rewrite WriteFrames_events.
    do 3 eexists. split; [reflexivity|].
    split; [simpl; rewrite app_nil_r; apply (forallb_map_write _ (fun l => l))|].
    simpl; repeat split; assumption.
  - (* FrameDown *)
    unfold ConsoleUI.call. unfold_eff. rewrite WriteFrames_events.
    do 3 eexists. split; [reflexivity|].
    split; [simpl; rewrite app_nil_r; apply (forallb_map_write _ (fun l => l))|].
    simpl; repeat split; assumption.
  - (* Where *)
    unfold_eff. rewrite WriteFrames_events.
    do 3 eexists. split; [reflexivity|].
    split; [simpl; rewrite app_nil_r; apply (forallb_map_write _ (fun l => l))|].
    simpl; repeat split; assumption.
  - (* ListSource *)
    unfold_eff. destruct (WriteCodeLines_events st) as [g ->].
    do 3 eexists. split; [reflexivity|].
    split; [simpl; rewrite app_nil_r; apply forallb_map_write|].
    simpl; repeat split; assumption.
  - (* Eval *)
    unfold_eff. do 3 eexists; (split; [reflexivity|]); simpl; repeat split;
      assumption.
  - (* Vars *)
    unfold_eff. simpl.
    destruct (Regex.matches suffix ConsoleUI.reg_global); simpl.
    + do 3 eexists; (split; [reflexivity|]); simpl; repeat split; assumption.
    + destruct (Regex.matches suffix ConsoleUI.reg_local); simpl.
      * do 3 eexists; (split; [reflexivity|]); simpl; repeat split; assumption.
      * rewrite Hwhat. simpl.
        do 3 eexists; (split; [reflexivity|]); simpl; repeat split; assumption.
  - (* Other *)
    unfold_eff. destruct line as [|ch line]; simpl;
      do 3 eexists; (split; [reflexivity|]); simpl; repeat split; assumption.
Qed.

(** The whole of [EvaluateCommand]: the branch, then the four tests on
    the flags. *)
Lemma EvaluateCommand_shape : forall (line : string) (st : ConsoleUI.state E),
  exists f st1 evs,
    forallb console_thread_event evs = true
    /\ ConsoleUI.signal_server_can_continue f
       = requests_resumption (ConsoleUI.parse line)
    /\ ConsoleUI.write_prompt f
       = negb (interpreter_routed (ConsoleUI.parse line) line)
    /\ ConsoleUI.need_server_response_ st1
       = interpreter_routed (ConsoleUI.parse line) line
    /\ ConsoleUI.need_what_from_server_ st1 = wanted (ConsoleUI.parse line)
    /\ ConsoleUI.server_can_continue_ st1 = ConsoleUI.server_can_continue_ st
    /\ ConsoleUI.server_will_continue_ st1 = ConsoleUI.server_will_continue_ st
    /\ ConsoleUI.EvaluateCommand srv line st
       = (Eff.Ret (ConsoleUI.is_legal_command f),
          ConsoleUI.set_will_continue false
            (if ConsoleUI.signal_server_can_continue f
             then ConsoleUI.set_will_continue true
                    (ConsoleUI.set_can_continue true st1)
             else st1),
          (evs
           ++ (if ConsoleUI.is_legal_command f then []
               else [Eff.Write (ConsoleUI.nl ++ "Illegal command"
                                ++ ConsoleUI.nl)])
           ++ (if ConsoleUI.need_server_response_ st1 then [Eff.Notify] else [])
           ++ (if ConsoleUI.signal_server_can_continue f
               then [Eff.SetCanContinue; Eff.Notify] else [])
           ++ (if ConsoleUI.write_prompt f then
                 if ConsoleUI.signal_server_can_continue f
                    || ConsoleUI.server_will_continue_ st1
                 then [Eff.Write (ConsoleUI.prompt true)]
                 else [Eff.Call Eff.CIsStopped;
                       Eff.Write
                         (ConsoleUI.prompt
                            (negb (IDebugServer.IsStopped srv
                                     (ConsoleUI.engine st1))))]
               else []))%list).
Proof.
  intros line st. unfold ConsoleUI.EvaluateCommand.
  unfold Eff.bind at 1. unfold Eff.modify at 1.
  unfold Eff.bind at 1. unfold Eff.modify at 1.
  unfold Eff.bind at 1. unfold Eff.modify at 1.
  unfold Eff.bind at 1.
  match goal with
  | |- context [ConsoleUI.exec srv ?c line ?s0] =>
      destruct (exec_summary c line s0 eq_refl eq_refl)
        as (f & st1 & evs1 & -> & Hq & Hs & Hw & Hn & Hwhat & Hcc & Hwc)
  end.
  exists f, st1, evs1.
  split; [exact Hq|]. split; [exact Hs|]. split; [exact Hw|].
  split; [exact Hn|]. split; [exact Hwhat|]. split; [exact Hcc|].
  split; [exact Hwc|].
  unfold ConsoleUI.WritePrompt, ConsoleUI.WriteText, ConsoleUI.query.
  unfold_eff. simpl.
  destruct f as [[|] [|] [|]]; simpl;
    destruct (ConsoleUI.need_server_response_ st1); simpl;
    try (destruct (ConsoleUI.server_will_continue_ st1); simpl);
    rewrite ?app_nil_r; reflexivity.
Qed.

Lemma thread_events_no_interpreter_call : forall evs : list Eff.Event,
  forallb console_thread_event evs = true ->
  existsb is_interpreter_call evs = false /\ existsb is_notify evs = false.
Proof.
  induction evs as [|e evs IH]; intros H; [split; reflexivity|].
  simpl in H. apply andb_true_iff in H as [He Hevs].
  destruct (IH Hevs) as [H1 H2]. simpl. rewrite H1, H2.
  destruct e as [w|l| | |c|h]; simpl in *; try discriminate He;
    try (split; reflexivity).
  destruct (interpreter_only c); [discriminate He|split; reflexivity].
Qed.

(** X10. What a console line leaves behind depends on its branch only:
    the flag to continue is raised exactly by c, s and n and is otherwise
    left as it was; a request for the interpreter thread is flagged
    exactly for p, v g, v l and a non-empty line that is no command, with
    the kind of the request; [server_will_continue_] is down again; and
    the condition variable is signalled exactly in these two groups of
    cases. *)
Theorem console_flags_after_command :
  forall (line : string) (st : ConsoleUI.state E),
    let out := ConsoleUI.EvaluateCommand srv line st in
    ConsoleUI.server_can_continue_ (Eff.final out)
    = requests_resumption (ConsoleUI.parse line)
      || ConsoleUI.server_can_continue_ st
    /\ ConsoleUI.need_server_response_ (Eff.final out)
       = interpreter_routed (ConsoleUI.parse line) line
    /\ ConsoleUI.need_what_from_server_ (Eff.final out)
       = wanted (ConsoleUI.parse line)
    /\ ConsoleUI.server_will_continue_ (Eff.final out) = false
    /\ existsb is_notify (Eff.events out)
       = interpreter_routed (ConsoleUI.parse line) line
         || requests_resumption (ConsoleUI.parse line).
Proof.
  intros line st out. subst out.
  destruct (EvaluateCommand_shape line st)
    as (f & st1 & evs & Hq & Hs & Hw & Hn & Hwhat & Hcc & Hwc & ->).
  unfold Eff.final, Eff.events. simpl.
  rewrite <- Hs, <- Hn, <- Hwhat, <- Hcc.
  destruct (thread_events_no_interpreter_call evs Hq) as [_ Hno].
  rewrite !existsb_app, Hno.
  destruct f as [lg [|] wp]; simpl;
    destruct (ConsoleUI.need_server_response_ st1), lg, wp; simpl;
    try destruct (ConsoleUI.server_will_continue_ st1); simpl;
    repeat split; reflexivity.
Qed.

(** X11. The console thread never reads variables and never evaluates an
    expression in the engine, whatever the line: these calls are left to
    the interpreter thread. *)
Theorem console_thread_leaves_variables_alone :
  forall (line : string) (st : ConsoleUI.state E),
    existsb is_interpreter_call
      (Eff.events (ConsoleUI.EvaluateCommand srv line st)) = false.
Proof.
  intros line st.
  destruct (EvaluateCommand_shape line st)
    as (f & st1 & evs & Hq & _ & _ & _ & _ & _ & _ & ->).
  unfold Eff.events. simpl.
  destruct (thread_events_no_interpreter_call evs Hq) as [Hno _].
  rewrite !existsb_app, Hno.
  destruct f as [[|] [|] [|]]; simpl;
    destruct (ConsoleUI.need_server_response_ st1); simpl;
    try destruct (ConsoleUI.server_will_continue_ st1); reflexivity.
Qed.


(** X13. A console line [b file:line] whose line is a number in range
    asks the engine for a breakpoint at that file, as typed, and that
    line.  When the engine accepts, the breakpoint is written with the
    index the engine gave it; when it refuses, the console says so.  The
    line is a legal command in both cases, and the prompt follows. *)
Theorem console_add_breakpoint_reply :
  forall (line what1 what2 : string) (n : N) (st : ConsoleUI.state E),
    ConsoleUI.parse line = ConsoleUI.AddBreakpoint what1 what2 ->
    Conv.lexical_cast_size_t what2 = Some n ->
    ConsoleUI.server_will_continue_ st = false ->
    let bp := BreakPoint.Build 0 what1 n true in
    let r := IDebugServer.AddBreakPoint srv bp false (ConsoleUI.engine st) in
    let out := ConsoleUI.EvaluateCommand srv line st in
    Eff.result out = Eff.Ret true
    /\ ConsoleUI.engine (Eff.final out) = snd r
    /\ Eff.events out
       = (Eff.Call (Eff.CAddBreakPoint bp false)
          :: (if fst (fst r)
              then [Eff.Write (ConsoleUI.nl ++ "Added breakpoint:"
                               ++ ConsoleUI.nl);
                    Eff.Write (ConsoleUI.breakpoint_line
                                 (BreakPoint.Build (snd (fst r)) what1 n true))]
              else [Eff.Write (ConsoleUI.nl ++ "Cannot add breakpoint"
                               ++ ConsoleUI.nl)])
          ++ [Eff.Call Eff.CIsStopped;
              Eff.Write (ConsoleUI.prompt
                           (negb (IDebugServer.IsStopped srv (snd r))))])%list.
Proof.
  intros line what1 what2 n st Hp Hn Hw bp r out. subst out r bp.
  unfold ConsoleUI.EvaluateCommand. rewrite Hp.
  unfold ConsoleUI.exec.
  change (Nat.eqb (Regex.what_size ConsoleUI.reg_brk) 3) with true. cbv iota.
  rewrite Hn.
  unfold ConsoleUI.try_legal, ConsoleUI.WritePrompt, ConsoleUI.WriteText,
    ConsoleUI.WriteBreakPoint, ConsoleUI.call, ConsoleUI.query.
  unfold_eff. simpl.
  destruct (IDebugServer.AddBreakPoint srv _ false (ConsoleUI.engine st))
    as [[[|] idx] e']; simpl; rewrite Hw; simpl; repeat split.
Qed.

Lemma frame_lines_marked : forall (frames : list StackFrame.t) (a i : N),
  length (filter is_marked (ConsoleUI.frame_lines a i frames))
  = if ((i <=? a) && (a <? i + N.of_nat (length frames)))%N then 1 else 0.
Proof.
  induction frames as [|f frames IH]; intros a i.
  - simpl. rewrite N.add_0_r.
    destruct (N.leb_spec i a), (N.ltb_spec a i); simpl; try reflexivity; lia.
  - cbn [ConsoleUI.frame_lines filter].
    change (length (f :: frames)) with (S (length frames)).
    rewrite Nat2N.inj_succ.
    destruct (N.eqb_spec i a) as [->|Hne].
    + change (is_marked (("--> " ++ "#" ++ Conv.dec (a + 1) ++ " "
                          ++ StackFrame.name f ++ ConsoleUI.nl)%string))
        with true.
      cbn [length]. rewrite IH.
      destruct (N.leb_spec (a + 1) a); [lia|]. simpl.
      destruct (N.leb_spec a a); [|lia].
      destruct (N.ltb_spec a (a + N.succ (N.of_nat (length frames))));
        [reflexivity|lia].
    + change (is_marked (("    " ++ "#" ++ Conv.dec (i + 1) ++ " "
                          ++ StackFrame.name f ++ ConsoleUI.nl)%string))
        with false.
      cbv iota. rewrite IH.
      destruct (N.leb_spec (i + 1) a), (N.leb_spec i a),
        (N.ltb_spec a (i + 1 + N.of_nat (length frames))),
        (N.ltb_spec a (i + N.succ (N.of_nat (length frames))));
        simpl; try reflexivity; lia.
Qed.

(** X14. [WriteFrames] writes one line for each frame and puts the arrow
    on exactly one of them when the active index the engine gives is that
    of a frame, and on none when it is not. *)
Theorem WriteFrames_marks_active_frame :
  forall st : ConsoleUI.state E,
    let frames := IDebugServer.GetStackFrames srv (ConsoleUI.engine st) in
    let active := IDebugServer.GetActiveFrameIndex srv (ConsoleUI.engine st) in
    let out := ConsoleUI.WriteFrames srv st in
    length (Eff.writes (Eff.events out)) = S (length frames)
    /\ marked_writes (Eff.events out)
       = if (active <? N.of_nat (length frames))%N then 1 else 0.
Proof.
  intros st frames active out. subst out. rewrite WriteFrames_events.
  unfold Eff.events, Eff.writes, marked_writes. cbn [snd filter].
  fold frames. fold active.
  cbn [Eff.is_write].
  assert (Hlen : forall a i fs,
            length (ConsoleUI.frame_lines a i fs) = length fs).
  { intros a i fs. revert i. induction fs as [|f fs IH]; intros i;
      [reflexivity|]. cbn [ConsoleUI.frame_lines length]. now rewrite IH. }
  split.
  - cbn [length]. f_equal.
    rewrite <- (Hlen active 0%N frames).
    generalize (ConsoleUI.frame_lines active 0 frames) as ls.
    induction ls as [|l ls IH]; [reflexivity|]. simpl. now rewrite IH.
  - change (is_marked ConsoleUI.nl) with false. cbv iota.
    pose proof (frame_lines_marked frames active 0) as Hm.
    rewrite N.add_0_l in Hm.
    destruct (N.leb_spec 0 active); [|lia]. simpl in Hm. rewrite <- Hm.
    generalize (ConsoleUI.frame_lines active 0 frames) as ls.
    induction ls as [|l ls IH]; [reflexivity|]. simpl.
    destruct (is_marked l); simpl; now rewrite IH.
Qed.

End ConsoleDispatch.


Lemma console_add_breakpoint_reply_witness :
  ConsoleUI.parse "b /x.rb:7" = ConsoleUI.AddBreakpoint "/x.rb" "7"
  /\ Conv.lexical_cast_size_t "7" = Some 7%N
  /\ Eff.result (ConsoleUI.EvaluateCommand Sample.server "b /x.rb:7"
                   (ConsoleUI.initial Sample.init)) = Eff.Ret true.
Proof.
  split; [reflexivity|]. split; [reflexivity|].
  exact (proj1 (console_add_breakpoint_reply Sample.server "b /x.rb:7"
                  "/x.rb" "7" 7%N (ConsoleUI.initial Sample.init)
                  eq_refl eq_refl eq_refl)).
Defined.

(** ** Stops *)

Section Stops.

Context {E : Type} (srv : IDebugServer.t E).

Lemma loop_body_ret : forall st : RDIP.state E,
  exists st' evs,
    RDIP.loop_body srv st = (Eff.Ret tt, st', evs)
    /\ RDIP.server_can_continue_ st' = RDIP.server_can_continue_ st
    /\ RDIP.server_response_ st' = None.
Proof.
  intros st. unfold RDIP.loop_body. unfold_eff.
  destruct (RDIP.server_response_ st) as [t|] eqn:Ht.
  - destruct (run_task_ret srv t st) as (st1 & evs1 & -> & Hc & _ & _ & _).
    destruct (RDIP.process_server_response_ st1);
      do 2 eexists; (split; [reflexivity|]); split; [exact Hc|reflexivity|
                                                      exact Hc|reflexivity].
  - do 2 eexists. split; [reflexivity|]. split; [reflexivity|exact Ht].
Qed.

Lemma wire_enter_then_wake : forall st : RDIP.state E,
  let st1 := Eff.final (RDIP.WaitForContinue_enter srv st) in
  RDIP.WaitForContinue_wake srv st1 = (Eff.Ret false, st1, []).
Proof.
  intros st st1. subst st1.
  assert (Henter : exists st' evs,
            RDIP.WaitForContinue_enter srv st = (Eff.Ret tt, st', evs)
            /\ RDIP.server_can_continue_ st' = false
            /\ RDIP.server_response_ st' = None).
  { unfold RDIP.WaitForContinue_enter. unfold Eff.bind, Eff.modify.
    destruct (loop_body_ret (RDIP.set_can_continue false st))
      as (st' & evs & -> & Hc & Hr).
    do 2 eexists. split; [reflexivity|]. split; [exact Hc|exact Hr]. }
  destruct Henter as (st' & evs & -> & Hc & Hr).
  unfold Eff.final. simpl.
  unfold RDIP.WaitForContinue_wake, RDIP.loop_body. unfold_eff.
  rewrite Hc, Hr. reflexivity.
Qed.

(** X15. A stop forgets every earlier command to continue: both
    front-ends lower [server_can_continue_] when the interpreter thread
    enters [WaitForContinue], whatever its value was, so a wake with no
    new command leaves the interpreter waiting.  On the wire such a wake
    does nothing at all. *)
Theorem stop_forgets_earlier_continue :
  (forall (st : RDIP.state E) (bp : BreakPoint.t),
     let st1 := Eff.final (RDIP.Break srv bp st) in
     RDIP.WaitForContinue_wake srv st1 = (Eff.Ret false, st1, []))
  /\ (forall (st : RDIP.state E) (file : string) (line : N),
        let st1 := Eff.final (RDIP.Break_at srv file line st) in
        RDIP.WaitForContinue_wake srv st1 = (Eff.Ret false, st1, []))
  /\ (forall (st : ConsoleUI.state E) (bp : BreakPoint.t),
        Eff.result
          (ConsoleUI.WaitForContinue_wake srv
             (Eff.final (ConsoleUI.Break srv bp st))) = Eff.Ret false)
  /\ (forall (st : ConsoleUI.state E) (file : string) (line : N),
        Eff.result
          (ConsoleUI.WaitForContinue_wake srv
             (Eff.final (ConsoleUI.Break_at srv file line st)))
        = Eff.Ret false).
Proof.
  assert (Hwake : forall st : ConsoleUI.state E,
            Eff.result (ConsoleUI.WaitForContinue_wake srv st)
            = Eff.Ret (ConsoleUI.server_can_continue_ st)).
  { intros st. unfold ConsoleUI.WaitForContinue_wake.
    unfold Eff.bind at 1. unfold Eff.get at 1.
    assert (Hmid : forall m : Eff.M (ConsoleUI.state E) unit,
              (exists st' evs, m st = (Eff.Ret tt, st', evs)
                 /\ ConsoleUI.server_can_continue_ st'
                    = ConsoleUI.server_can_continue_ st) ->
              Eff.result
                (let (p, ev2) :=
                   Eff.bind m
                     (fun _ => Eff.bind Eff.get
                        (fun st' => Eff.ret (ConsoleUI.server_can_continue_ st')))
                     st in
                 let (r, s2) := p in (r, s2, ([] ++ ev2)%list))
              = Eff.Ret (ConsoleUI.server_can_continue_ st)).
    { intros m (st' & evs & Hm & Hc). unfold_eff. rewrite Hm. simpl.
      now rewrite Hc. }
    apply Hmid.
    destruct (ConsoleUI.need_server_response_ st);
      [|do 2 eexists; split; reflexivity].
    unfold ConsoleUI.WriteText, ConsoleUI.WriteVariables, ConsoleUI.call,
      ConsoleUI.query.
    destruct (ConsoleUI.need_what_from_server_ st); unfold_eff.
    - destruct (WritePrompt_ret srv st) as [e ->].
      do 2 eexists; split; reflexivity.
    - destruct (IDebugServer.EvaluateExpression srv _ (ConsoleUI.engine st))
        as [v e']. simpl.
      destruct (WritePrompt_ret srv (ConsoleUI.set_engine e' st)) as [e ->].
      do 2 eexists; split; reflexivity.
    - match goal with
      | |- context [Eff.for_each ?xs ?b st] =>
          destruct (for_each_ret _ xs b (fun x s => ex_intro _ _ eq_refl) st)
            as [e0 ->]
      end.
      destruct (WritePrompt_ret srv st) as [e ->].
      do 2 eexists; split; reflexivity.
    - match goal with
      | |- context [Eff.for_each ?xs ?b st] =>
          destruct (for_each_ret _ xs b (fun x s => ex_intro _ _ eq_refl) st)
            as [e0 ->]
      end.
      destruct (WritePrompt_ret srv st) as [e ->].
      do 2 eexists; split; reflexivity. }
  split; [|split; [|split]].
  - intros st bp st1. subst st1.
    replace (Eff.final (RDIP.Break srv bp st))
      with (Eff.final (RDIP.WaitForContinue_enter srv st)).
    + apply wire_enter_then_wake.
    + unfold RDIP.Break, Eff.bind, Eff.emit.
      destruct (RDIP.WaitForContinue_enter srv st) as [[r st'] evs].
      reflexivity.
  - intros st file line st1. subst st1.
    replace (Eff.final (RDIP.Break_at srv file line st))
      with (Eff.final (RDIP.WaitForContinue_enter srv st)).
    + apply wire_enter_then_wake.
    + unfold RDIP.Break_at, Eff.bind, Eff.emit.
      destruct (RDIP.WaitForContinue_enter srv st) as [[r st'] evs].
      reflexivity.
  - intros st bp. rewrite Hwake. unfold ConsoleUI.Break.
    unfold ConsoleUI.WaitForContinue_enter. unfold_eff.
    destruct (WriteCurrentLine_ret srv st) as [e1 ->].
    destruct (WritePrompt_ret srv st) as [e2 ->]. reflexivity.
  - intros st file line. rewrite Hwake. unfold ConsoleUI.Break_at.
    unfold ConsoleUI.WaitForContinue_enter. unfold_eff.
    destruct (WriteCurrentLine_ret srv st) as [e1 ->].
    destruct (WritePrompt_ret srv st) as [e2 ->]. reflexivity.
Qed.

End Stops.

(** ** Buffers of commands *)

Lemma split_nonempty : forall (sep : ascii) (s : string), Str.split sep s <> [].
Proof.
  intros sep s. destruct s as [|c s]; simpl; [discriminate|].
  destruct (Ascii.eqb c sep); [discriminate|].
  destruct (Str.split sep s); discriminate.
Qed.

Lemma split_app_sep : forall (sep : ascii) (a b : string),
  Str.split sep (a ++ String sep b)
  = (Str.split sep a ++ Str.split sep b)%list.
Proof.
  intros sep a b. induction a as [|c a IH]; simpl.
  - now rewrite Ascii.eqb_refl.
  - destruct (Ascii.eqb c sep); [now rewrite IH|].
    rewrite IH. pose proof (split_nonempty sep a) as Hne.
    destruct (Str.split sep a) as [|p ps]; [now elim Hne|reflexivity].
Qed.

Lemma split_no_sep : forall (sep : ascii) (s : string),
  Str.all_chars (fun c => negb (Ascii.eqb c sep)) s = true ->
  Str.split sep s = [s].
Proof.
  intros sep s. induction s as [|c s IH]; simpl; intros H; [reflexivity|].
  apply andb_true_iff in H as [Hc Hs]. apply negb_true_iff in Hc.
  rewrite Hc, (IH Hs). reflexivity.
Qed.

Lemma for_each_app : forall (S A : Type) (body : A -> Eff.M S unit)
    (xs ys : list A) (st : S),
  Eff.for_each (xs ++ ys) body st
  = Eff.bind (Eff.for_each xs body) (fun _ => Eff.for_each ys body) st.
Proof.
  intros S A body xs ys. induction xs as [|x xs IH]; intros st.
  - simpl. unfold Eff.bind, Eff.ret.
    destruct (Eff.for_each ys body st) as [[r s] evs]. reflexivity.
  - simpl. unfold Eff.bind.
    destruct (body x st) as [[[[]|] s1] evs1]; [|reflexivity].
    rewrite IH. unfold Eff.bind.
    destruct (Eff.for_each xs body s1) as [[[[]|] s2] evs2]; [|reflexivity].
    destruct (Eff.for_each ys body s2) as [[r3 s3] evs3].
    now rewrite app_assoc.
Qed.

Lemma drop_spaces_all : forall s : string,
  Str.all_chars Str.is_space s = true -> Str.drop_while Str.is_space s = "".
Proof.
  induction s as [|c s IH]; simpl; intros H; [reflexivity|].
  apply andb_true_iff in H as [Hc Hs]. rewrite Hc. exact (IH Hs).
Qed.

Section WireBuffers.

Context {E : Type} (srv : IDebugServer.t E).

Lemma handleCommand_loop : forall (str : string) (st : RDIP.state E),
  RDIP.handleCommand srv str st
  = match Eff.for_each (Str.split ";" str)
            (fun cmd => RDIP.evaluateCommand srv (Str.trim_copy cmd)) st with
    | (r, st1, evs) =>
        (r, st1,
         Eff.Log (RDIP.nl ++ "Command from IDE => ") :: Eff.Log str :: evs)
    end.
Proof.
  intros str st. unfold RDIP.handleCommand, Eff.bind, Eff.emit.
  destruct (Eff.for_each _ _ st) as [[r st1] evs]. reflexivity.
Qed.

(** X16. A buffer [a;b] is carried out as the buffer [a] followed by the
    buffer [b]: the replies are those of [a] followed by those of [b]
    from where [a] left the connection.  When a command of [a] throws,
    nothing of [b] is carried out.  A buffer of white space only, as the
    piece after a closing [;], is carried out as no command: nothing is
    written and nothing changes. *)
Theorem wire_buffer_composes :
  (forall (a b : string) (st : RDIP.state E),
     let first := RDIP.handleCommand srv a st in
     let second := RDIP.handleCommand srv b (Eff.final first) in
     let both := RDIP.handleCommand srv (a ++ String ";" b) st in
     match Eff.result first with
     | Eff.Ret _ =>
         Eff.result both = Eff.result second
         /\ Eff.final both = Eff.final second
         /\ Eff.writes (Eff.events both)
            = (Eff.writes (Eff.events first)
               ++ Eff.writes (Eff.events second))%list
     | Eff.Throw =>
         Eff.result both = Eff.Throw
         /\ Eff.final both = Eff.final first
         /\ Eff.writes (Eff.events both) = Eff.writes (Eff.events first)
     end)
  /\ (forall (b : string) (st : RDIP.state E),
        Str.all_chars Str.is_space b = true ->
        let out := RDIP.handleCommand srv b st in
        Eff.result out = Eff.Ret tt /\ Eff.final out = st
        /\ Eff.writes (Eff.events out) = []).
Proof.
  split.
  - intros a b st first second both. subst first second both.
    rewrite !handleCommand_loop, split_app_sep, for_each_app.
    unfold Eff.bind.
    destruct (Eff.for_each (Str.split ";" a) _ st) as [[[[]|] s1] evs1].
    + unfold Eff.result, Eff.final, Eff.events, Eff.writes. cbn [fst snd].
      destruct (Eff.for_each (Str.split ";" b) _ s1) as [[r2 s2] evs2].
      cbn [fst snd].
      split; [reflexivity|]. split; [reflexivity|].
      cbn [filter Eff.is_write]. now rewrite filter_app.
    + unfold Eff.result, Eff.final, Eff.events, Eff.writes. cbn [fst snd].
      repeat split.
  - intros b st Hb out. subst out.
    rewrite handleCommand_loop, split_no_sep.
    + assert (Htrim : Str.trim_copy b = "").
      { unfold Str.trim_copy. now rewrite (drop_spaces_all b Hb). }
      cbn [Eff.for_each]. rewrite Htrim. repeat split.
    + clear st. induction b as [|c b IH]; [reflexivity|].
      simpl in Hb. apply andb_true_iff in Hb as [Hc Hs].
      simpl. rewrite (IH Hs), andb_true_r.
      destruct (Ascii.eqb_spec c ";") as [->|]; [discriminate Hc|reflexivity].
Qed.

End WireBuffers.

Lemma wire_buffer_composes_witness :
  Str.all_chars Str.is_space (String " " RDIP.nl) = true
  /\ Eff.final (RDIP.handleCommand Sample.server (String " " RDIP.nl)
                  (RDIP.initial Sample.init))
     = RDIP.initial Sample.init.
Proof.
  split; [reflexivity|].
  exact (proj1 (proj2 (proj2 (wire_buffer_composes Sample.server)
                         (String " " RDIP.nl) (RDIP.initial Sample.init)
                         eq_refl))).
Defined.

(** ** Numbers written and read back *)

Lemma digit_not_space : forall c : ascii,
  Str.is_digit c = true -> Str.is_space c = false.
Proof.
  intros c. unfold Str.is_digit, Str.is_space. cbv zeta.
  generalize (nat_of_ascii c) as n. intros n H.
  apply andb_true_iff in H as [H1 H2].
  apply Nat.leb_le in H1. apply Nat.leb_le in H2.
  destruct (Nat.eqb_spec n 32); [lia|].
  destruct (Nat.leb_spec 9 n), (Nat.leb_spec n 13); simpl; try reflexivity; lia.
Qed.

Lemma hex_not_space : forall c : ascii,
  is_hex c = true -> Str.is_space c = false.
Proof.
  intros c. unfold is_hex, Conv.hex_val, Str.is_space. cbv zeta.
  generalize (nat_of_ascii c) as n. intros n H.
  destruct (Nat.eqb_spec n 32) as [->|]; [discriminate H|].
  destruct (Nat.leb_spec 9 n), (Nat.leb_spec n 13); simpl; try reflexivity.
  exfalso.
  destruct (Nat.leb_spec 48 n); [lia|].
  destruct (Nat.leb_spec 97 n); [lia|].
  destruct (Nat.leb_spec 65 n); [lia|].
  simpl in H. discriminate H.
Qed.

Lemma take_while_id : forall (p : ascii -> bool) (s : string),
  Str.all_chars p s = true -> Conv.take_while p s = s.
Proof.
  induction s as [|c s IH]; simpl; intros H; [reflexivity|].
  apply andb_true_iff in H as [Hc Hs]. now rewrite Hc, (IH Hs).
Qed.

Lemma drop_while_head : forall (p q : ascii -> bool) (s : string),
  (forall c, q c = true -> p c = false) ->
  Str.all_chars q s = true -> Str.drop_while p s = s.
Proof.
  intros p q [|c s] Hpq H; [reflexivity|].
  simpl in H. apply andb_true_iff in H as [Hc _].
  simpl. now rewrite (Hpq c Hc).
Qed.

Lemma dec_digits : forall d : Decimal.uint,
  Str.all_chars Str.is_digit (DecimalString.NilEmpty.string_of_uint d) = true.
Proof. induction d; simpl; auto. Qed.

Lemma digits_val_acc : forall (d : Decimal.uint) (acc : positive),
  Conv.digits_val (Npos acc) (DecimalString.NilEmpty.string_of_uint d)
  = Npos (Pos.of_uint_acc d acc).
Proof.
  induction d as [|d IH|d IH|d IH|d IH|d IH|d IH|d IH|d IH|d IH|d IH];
    intros acc;
    cbn [DecimalString.NilEmpty.string_of_uint Conv.digits_val Pos.of_uint_acc];
    [reflexivity|..];
    rewrite <- IH; f_equal;
    match goal with
    | |- context [Conv.digit_val ?c] =>
        let v := eval vm_compute in (Conv.digit_val c) in
        change (Conv.digit_val c) with v
    end; lia.
Qed.

Lemma digits_val_of_uint : forall d : Decimal.uint,
  Conv.digits_val 0 (DecimalString.NilEmpty.string_of_uint d) = N.of_uint d.
Proof.
  induction d as [|d IH|d IH|d IH|d IH|d IH|d IH|d IH|d IH|d IH|d IH];
    [reflexivity | exact IH | ..];
    cbn [DecimalString.NilEmpty.string_of_uint Conv.digits_val];
    match goal with
    | |- context [Conv.digit_val ?c] =>
        let v := eval vm_compute in (Conv.digit_val c) in
        change (Conv.digit_val c) with v
    end;
    apply (digits_val_acc d).
Qed.

Lemma dec_value : forall n : N, Conv.digits_val 0 (Conv.dec n) = n.
Proof.
  intros n. unfold Conv.dec. rewrite digits_val_of_uint.
  apply DecimalN.Unsigned.of_to.
Qed.

Lemma dec_all_digits : forall n : N, Conv.all_digits (Conv.dec n) = true.
Proof.
  intros n. unfold Conv.all_digits, Conv.dec. rewrite dec_digits, andb_true_r.
  destruct n as [|p]; [reflexivity|].
  change (N.to_uint (Npos p)) with (Pos.to_uint p).
  pose proof (DecimalPos.Unsigned.to_uint_nonnil p) as Hne.
  destruct (Pos.to_uint p); [now elim Hne|reflexivity..].
Qed.

Lemma hex_chars : forall d : Hexadecimal.uint,
  Str.all_chars is_hex (HexadecimalString.NilEmpty.string_of_uint d) = true.
Proof. induction d; simpl; auto. Qed.

Lemma hex_prefix_val_acc : forall (d : Hexadecimal.uint) (acc : positive),
  Conv.hex_prefix_val (Npos acc) (HexadecimalString.NilEmpty.string_of_uint d)
  = Npos (Pos.of_hex_uint_acc d acc).
Proof.
  induction d; intros acc;
    cbn [HexadecimalString.NilEmpty.string_of_uint Conv.hex_prefix_val
         Pos.of_hex_uint_acc];
    [reflexivity|..];
    match goal with
    | |- context [Conv.hex_val ?c] =>
        let v := eval vm_compute in (Conv.hex_val c) in
        change (Conv.hex_val c) with v
    end; cbv iota; rewrite <- IHd; f_equal; lia.
Qed.

Lemma hex_prefix_val_of_uint : forall d : Hexadecimal.uint,
  Conv.hex_prefix_val 0 (HexadecimalString.NilEmpty.string_of_uint d)
  = N.of_hex_uint d.
Proof.
  induction d; [reflexivity | exact IHd | ..];
    cbn [HexadecimalString.NilEmpty.string_of_uint Conv.hex_prefix_val];
    match goal with
    | |- context [Conv.hex_val ?c] =>
        let v := eval vm_compute in (Conv.hex_val c) in
        change (Conv.hex_val c) with v
    end; cbv iota; apply (hex_prefix_val_acc d).
Qed.

Lemma skip_0x_hex : forall s : string,
  Str.all_chars is_hex s = true -> Conv.skip_0x s = s.
Proof.
  intros [|c1 [|c2 s]] H; [reflexivity| |].
  - destruct c1 as [[] [] [] [] [] [] [] []]; reflexivity.
  - destruct (Ascii.eqb_spec c1 "0") as [->|Hne].
    + simpl in H. apply andb_true_iff in H as [H2 _].
      destruct c2 as [[] [] [] [] [] [] [] []]; try reflexivity;
        discriminate H2.
    + destruct c1 as [[] [] [] [] [] [] [] []]; try reflexivity;
        exfalso; apply Hne; reflexivity.
Qed.

Lemma lexical_cast_dec : forall n : N,
  (n <= Conv.size_max)%N -> Conv.lexical_cast_size_t (Conv.dec n) = Some n.
Proof.
  intros n Hn. unfold Conv.lexical_cast_size_t.
  rewrite (split_sign_digits _ (dec_all_digits n)), dec_all_digits, dec_value.
  apply N.leb_le in Hn. now rewrite Hn.
Qed.

Lemma hex_no_sign : forall s : string,
  Str.all_chars is_hex s = true -> Conv.split_sign s = (false, s).
Proof.
  intros [|c s] H; [reflexivity|].
  simpl in H. apply andb_true_iff in H as [Hc _].
  unfold Conv.split_sign.
  destruct (Ascii.eqb_spec c "-") as [->|Hm]; [discriminate Hc|].
  destruct (Ascii.eqb_spec c "+") as [->|Hp]; [discriminate Hc|].
  destruct c as [[] [] [] [] [] [] [] []]; try reflexivity;
    exfalso; (apply Hm; reflexivity) || (apply Hp; reflexivity).
Qed.

Lemma atoi_dec : forall n : N,
  (Z.of_N n <= Conv.int_max)%Z ->
  Conv.size_t_of_int (Conv.atoi (Conv.dec n)) = n.
Proof.
  intros n Hn. unfold Conv.atoi, Conv.strtol.
  assert (Hd : Str.all_chars Str.is_digit (Conv.dec n) = true)
    by apply dec_digits.
  rewrite (drop_while_head Str.is_space Str.is_digit _ digit_not_space Hd).
  rewrite (split_sign_digits _ (dec_all_digits n)).
  rewrite (take_while_id _ _ Hd), dec_value.
  unfold Conv.wrap_int, Conv.size_t_of_int, Conv.int_max, Conv.long_max,
    Conv.long_min in *.
  rewrite Z.min_r, Z.max_r by lia.
  rewrite (Z.mod_small (Z.of_N n + 2 ^ 31) (2 ^ 32)) by lia.
  replace (Z.of_N n + 2 ^ 31 - 2 ^ 31)%Z with (Z.of_N n) by lia.
  rewrite Z.mod_small by lia. apply N2Z.id.
Qed.

(** What [sscanf] makes of an id as [%x] writes it: its low 32 bits. *)
Lemma sscanf_hex_low : forall n : N,
  (n <= Conv.ulong_max)%N ->
  Conv.sscanf_x (Conv.hex n) = (n mod 2 ^ 32)%N.
Proof.
  intros n Hn. unfold Conv.sscanf_x.
  assert (Hh : Str.all_chars is_hex (Conv.hex n) = true) by apply hex_chars.
  rewrite (drop_while_head Str.is_space is_hex _ hex_not_space Hh).
  rewrite (hex_no_sign _ Hh), (skip_0x_hex _ Hh). unfold Conv.hex.
  rewrite hex_prefix_val_of_uint, HexadecimalN.Unsigned.of_to.
  apply N.ltb_ge in Hn. now rewrite Hn.
Qed.

Lemma sscanf_hex : forall n : N,
  (n < 2 ^ 32)%N -> Conv.sscanf_x (Conv.hex n) = n.
Proof.
  intros n Hn. rewrite sscanf_hex_low.
  - now apply N.mod_small.
  - unfold Conv.ulong_max.
    assert (2 ^ 32 <= 2 ^ 64 - 1)%N by (vm_compute; discriminate). lia.
Qed.

(** X17. The numbers the front-ends write read back as the same numbers
    through the conversions they read with: a breakpoint or frame number
    through [lexical_cast<size_t>], a line number that fits an [int]
    through [atoi], an object id below [2 ^ 32], written with [%x],
    through [sscanf] with [%x]. *)
Theorem numbers_read_back :
  (forall n : N, (n <= Conv.size_max)%N ->
     Conv.lexical_cast_size_t (Conv.dec n) = Some n)
  /\ (forall n : N, (Z.of_N n <= Conv.int_max)%Z ->
        Conv.size_t_of_int (Conv.atoi (Conv.dec n)) = n)
  /\ (forall n : N, (n < 2 ^ 32)%N -> Conv.sscanf_x (Conv.hex n) = n).
Proof.
  split; [exact lexical_cast_dec|]. split; [exact atoi_dec|exact sscanf_hex].
Qed.

Lemma numbers_read_back_witness :
  Conv.lexical_cast_size_t (Conv.dec 42) = Some 42%N
  /\ Conv.size_t_of_int (Conv.atoi (Conv.dec 42)) = 42%N
  /\ Conv.sscanf_x (Conv.hex 255) = 255%N.
Proof.
  split; [|split].
  - apply (proj1 numbers_read_back 42%N). vm_compute. discriminate.
  - apply (proj1 (proj2 numbers_read_back) 42%N). vm_compute. discriminate.
  - apply (proj2 (proj2 numbers_read_back) 255%N). reflexivity.
Defined.

(** ** Numbers from a reply, sent back in a command *)

Lemma star_loop_cls_greedy : forall (A : Type) (p : ascii -> bool)
    (K : Regex.cont A) (a : A) (fuel pos : nat) (s : string) (cs : Regex.caps),
  String.length s <= fuel ->
  K (pos + String.length (Conv.take_while p s)) (Str.drop_while p s) cs
  = Some a ->
  Regex.star_loop (Regex.rmatch (Regex.Cls p)) K fuel pos s cs = Some a.
Proof.
  intros A p K a. induction fuel as [|fuel IH]; intros pos s cs Hlen HK.
  - destruct s; [|simpl in Hlen; lia]. simpl in *.
    now rewrite Nat.add_0_r in HK.
  - rewrite star_loop_S, rmatch_cls. destruct s as [|c s].
    + simpl in HK. now rewrite Nat.add_0_r in HK.
    + simpl in HK. destruct (p c).
      * assert (Hlt : Nat.ltb (String.length s) (String.length (String c s))
                      = true)
          by (apply Nat.ltb_lt; simpl; lia).
        rewrite Hlt, (IH (S pos) s cs); [reflexivity | simpl in Hlen; lia |].
        simpl in HK. now rewrite Nat.add_succ_r in HK.
      * simpl in HK. now rewrite Nat.add_0_r in HK.
Qed.

Lemma substring_all : forall s : string, substring 0 (String.length s) s = s.
Proof. induction s as [|c s IH]; simpl; [reflexivity|now rewrite IH]. Qed.

Lemma drop_while_all : forall (p : ascii -> bool) (s : string),
  Str.all_chars p s = true -> Str.drop_while p s = "".
Proof.
  induction s as [|c s IH]; simpl; intros H; [reflexivity|].
  apply andb_true_iff in H as [Hc Hs]. rewrite Hc. exact (IH Hs).
Qed.

Lemma take_while_head : forall (p q : ascii -> bool) (s : string),
  (forall c, q c = true -> p c = false) ->
  Str.all_chars q s = true -> Conv.take_while p s = "".
Proof.
  intros p q [|c s] Hpq H; [reflexivity|].
  simpl in H. apply andb_true_iff in H as [Hc _].
  simpl. now rewrite (Hpq c Hc).
Qed.

(** A last group [(p+)] followed by [$] takes a non-empty rest made of
    [p] whole. *)
Lemma rmatch_group_to_end : forall (A : Type) (n : nat) (p : ascii -> bool)
    (pos : nat) (s : string) (cs : Regex.caps) (k : Regex.cont A) (a : A),
  s <> "" ->
  Str.all_chars p s = true ->
  k (pos + String.length s) "" ((n, s) :: cs) = Some a ->
  Regex.rmatch (Regex.Grp n (Regex.Plus (Regex.Cls p))) pos s cs
    (fun pos' s' cs' => Regex.rmatch Regex.Eol pos' s' cs' k) = Some a.
Proof.
  intros A n p pos s cs k a Hne Hall Hk.
  destruct s as [|c s]; [now elim Hne|].
  simpl in Hall. apply andb_true_iff in Hall as [Hc Hs].
  change (Regex.rmatch (Regex.Grp n (Regex.Plus (Regex.Cls p))) pos
            (String c s) cs
            (fun pos' s' cs' => Regex.rmatch Regex.Eol pos' s' cs' k))
    with (Regex.rmatch (Regex.Cls p) pos (String c s) cs
            (fun pos1 s1 cs1 =>
               Regex.star_loop (Regex.rmatch (Regex.Cls p))
                 (fun pos' s' cs' =>
                    Regex.rmatch Regex.Eol pos' s'
                      ((n, substring 0 (pos' - pos) (String c s)) :: cs') k)
                 (String.length s1) pos1 s1 cs1)).
  rewrite rmatch_cls, Hc.
  apply star_loop_cls_greedy; [apply Nat.le_refl|].
  rewrite (take_while_id _ _ Hs), (drop_while_all _ _ Hs), rmatch_eol.
  replace (S pos + String.length s - pos) with (S (String.length s)) by lia.
  change (substring 0 (S (String.length s)) (String c s))
    with (String c (substring 0 (String.length s) s)).
  rewrite substring_all.
  simpl in Hk. now rewrite Nat.add_succ_r in Hk.
Qed.

Lemma match_del_number : forall ds : string,
  Conv.all_digits ds = true ->
  Regex.regex_match ("del " ++ ds) RDIP.reg_brk_del = Some [(1, ds)].
Proof.
  intros ds Hds. unfold Conv.all_digits in Hds.
  apply andb_true_iff in Hds as [Hne Hall].
  assert (Hne' : ds <> "") by (intros ->; discriminate Hne).
  unfold Regex.regex_match, RDIP.reg_brk_del.
  change ("del " ++ ds) with (String "d" (String "e" (String "l" (String " " ds)))).
  rewrite rmatch_seq.
  change (Regex.rmatch Regex.Bol 0 ?s [] ?k) with (k 0 s []).
  cbv beta. rewrite rmatch_seq.
  change (Regex.rmatch (Regex.Star Regex.ws) 0 ?s [] ?k)
    with (Regex.star_loop (Regex.rmatch (Regex.Cls Str.is_space)) k
            (String.length s) 0 s []).
  apply star_loop_cls_greedy; [apply Nat.le_refl|].
  change (Conv.take_while Str.is_space (String "d" ?s)) with "".
  change (Str.drop_while Str.is_space (String "d" ?s)) with (String "d" s).
  rewrite rmatch_seq, rmatch_lit.
  change (strip "del" (String "d" (String "e" (String "l" ?s)))) with (Some s).
  cbv iota beta. rewrite rmatch_seq, rmatch_opt, rmatch_lit.
  change (strip "ete" (String " " ?s)) with (@None string).
  cbv iota beta. rewrite rmatch_seq, rmatch_opt.
  match goal with
  | |- match ?m with Some a => Some a | None => _ end = _ =>
      assert (Hin : m = Some [(1, ds)]); [|now rewrite Hin]
  end.
  rewrite rmatch_seq. unfold Regex.Plus at 1. rewrite rmatch_seq.
  unfold Regex.ws. rewrite rmatch_cls.
  change (Str.is_space " ") with true. cbv iota.
  change (Regex.rmatch (Regex.Star (Regex.Cls Str.is_space)) ?pos ?s ?cs ?k)
    with (Regex.star_loop (Regex.rmatch (Regex.Cls Str.is_space)) k
            (String.length s) pos s cs).
  apply star_loop_cls_greedy; [apply Nat.le_refl|].
  rewrite (take_while_head _ _ _ digit_not_space Hall).
  rewrite (drop_while_head _ _ _ digit_not_space Hall).
  apply rmatch_group_to_end; [exact Hne'|exact Hall|reflexivity].
Qed.

Lemma match_frame_number : forall ds : string,
  Conv.all_digits ds = true ->
  Regex.regex_match ("f " ++ ds) RDIP.reg_frame = Some [(1, ds)].
Proof.
  intros ds Hds. unfold Conv.all_digits in Hds.
  apply andb_true_iff in Hds as [Hne Hall].
  assert (Hne' : ds <> "") by (intros ->; discriminate Hne).
  unfold Regex.regex_match, RDIP.reg_frame.
  change ("f " ++ ds) with (String "f" (String " " ds)).
  rewrite rmatch_seq.
  change (Regex.rmatch Regex.Bol 0 ?s [] ?k) with (k 0 s []).
  cbv beta. rewrite rmatch_seq.
  change (Regex.rmatch (Regex.Star Regex.ws) 0 ?s [] ?k)
    with (Regex.star_loop (Regex.rmatch (Regex.Cls Str.is_space)) k
            (String.length s) 0 s []).
  apply star_loop_cls_greedy; [apply Nat.le_refl|].
  change (Conv.take_while Str.is_space (String "f" ?s)) with "".
  change (Str.drop_while Str.is_space (String "f" ?s)) with (String "f" s).
  rewrite rmatch_seq, rmatch_chr.
  change (Ascii.eqb "f" "f") with true. cbv iota beta.
  rewrite rmatch_seq, rmatch_opt, rmatch_lit.
  change (strip "rame" (String " " ?s)) with (@None string).
  cbv iota beta. rewrite rmatch_seq, rmatch_chr.
  change (Ascii.eqb " " " ") with true. cbv iota beta.
  rewrite rmatch_seq.
  apply rmatch_group_to_end; [exact Hne'|exact Hall|reflexivity].
Qed.

Lemma all_chars_impl : forall (p q : ascii -> bool) (s : string),
  (forall c, p c = true -> q c = true) ->
  Str.all_chars p s = true -> Str.all_chars q s = true.
Proof.
  intros p q s Hpq. induction s as [|c s IH]; simpl; intros H; [reflexivity|].
  apply andb_true_iff in H as [Hc Hs]. now rewrite (Hpq c Hc), (IH Hs).
Qed.

Lemma search_inspect_hex : forall (hs : string) (pos : nat),
  Str.all_chars is_hex hs = true ->
  Regex.search_from RDIP.reg_var_inspect pos hs = None.
Proof.
  induction hs as [|c hs IH]; intros pos H; [reflexivity|].
  simpl in H. apply andb_true_iff in H as [Hc Hs].
  cbn [Regex.search_from]. unfold RDIP.reg_var_inspect at 1.
  rewrite rmatch_seq, rmatch_lit.
  assert (Hv : strip "v inspect" (String c hs) = None).
  { cbn [strip]. destruct (Ascii.eqb_spec c "v") as [->|]; [discriminate Hc|].
    reflexivity. }
  rewrite Hv. exact (IH (S pos) Hs).
Qed.

Lemma match_instance_id : forall hs : string,
  hs <> "" ->
  Str.all_chars is_hex hs = true ->
  Regex.regex_match ("v i " ++ hs) RDIP.reg_var_instance = Some [(1, hs)].
Proof.
  intros hs Hne Hall.
  unfold Regex.regex_match, RDIP.reg_var_instance.
  change ("v i " ++ hs) with (String "v" (String " " (String "i" (String " " hs)))).
  rewrite rmatch_seq.
  change (Regex.rmatch Regex.Bol 0 ?s [] ?k) with (k 0 s []).
  cbv beta. rewrite rmatch_seq.
  change (Regex.rmatch (Regex.Star Regex.ws) 0 ?s [] ?k)
    with (Regex.star_loop (Regex.rmatch (Regex.Cls Str.is_space)) k
            (String.length s) 0 s []).
  apply star_loop_cls_greedy; [apply Nat.le_refl|].
  change (Conv.take_while Str.is_space (String "v" ?s)) with "".
  change (Str.drop_while Str.is_space (String "v" ?s)) with (String "v" s).
  rewrite rmatch_seq, rmatch_chr.
  change (Ascii.eqb "v" "v") with true. cbv iota beta.
  rewrite rmatch_seq, rmatch_opt, rmatch_lit.
  change (strip "ar" (String " " ?s)) with (@None string).
  cbv iota beta. rewrite rmatch_seq, rmatch_lit.
  change (strip " i" (String " " (String "i" ?s))) with (Some s).
  cbv iota beta. rewrite rmatch_seq, rmatch_opt, rmatch_lit.
  change (strip "nstance" (String " " ?s)) with (@None string).
  cbv iota beta. rewrite rmatch_seq, rmatch_chr.
  change (Ascii.eqb " " " ") with true. cbv iota beta.
  rewrite rmatch_seq.
  apply rmatch_group_to_end; [exact Hne| |reflexivity].
  apply (all_chars_impl is_hex); [|exact Hall].
  intros c Hc.
  destruct (Ascii.eqb_spec c "010") as [->|]; [discriminate Hc|].
  destruct (Ascii.eqb_spec c "013") as [->|]; [discriminate Hc|].
  reflexivity.
Qed.

Lemma hex_nonempty : forall n : N, Conv.hex n <> "".
Proof.
  intros n. unfold Conv.hex. destruct n as [|p]; [discriminate|].
  change (N.to_hex_uint (Npos p)) with (Pos.to_hex_uint p).
  pose proof (HexadecimalPos.Unsigned.to_uint_nonnil p) as Hne.
  destruct (Pos.to_hex_uint p); [now elim Hne|discriminate..].
Qed.

Section NumbersSentBack.

Context {E : Type} (srv : IDebugServer.t E).

Lemma parse_del_number : forall n : N,
  RDIP.parse ("del " ++ Conv.dec n) = RDIP.DeleteBreakpoint (Conv.dec n)
  /\ ConsoleUI.parse ("del " ++ Conv.dec n)
     = ConsoleUI.DeleteBreakpoint (Conv.dec n).
Proof.
  intros n. pose proof (match_del_number _ (dec_all_digits n)) as Hm.
  split.
  - unfold RDIP.parse.
    assert (H1 : Regex.regex_match ("del " ++ Conv.dec n) RDIP.reg_brk = None)
      by reflexivity.
    now rewrite H1, Hm.
  - unfold ConsoleUI.parse.
    assert (H1 : Regex.matches ("del " ++ Conv.dec n) ConsoleUI.reg_brk_list
                 = false) by reflexivity.
    rewrite H1.
    change ConsoleUI.reg_brk_del with RDIP.reg_brk_del. now rewrite Hm.
Qed.

(** X18. A breakpoint or frame number taken from a reply and sent back
    in a command reaches the engine as the same number; an object id
    reaches it cut to its low 32 bits.  [del n] has the engine remove
    breakpoint [n]: on the wire a removal is answered with
    [<breakpointDeleted no="n" />] and a new line, and a refusal with
    nothing; on the console a removal is followed by the prompt alone and
    a refusal by a message.  [f n] on the wire makes frame [n] the active
    one.  [v i id], with the id in hexadecimal as the replies give it,
    asks for the instance variables of object [id mod 2 ^ 32]: of object
    [id] only when [id] is below [2 ^ 32]. *)
Theorem numbers_sent_back_reach_engine :
  (forall (n : N) (st : RDIP.state E),
     (n <= Conv.size_max)%N ->
     let r := IDebugServer.RemoveBreakPoint srv n (RDIP.engine st) in
     let out := RDIP.evaluateCommand srv ("del " ++ Conv.dec n) st in
     Eff.result out = Eff.Ret tt
     /\ Eff.final out = RDIP.set_engine (snd r) st
     /\ hd_error (Eff.events out) = Some (Eff.Call (Eff.CRemoveBreakPoint n))
     /\ Eff.writes (Eff.events out)
        = if fst r
          then [Eff.Write ("<breakpointDeleted no=" ++ RDIP.quoted (Conv.dec n)
                           ++ " />" ++ RDIP.nl)]
          else [])
  /\ (forall (n : N) (st : ConsoleUI.state E),
        (n <= Conv.size_max)%N ->
        ConsoleUI.server_will_continue_ st = false ->
        let r := IDebugServer.RemoveBreakPoint srv n (ConsoleUI.engine st) in
        let out := ConsoleUI.EvaluateCommand srv ("del " ++ Conv.dec n) st in
        Eff.result out = Eff.Ret true
        /\ ConsoleUI.engine (Eff.final out) = snd r
        /\ Eff.events out
           = (Eff.Call (Eff.CRemoveBreakPoint n)
              :: (if fst r then []
                  else [Eff.Write (ConsoleUI.nl ++ "Cannot remove breakpoint"
                                   ++ ConsoleUI.nl)])
              ++ [Eff.Call Eff.CIsStopped;
                  Eff.Write (ConsoleUI.prompt
                               (negb (IDebugServer.IsStopped srv (snd r))))])%list)
  /\ (forall (n : N) (st : RDIP.state E),
        (n <= Conv.size_max)%N ->
        RDIP.evaluateCommand srv ("f " ++ Conv.dec n) st
        = (Eff.Ret tt,
           RDIP.set_engine
             (IDebugServer.SetActiveFrameIndex srv n (RDIP.engine st)) st,
           [Eff.Call (Eff.CSetActiveFrameIndex n)]))
  /\ (forall (n : N) (st : RDIP.state E),
        (n <= Conv.size_max)%N ->
        let out := RDIP.evaluateCommand srv ("v i " ++ Conv.hex n) st in
        RDIP.server_response_ (Eff.final out)
        = Some (RDIP.TaskGetInstanceVariables (n mod 2 ^ 32))
        /\ RDIP.process_server_response_ (Eff.final out)
           = Some (Eff.HSendVariables "instance")
        /\ Eff.events out = [Eff.Notify]
        /\ ((n < 2 ^ 32)%N ->
            RDIP.server_response_ (Eff.final out)
            = Some (RDIP.TaskGetInstanceVariables n))).
Proof.
  pose proof lexical_cast_dec as Hdec. pose proof sscanf_hex_low as Hhex.
  split; [|split; [|split]].
  - intros n st Hn r out. subst out r.
    unfold RDIP.evaluateCommand. rewrite (proj1 (parse_del_number n)).
    unfold RDIP.exec.
    change (Nat.eqb (Regex.what_size RDIP.reg_brk_del) 2) with true. cbv iota.
    rewrite (Hdec n Hn). unfold RDIP.call. unfold_eff.
    destruct (IDebugServer.RemoveBreakPoint srv n (RDIP.engine st))
      as [[|] e']; repeat split.
  - intros n st Hn Hw r out. subst out r.
    unfold ConsoleUI.EvaluateCommand. rewrite (proj2 (parse_del_number n)).
    unfold ConsoleUI.exec. rewrite (Hdec n Hn).
    unfold ConsoleUI.try_legal, ConsoleUI.WritePrompt, ConsoleUI.WriteText,
      ConsoleUI.call, ConsoleUI.query.
    unfold_eff. simpl.
    destruct (IDebugServer.RemoveBreakPoint srv n (ConsoleUI.engine st))
      as [[|] e']; simpl; rewrite Hw; simpl; repeat split.
  - intros n st Hn. unfold RDIP.evaluateCommand.
    assert (Hp : RDIP.parse ("f " ++ Conv.dec n) = RDIP.Frame (Conv.dec n)).
    { pose proof (match_frame_number _ (dec_all_digits n)) as Hm.
      unfold RDIP.parse.
      assert (H1 : Regex.regex_match ("f " ++ Conv.dec n) RDIP.reg_brk = None)
        by reflexivity.
      assert (H2 : Regex.regex_match ("f " ++ Conv.dec n) RDIP.reg_brk_del
                   = None) by reflexivity.
      assert (H3 : Regex.matches ("f " ++ Conv.dec n) RDIP.reg_start = false)
        by reflexivity.
      assert (H4 : Regex.matches ("f " ++ Conv.dec n) RDIP.reg_cont = false)
        by reflexivity.
      assert (H5 : Regex.matches ("f " ++ Conv.dec n) RDIP.reg_exit = false)
        by reflexivity.
      assert (H6 : Regex.matches ("f " ++ Conv.dec n) RDIP.reg_where = false)
        by reflexivity.
      assert (H7 : Regex.matches ("f " ++ Conv.dec n) RDIP.reg_thr_lst = false)
        by reflexivity.
      now rewrite H1, H2, H3, H4, H5, H6, H7, Hm. }
    rewrite Hp. unfold RDIP.exec.
    change (Nat.eqb (Regex.what_size RDIP.reg_frame) 2) with true. cbv iota.
    rewrite (Hdec n Hn). reflexivity.
  - intros n st Hn out. subst out. unfold RDIP.evaluateCommand.
    assert (Hp : RDIP.parse ("v i " ++ Conv.hex n)
                 = RDIP.VarsInstance (Conv.hex n)).
    { pose proof (match_instance_id _ (hex_nonempty n) (hex_chars _)) as Hm.
      fold (Conv.hex n) in Hm.
      unfold RDIP.parse.
      assert (H1 : Regex.regex_match ("v i " ++ Conv.hex n) RDIP.reg_brk = None)
        by reflexivity.
      assert (H2 : Regex.regex_match ("v i " ++ Conv.hex n) RDIP.reg_brk_del
                   = None) by reflexivity.
      assert (H3 : Regex.matches ("v i " ++ Conv.hex n) RDIP.reg_start = false)
        by reflexivity.
      assert (H4 : Regex.matches ("v i " ++ Conv.hex n) RDIP.reg_cont = false)
        by reflexivity.
      assert (H5 : Regex.matches ("v i " ++ Conv.hex n) RDIP.reg_exit = false)
        by reflexivity.
      assert (H6 : Regex.matches ("v i " ++ Conv.hex n) RDIP.reg_where = false)
        by reflexivity.
      assert (H7 : Regex.matches ("v i " ++ Conv.hex n) RDIP.reg_thr_lst = false)
        by reflexivity.
      assert (H8 : Regex.regex_match ("v i " ++ Conv.hex n) RDIP.reg_frame
                   = None) by reflexivity.
      assert (H9 : Regex.matches ("v i " ++ Conv.hex n) RDIP.reg_step = false)
        by reflexivity.
      assert (H10 : Regex.matches ("v i " ++ Conv.hex n) RDIP.reg_finish = false)
        by reflexivity.
      assert (H11 : Regex.matches ("v i " ++ Conv.hex n) RDIP.reg_next = false)
        by reflexivity.
      assert (H12 : Regex.regex_search ("v i " ++ Conv.hex n)
                      RDIP.reg_var_inspect = None).
      { change (Regex.regex_search ("v i " ++ Conv.hex n) RDIP.reg_var_inspect)
          with (Regex.search_from RDIP.reg_var_inspect 4 (Conv.hex n)).
        apply search_inspect_hex, hex_chars. }
      assert (H13 : Regex.matches ("v i " ++ Conv.hex n) RDIP.reg_var_local
                    = false) by reflexivity.
      assert (H14 : Regex.matches ("v i " ++ Conv.hex n) RDIP.reg_var_global
                    = false) by reflexivity.
      now rewrite H1, H2, H3, H4, H5, H6, H7, H8, H9, H10, H11, H12, H13,
        H14, Hm. }
    rewrite Hp. unfold RDIP.exec, RDIP.request. unfold_eff. simpl.
    rewrite (Hhex n Hn). split; [reflexivity|]. split; [reflexivity|].
    split; [reflexivity|]. intros Hlt. now rewrite N.mod_small.
Qed.

End NumbersSentBack.

Lemma numbers_sent_back_reach_engine_witness :
  RDIP.evaluateCommand Sample.server ("f " ++ Conv.dec 1)
    (RDIP.initial Sample.init)
  = (Eff.Ret tt,
     RDIP.set_engine
       (IDebugServer.SetActiveFrameIndex Sample.server 1
          (RDIP.engine (RDIP.initial Sample.init)))
       (RDIP.initial Sample.init),
     [Eff.Call (Eff.CSetActiveFrameIndex 1)]).
Proof.
  apply (proj1 (proj2 (proj2 (numbers_sent_back_reach_engine Sample.server)))
           1%N (RDIP.initial Sample.init)).
  vm_compute. discriminate.
Defined.

(** ** Console lines that begin with s *)

Lemma rmatch_opt_total : forall (A : Type) (r : Regex.regex) (pos : nat)
    (s : string) (cs : Regex.caps) (k : Regex.cont A),
  (forall pos' s' cs', k pos' s' cs' <> None) ->
  Regex.rmatch (Regex.Opt r) pos s cs k <> None.
Proof.
  intros A r pos s cs k Hk. rewrite rmatch_opt.
  destruct (Regex.rmatch r pos s cs k); [discriminate|apply Hk].
Qed.

Lemma step_pattern_found : forall line rest : string,
  Str.drop_while Str.is_space line = String "s" rest ->
  Regex.found line ConsoleUI.reg_step = true.
Proof.
  intros line rest Hline. unfold Regex.found, Regex.regex_search.
  assert (Hm : exists a,
            Regex.rmatch ConsoleUI.reg_step 0 line []
              (fun _ s' cs => Some (cs, s')) = Some a).
  { unfold ConsoleUI.reg_step. rewrite rmatch_seq.
    change (Regex.rmatch Regex.Bol 0 ?s [] ?k) with (k 0 s []).
    cbv beta. rewrite rmatch_seq.
    change (Regex.rmatch (Regex.Star Regex.ws) 0 ?s [] ?k)
      with (Regex.star_loop (Regex.rmatch (Regex.Cls Str.is_space)) k
              (String.length s) 0 s []).
    match goal with
    | |- exists a, Regex.star_loop _ ?K _ _ _ _ = _ =>
        destruct (K (0 + String.length (Conv.take_while Str.is_space line))
                    (Str.drop_while Str.is_space line) []) as [a|] eqn:HK
    end.
    - exists a. apply star_loop_cls_greedy; [apply Nat.le_refl|exact HK].
    - exfalso. rewrite Hline in HK. revert HK.
      rewrite rmatch_seq, rmatch_chr.
      change (Ascii.eqb "s" "s") with true. cbv iota beta.
      rewrite rmatch_seq. apply rmatch_opt_total. intros pos' s' cs'.
      apply rmatch_opt_total. discriminate. }
  destruct Hm as [a Hm].
  destruct line as [|c line]; cbn [Regex.search_from]; rewrite Hm; reflexivity.
Qed.

Section ConsoleStep.

Context {E : Type} (srv : IDebugServer.t E).

(** X19. Every console line whose first character after the leading
    white space is [s] is a step, whatever follows: the pattern of the
    step command is searched for, not matched against the whole line.
    The engine is told to step, or to step out when what follows the
    pattern is [o] or [out], and the interpreter is let go on. *)
Theorem console_line_starting_with_s_steps :
  forall (line rest : string) (st : ConsoleUI.state E),
    Str.drop_while Str.is_space line = String "s" rest ->
    exists suffix,
      ConsoleUI.parse line = ConsoleUI.Step suffix
      /\ Eff.events (ConsoleUI.EvaluateCommand srv line st)
         = [Eff.Call (if Regex.matches suffix ConsoleUI.reg_out
                      then Eff.CStepOut else Eff.CStep);
            Eff.SetCanContinue; Eff.Notify;
            Eff.Write (ConsoleUI.prompt true)]
      /\ ConsoleUI.server_can_continue_
           (Eff.final (ConsoleUI.EvaluateCommand srv line st)) = true.
Proof.
  intros line rest st Hline.
  assert (Hp : exists suffix, ConsoleUI.parse line = ConsoleUI.Step suffix).
  { pose proof (step_pattern_found line rest Hline) as Hfound.
    destruct (console_parse_hit line) as [(p & Hhit & Hb)|[_ Hnone]].
    - pose proof (hit_head p line Hhit) as Hh. rewrite Hline in Hh.
      assert (Hs : head PStep (String "s" rest) = true) by reflexivity.
      rewrite (heads_exclusive p PStep _ Hh Hs) in Hb.
      destruct (ConsoleUI.parse line); try discriminate Hb.
      eexists. reflexivity.
    - specialize (Hnone PStep). simpl in Hnone. congruence. }
  destruct Hp as [suffix Hp]. exists suffix. split; [exact Hp|].
  unfold ConsoleUI.EvaluateCommand. rewrite Hp.
  unfold ConsoleUI.exec, ConsoleUI.WritePrompt, ConsoleUI.call.
  unfold_eff. simpl.
  destruct (Regex.matches suffix ConsoleUI.reg_out); split; reflexivity.
Qed.

End ConsoleStep.

Lemma console_line_starting_with_s_steps_witness :
  Str.drop_while Str.is_space "  show me" = String "s" "how me"
  /\ exists suffix, ConsoleUI.parse "  show me" = ConsoleUI.Step suffix.
Proof.
  split; [reflexivity|].
  destruct (console_line_starting_with_s_steps Sample.server "  show me"
              "how me" (ConsoleUI.initial Sample.init) eq_refl)
    as (suffix & Hp & _).
  exists suffix. exact Hp.
Defined.

(** ** Who writes to the connection *)

Section WireWriters.

Context {E : Type} (srv : IDebugServer.t E).

Lemma loop_body_writes : forall st : RDIP.state E,
  Eff.writes (Eff.events (RDIP.loop_body srv st)) = [].
Proof.
  intros st. unfold RDIP.loop_body. unfold_eff.
  destruct (RDIP.server_response_ st) as [t|]; [|reflexivity].
  destruct (run_task_ret srv t st) as (st1 & evs1 & -> & _ & _ & _ & Hw & _).
  unfold Eff.writes in Hw.
  destruct (RDIP.process_server_response_ st1); simpl;
    rewrite filter_app, Hw; reflexivity.
Qed.

(** X20. The interpreter thread never writes to the connection: in a
    session of the wire front-end a stop and a wake leave no reply, so
    every reply is written by the i/o thread, in a command handler or in
    a posted follow-up. *)
Theorem wire_interpreter_thread_never_writes :
  forall (a : RDIP.action) (s s' : RDIP.session E) (evs : list Eff.Event),
    RDIP.step srv a s = Some (s', evs) ->
    Eff.writes evs <> [] ->
    (exists str, a = RDIP.Receive str) \/ a = RDIP.RunHandler.
Proof.
  intros a s s' evs Hstep Hw.
  destruct a as [str| |bp|file line|]; simpl in Hstep.
  - left. now exists str.
  - now right.
  - exfalso. apply Hw. destruct (RDIP.waiting s); [discriminate Hstep|].
    unfold RDIP.Break, RDIP.WaitForContinue_enter in Hstep.
    unfold Eff.bind, Eff.emit, Eff.modify in Hstep.
    pose proof (loop_body_writes (RDIP.set_can_continue false (RDIP.conn s)))
      as Hl.
    destruct (RDIP.loop_body srv (RDIP.set_can_continue false (RDIP.conn s)))
      as [[r st1] evs1].
    injection Hstep as _ <-. exact Hl.
  - exfalso. apply Hw. destruct (RDIP.waiting s); [discriminate Hstep|].
    unfold RDIP.Break_at, RDIP.WaitForContinue_enter in Hstep.
    unfold Eff.bind, Eff.emit, Eff.modify in Hstep.
    pose proof (loop_body_writes (RDIP.set_can_continue false (RDIP.conn s)))
      as Hl.
    destruct (RDIP.loop_body srv (RDIP.set_can_continue false (RDIP.conn s)))
      as [[r st1] evs1].
    injection Hstep as _ <-. exact Hl.
  - exfalso. apply Hw. destruct (RDIP.waiting s); [|discriminate Hstep].
    unfold RDIP.WaitForContinue_wake in Hstep.
    unfold Eff.bind, Eff.emit, Eff.get, Eff.ret in Hstep.
    destruct (RDIP.server_can_continue_ (RDIP.conn s)).
    + simpl in Hstep. injection Hstep as _ <-. reflexivity.
    + pose proof (loop_body_writes (RDIP.conn s)) as Hl.
      destruct (RDIP.loop_body srv (RDIP.conn s)) as [[r st1] evs1].
      unfold Eff.events in Hl. simpl in Hl.
      destruct r; simpl in Hstep; injection Hstep as _ <-;
        rewrite ?app_nil_r; exact Hl.
Qed.

End WireWriters.

Lemma wire_interpreter_thread_never_writes_witness :
  (exists str, RDIP.Receive "w" = RDIP.Receive str)
  \/ RDIP.Receive "w" = RDIP.RunHandler.
Proof.
  apply (wire_interpreter_thread_never_writes Sample.server (RDIP.Receive "w")
           (RDIP.start Sample.init)
           (fst (match RDIP.step Sample.server (RDIP.Receive "w")
                         (RDIP.start Sample.init) with
                 | Some r => r
                 | None => (RDIP.start Sample.init, [])
                 end))
           (wire_events [RDIP.Receive "w"])).
  - reflexivity.
  - vm_compute. discriminate.
Defined.

(** ** Legal and illegal console lines *)

Section ConsoleLegality.

Context {E : Type} (srv : IDebugServer.t E).

Lemma map_writes_not_illegal : forall (A : Type) (g : A -> string)
    (xs : list A),
  (forall x, String.eqb (g x) illegal_text = false) ->
  existsb says_illegal (map (fun x => Eff.Write (g x)) xs) = false.
Proof.
  intros A g xs Hg. induction xs as [|x xs IH]; [reflexivity|].
  cbn [map existsb says_illegal]. now rewrite Hg, IH.
Qed.

Lemma frame_lines_not_illegal : forall (frames : list StackFrame.t) (a i : N),
  existsb says_illegal
    (map (fun l => Eff.Write l) (ConsoleUI.frame_lines a i frames)) = false.
Proof.
  induction frames as [|f frames IH]; intros a i; [reflexivity|].
  cbn [ConsoleUI.frame_lines map existsb]. rewrite IH, orb_false_r.
  destruct (N.eqb i a); reflexivity.
Qed.

Lemma WriteCodeLines_not_illegal : forall st : ConsoleUI.state E,
  exists evs,
    ConsoleUI.WriteCodeLines srv st = (Eff.Ret tt, st, evs)
    /\ existsb says_illegal evs = false.
Proof.
  intros st. unfold ConsoleUI.WriteCodeLines, ConsoleUI.query.
  unfold Eff.bind, Eff.emit at 1.
  match goal with
  | |- context [Eff.for_each _ (fun p => Eff.emit (Eff.Write (@?g p)))] =>
      rewrite (for_each_emit _ _ (fun p => Eff.Write (g p)));
      eexists; split; [reflexivity|];
      cbn [app existsb];
      rewrite (map_writes_not_illegal _ g);
      [reflexivity|]
  end.
  intros p. cbv beta. destruct (N.eqb (fst p) _); reflexivity.
Qed.

Lemma WriteBreakPoints_not_illegal : forall (bps : list BreakPoint.t)
    (st : ConsoleUI.state E),
  exists evs,
    ConsoleUI.WriteBreakPoints bps st = (Eff.Ret tt, st, evs)
    /\ existsb says_illegal evs = false.
Proof.
  intros bps st. unfold ConsoleUI.WriteBreakPoints.
  destruct bps as [|b bps].
  - eexists. split; reflexivity.
  - unfold ConsoleUI.WriteText, ConsoleUI.WriteBreakPoint.
    unfold Eff.bind, Eff.emit at 1.
    rewrite (for_each_emit _ _
               (fun bp => Eff.Write (ConsoleUI.breakpoint_line bp))).
    eexists. split; [reflexivity|].
    cbn [app existsb].
    rewrite (map_writes_not_illegal _ ConsoleUI.breakpoint_line);
      [reflexivity|].
    intros bp. reflexivity.
Qed.

(** Whether a branch sets [is_legal_command], and that it never writes
    the message of the illegal lines itself. *)
Lemma exec_legal : forall (c : ConsoleUI.Command) (line : string)
    (st : ConsoleUI.state E),
  ConsoleUI.need_what_from_server_ st = ConsoleUI.NEED_NOTHING ->
  exists f st1 evs,
    ConsoleUI.exec srv c line st = (Eff.Ret f, st1, evs)
    /\ ConsoleUI.is_legal_command f = legal_line c line
    /\ existsb says_illegal evs = false.
Proof.
  intros c line st Hwhat. destruct c; unfold ConsoleUI.exec.
  - unfold ConsoleUI.query. unfold_eff.
    destruct (WriteBreakPoints_not_illegal
                (IDebugServer.GetBreakPoints srv (ConsoleUI.engine st)) st)
      as (evs & -> & Hq).
    do 3 eexists. split; [reflexivity|]. split; [reflexivity|].
    simpl. now rewrite app_nil_r.
  - unfold ConsoleUI.try_legal, ConsoleUI.call, ConsoleUI.WriteText. unfold_eff.
    unfold legal_line.
    destruct (Conv.lexical_cast_size_t arg) as [index|].
    + destruct (IDebugServer.RemoveBreakPoint srv index (ConsoleUI.engine st))
        as [[|] e']; do 3 eexists; repeat split.
    + do 3 eexists; repeat split.
  - change (Nat.eqb (Regex.what_size ConsoleUI.reg_brk) 3) with true. cbv iota.
    unfold ConsoleUI.try_legal, ConsoleUI.call, ConsoleUI.WriteText,
      ConsoleUI.WriteBreakPoint. unfold_eff. unfold legal_line.
    destruct (Conv.lexical_cast_size_t line0) as [n|].
    + destruct (IDebugServer.AddBreakPoint srv _ false (ConsoleUI.engine st))
        as [[[|] idx] e']; do 3 eexists; repeat split.
    + do 3 eexists; repeat split.
  - do 3 eexists; repeat split.
  - unfold ConsoleUI.call. unfold_eff.
    destruct (Regex.matches suffix ConsoleUI.reg_out);
      do 3 eexists; repeat split.
  - unfold ConsoleUI.call. unfold_eff. do 3 eexists; repeat split.
  - unfold ConsoleUI.PrintHelp. unfold_eff. do 3 eexists; repeat split.
  - unfold ConsoleUI.call. unfold_eff. rewrite WriteFrames_events.
    do 3 eexists. split; [reflexivity|]. split; [reflexivity|].
    simpl. rewrite app_nil_r. apply frame_lines_not_illegal.
  - unfold ConsoleUI.call. unfold_eff. rewrite WriteFrames_events.
    do 3 eexists. split; [reflexivity|]. split; [reflexivity|].
    simpl. rewrite app_nil_r. apply frame_lines_not_illegal.
  - unfold_eff. rewrite WriteFrames_events.
    do 3 eexists. split; [reflexivity|]. split; [reflexivity|].
    simpl. rewrite app_nil_r. apply frame_lines_not_illegal.
  - unfold_eff. destruct (WriteCodeLines_not_illegal st) as (evs & -> & Hq).
    do 3 eexists. split; [reflexivity|]. split; [reflexivity|].
    simpl. now rewrite app_nil_r.
  - unfold_eff. do 3 eexists; repeat split.
  - unfold_eff. simpl. unfold legal_line.
    destruct (Regex.matches suffix ConsoleUI.reg_global); simpl.
    + do 3 eexists; repeat split.
    + destruct (Regex.matches suffix ConsoleUI.reg_local); simpl.
      * do 3 eexists; repeat split.
      * rewrite Hwhat. simpl. do 3 eexists; repeat split.
  - unfold_eff. destruct line as [|ch line]; simpl; do 3 eexists; repeat split.
Qed.

(** X21. [EvaluateCommand] returns [false], so that the line is not
    recorded in the history, exactly when it writes [Illegal command],
    and it does so exactly for a [del] or [b] whose number
    [lexical_cast] refuses, for a [v] followed by something other than
    [g], [global], [l] or [local], and for the empty line. *)
Theorem console_illegal_lines :
  forall (line : string) (st : ConsoleUI.state E),
    let out := ConsoleUI.EvaluateCommand srv line st in
    Eff.result out = Eff.Ret (legal_line (ConsoleUI.parse line) line)
    /\ existsb says_illegal (Eff.events out)
       = negb (legal_line (ConsoleUI.parse line) line).
Proof.
  intros line st out. subst out.
  assert (Hout : exists st' evs,
            ConsoleUI.EvaluateCommand srv line st
            = (Eff.Ret (legal_line (ConsoleUI.parse line) line), st', evs)
            /\ existsb says_illegal evs
               = negb (legal_line (ConsoleUI.parse line) line)).
  { unfold ConsoleUI.EvaluateCommand.
    unfold Eff.bind at 1. unfold Eff.modify at 1.
    unfold Eff.bind at 1. unfold Eff.modify at 1.
    unfold Eff.bind at 1. unfold Eff.modify at 1.
    unfold Eff.bind at 1.
    match goal with
    | |- context [ConsoleUI.exec srv ?c line ?s0] =>
        destruct (exec_legal c line s0 eq_refl)
          as (f & st1 & evs1 & -> & Hl & Hq)
    end.
    rewrite <- Hl.
    unfold ConsoleUI.WritePrompt, ConsoleUI.WriteText, ConsoleUI.query.
    unfold_eff. simpl.
    destruct f as [[|] [|] [|]]; simpl;
      destruct (ConsoleUI.need_server_response_ st1); simpl;
      try (destruct (ConsoleUI.server_will_continue_ st1); simpl);
      do 2 eexists; (split; [reflexivity|]);
      rewrite ?existsb_app, ?Hq; simpl;
      repeat match goal with
             | |- context [if ?b then _ else _] => destruct b
             end; reflexivity. }
  destruct Hout as (st' & evs & -> & Hs). split; [reflexivity|exact Hs].
Qed.

End ConsoleLegality.

(** ** Exceptions on the wire *)

Section WireExceptions.

Context {E : Type} (srv : IDebugServer.t E).

(** X22. [bad_lexical_cast] leaves the wire dispatcher for a [del] or
    an [f] whose number [lexical_cast] refuses, and for no other command:
    these two branches hold the only conversions that throw it.  It
    leaves before anything is done: nothing is written, logged or
    signalled, and neither the connection nor the engine is changed. *)
Theorem wire_throws_exactly :
  forall (cmd : string) (st : RDIP.state E),
    let out := RDIP.evaluateCommand srv cmd st in
    (Eff.result out = Eff.Throw <-> throws (RDIP.parse cmd) = true)
    /\ (throws (RDIP.parse cmd) = true ->
        Eff.final out = st /\ Eff.events out = []).
Proof.
  intros cmd st out. subst out. unfold RDIP.evaluateCommand.
  destruct (RDIP.parse cmd); unfold RDIP.exec, throws;
    try change (Nat.eqb (Regex.what_size RDIP.reg_brk) 3) with true;
    try change (Nat.eqb (Regex.what_size RDIP.reg_brk_del) 2) with true;
    try change (Nat.eqb (Regex.what_size RDIP.reg_frame) 2) with true;
    cbv iota;
    unfold RDIP.request, RDIP.signal_continue, RDIP.call, RDIP.query;
    unfold_eff; simpl;
    try (split; [split; discriminate|discriminate]).
  - destruct (IDebugServer.AddBreakPoint srv _ true (RDIP.engine st))
      as [[[|] idx] e']; (split; [split; discriminate|discriminate]).
  - destruct (Conv.lexical_cast_size_t arg) as [i|]; simpl.
    + destruct (IDebugServer.RemoveBreakPoint srv i (RDIP.engine st))
        as [[|] e']; (split; [split; discriminate|discriminate]).
    + split; [split; reflexivity|]. intros _. split; reflexivity.
  - destruct (Conv.lexical_cast_size_t arg) as [i|]; simpl.
    + split; [split; discriminate|discriminate].
    + split; [split; reflexivity|]. intros _. split; reflexivity.
Qed.

End WireExceptions.

Lemma wire_throws_exactly_witness :
  throws (RDIP.parse "del") = true
  /\ Eff.final (RDIP.evaluateCommand Sample.server "del"
                  (RDIP.initial Sample.init)) = RDIP.initial Sample.init.
Proof.
  split; [reflexivity|].
  exact (proj1 (proj2 (wire_throws_exactly Sample.server "del"
                         (RDIP.initial Sample.init)) eq_refl)).
Defined.
